(** * Fault-tolerant experiment workflow engine: a shallow embedding

    This development embeds the fault-tolerance core of the experiment
    runner in Rocq:
    - [CircuitBreaker]     : src/services/carla-runner/error_handler.py, class CircuitBreaker
    - [StateMgr]           : src/services/carla-runner/state_manager.py, class StateManager
    - [Recovery]           : src/services/carla-runner/error_handler.py, class ErrorHandler
    - [Registry]           : WorkflowOrchestrator.active_workflows
    - [Orchestrator]       : src/services/orchestrator/src/services/workflow_orchestrator.py

    Python coroutines are modelled at their await points: code between two
    awaits runs atomically on the asyncio event loop, and at an await another
    coroutine may run.  Clock readings are integers; no arithmetic other than
    comparisons and subtraction is done on them. *)

From Stdlib Require Import ZArith Lia QArith.
From stdpp Require Import base list gmap strings countable pretty.

Open Scope Z_scope.

(* ================================================================== *)
(** ** Circuit breaker (error_handler.py, class CircuitBreaker) *)
(* ================================================================== *)

Module CircuitBreaker.

(** [self.state] is one of the strings "closed", "open", "half-open". *)
Inductive BreakerState := closed | open_ | half_open.

Definition BreakerState_eqb (a b : BreakerState) : bool :=
  match a, b with
  | closed, closed | open_, open_ | half_open, half_open => true
  | _, _ => false
  end.

Record CircuitBreaker := mkCB {
  failure_threshold : Z;
  timeout : Z;
  failure_count : Z;
  last_failure_time : option Z;   (* None until the first failure *)
  state : BreakerState
}.

(** [CircuitBreaker.__init__] *)
Definition new_breaker (failure_threshold timeout : Z) : CircuitBreaker :=
  mkCB failure_threshold timeout 0 None closed.

Definition with_state (cb : CircuitBreaker) (s : BreakerState) : CircuitBreaker :=
  mkCB (failure_threshold cb) (timeout cb) (failure_count cb) (last_failure_time cb) s.

(** [_should_attempt_reset]: [time.time() - self.last_failure_time >= self.timeout]. *)
Definition _should_attempt_reset (cb : CircuitBreaker) (now : Z) : bool :=
  match last_failure_time cb with
  | None => true
  | Some t => Z.leb (timeout cb) (now - t)
  end.

(** [_on_success] *)
Definition _on_success (cb : CircuitBreaker) : CircuitBreaker :=
  mkCB (failure_threshold cb) (timeout cb) 0 (last_failure_time cb) closed.

(** [_on_failure] *)
Definition _on_failure (cb : CircuitBreaker) (now : Z) : CircuitBreaker :=
  let c := failure_count cb + 1 in
  mkCB (failure_threshold cb) (timeout cb) c (Some now)
       (if Z.leb (failure_threshold cb) c then open_ else state cb).

(** The part of [call] that runs before [func] is invoked: either the
    call is rejected with [Exception("Circuit breaker is open")] or it
    is admitted and [func] is invoked. *)
Inductive Entry := Rejected | Proceed.

Definition call_enter (cb : CircuitBreaker) (now : Z) : Entry * CircuitBreaker :=
  if BreakerState_eqb (state cb) open_ then
    if _should_attempt_reset cb now then (Proceed, with_state cb half_open)
    else (Rejected, cb)
  else (Proceed, cb).

(** The part of [call] that runs once [func] has returned ([ok = true]) or
    raised ([ok = false]); [now] is the clock at that moment. *)
Definition call_exit (cb : CircuitBreaker) (now : Z) (ok : bool) : CircuitBreaker :=
  if ok then _on_success cb else _on_failure cb now.

(** Outcome of one [call] as its caller sees it. *)
Inductive CallResult := CircuitOpen | Returned | Raised.

(** [call] when nothing else runs while [func] is in progress: entered at
    time [t0], [func] finishes at time [t1] with outcome [ok]. *)
Definition call (cb : CircuitBreaker) (t0 t1 : Z) (ok : bool) : CallResult * CircuitBreaker :=
  match call_enter cb t0 with
  | (Rejected, cb') => (CircuitOpen, cb')
  | (Proceed, cb') => (if ok then Returned else Raised, call_exit cb' t1 ok)
  end.

(** Number of failed calls made at times [ts] (each finishing at the
    time it started), one after another. *)
Fixpoint fail_calls (cb : CircuitBreaker) (ts : list Z) : CircuitBreaker :=
  match ts with
  | [] => cb
  | t :: rest => fail_calls (snd (call cb t t false)) rest
  end.

(** Breaker states reachable from [CircuitBreaker(thr, tmo)] by any
    interleaving of calls: each call is entered, and later (possibly after
    other calls were entered) finishes. *)
Inductive cb_reachable (thr tmo : Z) : CircuitBreaker -> Prop :=
  | reach_new : cb_reachable thr tmo (new_breaker thr tmo)
  | reach_enter cb t e cb' :
      cb_reachable thr tmo cb -> call_enter cb t = (e, cb') -> cb_reachable thr tmo cb'
  | reach_exit cb t ok :
      cb_reachable thr tmo cb -> cb_reachable thr tmo (call_exit cb t ok).

(** While [Open] and [Half-open], the failure counter is at or above the
    threshold: these states are only entered from [_on_failure] once the
    counter has reached it, and only [_on_success] lowers it. *)
Definition cb_inv (cb : CircuitBreaker) : Prop :=
  state cb <> closed -> failure_threshold cb <= failure_count cb.

End CircuitBreaker.

(* ================================================================== *)
(** ** Checkpoint store (state_manager.py, class StateManager) *)
(* ================================================================== *)

Module StateMgr.

(** The simulated world as the CARLA client exposes it to [StateManager]:
    the spawned actors, the current weather, and which spawn transforms the
    server refuses ([world.spawn_actor] raises on a collision at the spawn
    point).  Coordinates are the float values carried through unchanged. *)
Record Location := mkLocation { loc_x : Z; loc_y : Z; loc_z : Z }.
Record Rotation := mkRotation { rot_pitch : Z; rot_yaw : Z; rot_roll : Z }.
Record Transform := mkTransform { t_location : Location; t_rotation : Rotation }.

Record WeatherParameters := mkWeather {
  cloudiness : Z; precipitation : Z; sun_altitude_angle : Z; wind_intensity : Z
}.

Record Actor := mkActor { actor_id : nat; actor_blueprint : string; actor_transform : Transform }.

Record World := mkWorld {
  actors : list Actor;
  weather : WeatherParameters;
  next_actor_id : nat;
  spawn_blocked : Transform -> bool
}.

(** [world.spawn_actor(bp, transform)]: [None] when the server raises. *)
Definition spawn_actor (w : World) (bp : string) (t : Transform) : option (Actor * World) :=
  if spawn_blocked w t then None
  else let a := mkActor (next_actor_id w) bp t in
       Some (a, mkWorld (a :: actors w) (weather w) (S (next_actor_id w)) (spawn_blocked w)).

(** [world.set_weather(weather)] *)
Definition set_weather (w : World) (p : WeatherParameters) : World :=
  mkWorld (actors w) p (next_actor_id w) (spawn_blocked w).

(** [SimulationCheckpoint]: the dict-valued fields are string-keyed maps as
    in the dataclass; [vehicle_physics], [world_state], [traffic_state] and
    [sensor_configs] are stored but never read back by [restore_checkpoint]
    and are left out. *)
Record SimulationCheckpoint := mkCheckpoint {
  simulation_id : string;
  timestamp : Z;
  vehicle_transform : gmap string (gmap string Z);
  weather_conditions : gmap string Z
}.

(** [ErrorRecord] *)
Record ErrorRecord := mkErrorRecord {
  er_timestamp : Z;
  er_simulation_id : string;
  er_error_type : string;
  er_error_message : string;
  er_stack_trace : string;
  recovery_attempted : bool;
  recovery_successful : bool
}.

Record StateManager := mkStateManager {
  checkpoints : gmap string SimulationCheckpoint;
  error_history : list ErrorRecord
}.

(** [StateManager.record_error] at clock [now]: appends a fresh record
    (writing it to errors.jsonl does not change the in-memory state). *)
Definition record_error (sm : StateManager) (sim et msg st : string) (now : Z) : StateManager :=
  mkStateManager (checkpoints sm)
    (error_history sm ++ [mkErrorRecord now sim et msg st false false]).

(** [checkpoint.vehicle_transform[outer][inner]]: [None] is a [KeyError]. *)
Definition field2 (d : gmap string (gmap string Z)) (outer inner : string) : option Z :=
  d !! outer ≫= fun m => m !! inner.

(** The [carla.Transform] built from a checkpoint in [restore_checkpoint]. *)
Definition checkpoint_transform (cp : SimulationCheckpoint) : option Transform :=
  let vt := vehicle_transform cp in
  x ← field2 vt "location" "x"; y ← field2 vt "location" "y"; z ← field2 vt "location" "z";
  p ← field2 vt "rotation" "pitch"; yw ← field2 vt "rotation" "yaw";
  r ← field2 vt "rotation" "roll";
  Some (mkTransform (mkLocation x y z) (mkRotation p yw r)).

(** The [carla.WeatherParameters] built from a checkpoint. *)
Definition checkpoint_weather (cp : SimulationCheckpoint) : option WeatherParameters :=
  let wc := weather_conditions cp in
  c ← wc !! "cloudiness"; p ← wc !! "precipitation";
  s ← wc !! "sun_altitude_angle"; wi ← wc !! "wind_intensity";
  Some (mkWeather c p s wi).

(** [StateManager.restore_checkpoint(simulation_id, world, vehicle_bp)]:
    returns the spawned vehicle, or [None] (no checkpoint, or an exception
    caught by the [except] clause), together with the world afterwards.
    The store is only read. *)
Definition restore_checkpoint (sm : StateManager) (sim : string) (w : World) (bp : string)
    : option Actor * World :=
  match checkpoints sm !! sim with
  | None => (None, w)
  | Some cp =>
      match checkpoint_transform cp with
      | None => (None, w)
      | Some t =>
          match spawn_actor w bp t with
          | None => (None, w)
          | Some (v, w1) =>
              match checkpoint_weather cp with
              | None => (None, w1)
              | Some wp => (Some v, set_weather w1 wp)
              end
          end
      end
  end.

(** [vehicle_transform] as [create_checkpoint] builds it from
    [vehicle.get_transform()]. *)
Definition transform_dict (t : Transform) : gmap string (gmap string Z) :=
  <["location" := <["x" := loc_x (t_location t)]> (<["y" := loc_y (t_location t)]>
                   (<["z" := loc_z (t_location t)]> ∅))]>
  (<["rotation" := <["pitch" := rot_pitch (t_rotation t)]> (<["yaw" := rot_yaw (t_rotation t)]>
                   (<["roll" := rot_roll (t_rotation t)]> ∅))]> ∅).

Definition weather_dict (p : WeatherParameters) : gmap string Z :=
  <["cloudiness" := cloudiness p]> (<["precipitation" := precipitation p]>
  (<["sun_altitude_angle" := sun_altitude_angle p]> (<["wind_intensity" := wind_intensity p]> ∅))).

(** [StateManager.create_checkpoint(simulation_id, vehicle, world)] at
    clock [now]: the new checkpoint replaces the one stored for that id
    ([self.checkpoints[simulation_id] = checkpoint]); saving to disk and
    the remote backup do not change [self.checkpoints]. *)
Definition create_checkpoint (sm : StateManager) (sim : string) (vehicle : Actor) (w : World)
    (now : Z) : StateManager :=
  mkStateManager (<[sim := mkCheckpoint sim now (transform_dict (actor_transform vehicle))
                                        (weather_dict (weather w))]> (checkpoints sm))
                 (error_history sm).

End StateMgr.

(* ================================================================== *)
(** ** Recovery dispatcher (error_handler.py, class ErrorHandler) *)
(* ================================================================== *)

Module Recovery.
Import StateMgr.

Inductive ErrorType :=
  | CARLA_CRASH | CARLA_TIMEOUT | MEMORY_EXHAUSTION | GPU_ERROR
  | NETWORK_ERROR | SIMULATION_ERROR | RESOURCE_EXHAUSTION.

(** [ErrorType.value] *)
Definition error_type_value (e : ErrorType) : string :=
  match e with
  | CARLA_CRASH => "carla_crash"
  | CARLA_TIMEOUT => "carla_timeout"
  | MEMORY_EXHAUSTION => "memory_exhaustion"
  | GPU_ERROR => "gpu_error"
  | NETWORK_ERROR => "network_error"
  | SIMULATION_ERROR => "simulation_error"
  | RESOURCE_EXHAUSTION => "resource_exhaustion"
  end.

Definition error_type_to_nat (e : ErrorType) : nat :=
  match e with
  | CARLA_CRASH => 0 | CARLA_TIMEOUT => 1 | MEMORY_EXHAUSTION => 2 | GPU_ERROR => 3
  | NETWORK_ERROR => 4 | SIMULATION_ERROR => 5 | RESOURCE_EXHAUSTION => 6
  end%nat.

Definition error_type_of_nat (n : nat) : option ErrorType :=
  match n with
  | 0 => Some CARLA_CRASH | 1 => Some CARLA_TIMEOUT | 2 => Some MEMORY_EXHAUSTION
  | 3 => Some GPU_ERROR | 4 => Some NETWORK_ERROR | 5 => Some SIMULATION_ERROR
  | 6 => Some RESOURCE_EXHAUSTION | _ => None
  end%nat.

#[global] Instance ErrorType_eq_dec : EqDecision ErrorType.
Proof. solve_decision. Defined.

#[global] Instance ErrorType_countable : Countable ErrorType.
Proof.
  refine (inj_countable' error_type_to_nat
            (fun n => default CARLA_CRASH (error_type_of_nat n)) _).
  by intros [].
Defined.

Inductive RecoveryStrategy :=
  | RESTART_CARLA | RESTART_SIMULATION | RESTORE_CHECKPOINT
  | SCALE_DOWN | WAIT_AND_RETRY | FAIL_GRACEFULLY.

(** [RecoveryAction] (the unused [prerequisites] field left out). *)
Record RecoveryAction := mkRecoveryAction {
  strategy : RecoveryStrategy;
  max_attempts : nat;
  delay_seconds : Z;
  timeout_seconds : Z
}.

(** [self.recovery_strategies], set in [ErrorHandler.__init__]. *)
Definition recovery_strategies (e : ErrorType) : RecoveryAction :=
  match e with
  | CARLA_CRASH => mkRecoveryAction RESTART_CARLA 3 10 120
  | CARLA_TIMEOUT => mkRecoveryAction WAIT_AND_RETRY 2 5 30
  | MEMORY_EXHAUSTION => mkRecoveryAction SCALE_DOWN 1 0 60
  | GPU_ERROR => mkRecoveryAction RESTART_CARLA 2 15 180
  | NETWORK_ERROR => mkRecoveryAction WAIT_AND_RETRY 3 2 10
  | SIMULATION_ERROR => mkRecoveryAction RESTORE_CHECKPOINT 2 1 30
  | RESOURCE_EXHAUSTION => mkRecoveryAction SCALE_DOWN 1 0 30
  end.

(** [self.recovery_strategies.get(error_type)]: every kind has an entry. *)
Definition recovery_strategies_get (e : ErrorType) : option RecoveryAction :=
  Some (recovery_strategies e).

(** The [context] dict: the keys the strategies read. *)
Record Context := mkContext {
  ctx_stack_trace : option string;
  ctx_world : option World;
  ctx_vehicle_bp : option string;
  ctx_sim_manager : bool
}.

Definition empty_context : Context := mkContext None None None false.

Record ErrorHandler := mkErrorHandler {
  state_manager : StateManager;
  recovery_attempts : gmap string (gmap ErrorType nat);
  carla_restart_count : nat;
  max_carla_restarts : nat;
  (** Strategies started by [_execute_recovery_strategy], oldest first.
      Not a field of the Python object: it records which strategies ran. *)
  strategy_runs : list (string * RecoveryStrategy)
}.

(** [ErrorHandler.__init__] *)
Definition new_error_handler (sm : StateManager) : ErrorHandler :=
  mkErrorHandler sm ∅ 0 5 [].

Definition set_state_manager (eh : ErrorHandler) (sm : StateManager) : ErrorHandler :=
  mkErrorHandler sm (recovery_attempts eh) (carla_restart_count eh) (max_carla_restarts eh)
                 (strategy_runs eh).

(** [self.recovery_attempts.get(simulation_id, {}).get(error_type, 0)] *)
Definition attempts (eh : ErrorHandler) (sim : string) (e : ErrorType) : nat :=
  default 0%nat (recovery_attempts eh !! sim ≫= fun m => m !! e).

(** [_should_attempt_recovery] *)
Definition _should_attempt_recovery (eh : ErrorHandler) (sim : string) (e : ErrorType) : bool :=
  match recovery_attempts eh !! sim with
  | None => true
  | Some m => Nat.ltb (default 0%nat (m !! e)) (max_attempts (recovery_strategies e))
  end.

(** [_increment_recovery_attempt] *)
Definition _increment_recovery_attempt (eh : ErrorHandler) (sim : string) (e : ErrorType)
    : ErrorHandler :=
  let m := default ∅ (recovery_attempts eh !! sim) in
  mkErrorHandler (state_manager eh)
    (<[sim := <[e := S (default 0%nat (m !! e))]> m]> (recovery_attempts eh))
    (carla_restart_count eh) (max_carla_restarts eh) (strategy_runs eh).

(** The lines after the strategy returned: [error_history[-1]] gets the
    recovery outcome, if the history is non-empty. *)
Definition mark_record (r : ErrorRecord) (success : bool) : ErrorRecord :=
  mkErrorRecord (er_timestamp r) (er_simulation_id r) (er_error_type r) (er_error_message r)
                (er_stack_trace r) true success.

Fixpoint update_last (l : list ErrorRecord) (success : bool) : list ErrorRecord :=
  match l with
  | [] => []
  | [r] => [mark_record r success]
  | r :: rest => r :: update_last rest success
  end.

Definition record_recovery_result (eh : ErrorHandler) (success : bool) : ErrorHandler :=
  set_state_manager eh (mkStateManager (checkpoints (state_manager eh))
                                       (update_last (error_history (state_manager eh)) success)).

(** How far [_execute_recovery_strategy] gets before its first suspension:
    either it returns without awaiting anything that suspends, or it is
    suspended (in [asyncio.sleep]) and resumes later. *)
Inductive StrategyStart := Finished (success : bool) | Suspended.

Definition strategy_start (eh : ErrorHandler) (sim : string) (act : RecoveryAction)
    (ctx : Context) : StrategyStart :=
  match strategy act with
  | RESTART_CARLA =>
      (* [_restart_carla_server]: the restart cap is checked before [sleep(5)] *)
      if Nat.leb (max_carla_restarts eh) (carla_restart_count eh) then Finished false
      else Suspended
  | RESTART_SIMULATION =>
      (* [_restart_simulation]: no sim_manager -> False, else [sleep(2)] *)
      if ctx_sim_manager ctx then Suspended else Finished false
  | RESTORE_CHECKPOINT =>
      (* [_restore_from_checkpoint] never awaits *)
      match ctx_world ctx, ctx_vehicle_bp ctx with
      | Some w, Some bp =>
          match fst (restore_checkpoint (state_manager eh) sim w bp) with
          | Some _ => Finished true
          | None => Finished false
          end
      | _, _ => Finished false
      end
  | SCALE_DOWN => Finished true        (* [_scale_down_resources] never awaits *)
  | WAIT_AND_RETRY => Suspended         (* [asyncio.sleep(delay_seconds)] *)
  | FAIL_GRACEFULLY => Finished true
  end.

(** The rest of a suspended strategy.  [connected] is whether the
    connection test after relaunching the CARLA server succeeds. *)
Definition strategy_finish (eh : ErrorHandler) (sim : string) (act : RecoveryAction)
    (connected : bool) : bool * ErrorHandler :=
  match strategy act with
  | RESTART_CARLA =>
      if connected then
        (true, mkErrorHandler (state_manager eh) (recovery_attempts eh)
                              (S (carla_restart_count eh)) (max_carla_restarts eh)
                              (strategy_runs eh))
      else (false, eh)
  | RESTART_SIMULATION =>
      (if checkpoints (state_manager eh) !! sim then true else false, eh)
  | WAIT_AND_RETRY => (true, eh)
  | _ => (false, eh)
  end.

(** A [handle_error] call suspended inside its recovery strategy. *)
Record Pending := mkPending { p_sim : string; p_action : RecoveryAction }.

Inductive HandleStep := HandleDone (success : bool) | HandleAwait (p : Pending).

(** [handle_error(simulation_id, error_type, error_message, context)] up to
    its first suspension, at clock [now]. *)
Definition handle_error_begin (eh : ErrorHandler) (sim : string) (e : ErrorType)
    (msg : string) (ctx : Context) (now : Z) : HandleStep * ErrorHandler :=
  let eh1 := set_state_manager eh
               (record_error (state_manager eh) sim (error_type_value e) msg
                             (default "" (ctx_stack_trace ctx)) now) in
  if negb (_should_attempt_recovery eh1 sim e) then (HandleDone false, eh1)
  else
    match recovery_strategies_get e with
    | None => (HandleDone false, eh1)
    | Some act =>
        let eh2 := _increment_recovery_attempt eh1 sim e in
        let eh3 := mkErrorHandler (state_manager eh2) (recovery_attempts eh2)
                     (carla_restart_count eh2) (max_carla_restarts eh2)
                     (strategy_runs eh2 ++ [(sim, strategy act)]) in
        match strategy_start eh3 sim act ctx with
        | Finished b => (HandleDone b, record_recovery_result eh3 b)
        | Suspended => (HandleAwait (mkPending sim act), eh3)
        end
    end.

(** The rest of a suspended [handle_error] call. *)
Definition handle_error_resume (eh : ErrorHandler) (p : Pending) (connected : bool)
    : bool * ErrorHandler :=
  let (b, eh1) := strategy_finish eh (p_sim p) (p_action p) connected in
  (b, record_recovery_result eh1 b).

(** [handle_error] when no other coroutine runs while it is suspended. *)
Definition handle_error (eh : ErrorHandler) (sim : string) (e : ErrorType) (msg : string)
    (ctx : Context) (now : Z) (connected : bool) : bool * ErrorHandler :=
  match handle_error_begin eh sim e msg ctx now with
  | (HandleDone b, eh') => (b, eh')
  | (HandleAwait p, eh') => handle_error_resume eh' p connected
  end.

(** Handler states reachable from a new handler by any interleaving of
    [handle_error] calls (started, and resumed in any order), and of other
    writers of the state manager (checkpoint creation and eviction). *)
Inductive eh_reachable : ErrorHandler -> Prop :=
  | eh_new sm : eh_reachable (new_error_handler sm)
  | eh_begin eh sim e msg ctx now r eh' :
      eh_reachable eh -> handle_error_begin eh sim e msg ctx now = (r, eh') -> eh_reachable eh'
  | eh_resume eh p c :
      eh_reachable eh -> eh_reachable (snd (handle_error_resume eh p c))
  | eh_store eh sm : eh_reachable eh -> eh_reachable (set_state_manager eh sm).

End Recovery.

(* ================================================================== *)
(** ** The orchestrator's registry of running workflows *)
(* ================================================================== *)

(** [WorkflowOrchestrator.active_workflows] and the two places of
    [execute_experiment_workflow] that touch it.  WorkflowState objects
    live in a heap of locations; a run of [execute_experiment_workflow]
    holds the location of the object it created in its local variable
    [workflow_state].  The phases in between never read or write
    [active_workflows]. *)
Module Registry.

Record Orchestrator := mkOrchestrator {
  active_workflows : gmap string nat;
  (** The WorkflowState objects allocated so far, by location, with their
      [experiment_id]. *)
  heap : gmap nat string;
  next_loc : nat
}.

Definition new_orchestrator : Orchestrator := mkOrchestrator ∅ ∅ 0.

(** A run of [execute_experiment_workflow]: its [experiment_id] argument
    and its [workflow_state] local. *)
Record Run := mkRun { run_experiment_id : string; run_state : nat }.

(** Lines 82-83: [workflow_state = WorkflowState(experiment_id, config)];
    [self.active_workflows[experiment_id] = workflow_state]. *)
Definition start_workflow (o : Orchestrator) (experiment_id : string) : Run * Orchestrator :=
  let l := next_loc o in
  (mkRun experiment_id l,
   mkOrchestrator (<[experiment_id := l]> (active_workflows o))
                  (<[l := experiment_id]> (heap o)) (S l)).

(** Lines 107-110, the [finally] block, run on every outcome:
    [if experiment_id in self.active_workflows: del self.active_workflows[experiment_id]]. *)
Definition finish_workflow (o : Orchestrator) (r : Run) : Orchestrator :=
  match active_workflows o !! run_experiment_id r with
  | Some _ => mkOrchestrator (delete (run_experiment_id r) (active_workflows o)) (heap o) (next_loc o)
  | None => o
  end.

(** Orchestrator states reachable by any interleaving of runs starting and
    finishing. *)
Inductive orch_reachable : Orchestrator -> Prop :=
  | orch_new : orch_reachable new_orchestrator
  | orch_start o id : orch_reachable o -> orch_reachable (snd (start_workflow o id))
  | orch_finish o r : orch_reachable o -> orch_reachable (finish_workflow o r).

(** [cancel_workflow] finds the state to flag through the map. *)
Definition cancel_target (o : Orchestrator) (experiment_id : string) : option nat :=
  active_workflows o !! experiment_id.

End Registry.

(* ================================================================== *)
(** ** Workflow orchestrator (workflow_orchestrator.py) *)
(* ================================================================== *)

Module Orchestrator.

Inductive WorkflowPhase :=
  | INITIALIZATION | CARLA_SETUP | DREAMER_SETUP | SIMULATION_EXECUTION
  | RESULT_PROCESSING | CLEANUP | COMPLETED | FAILED.

(** [WorkflowPhase.value] *)
Definition phase_value (p : WorkflowPhase) : string :=
  match p with
  | INITIALIZATION => "initialization"
  | CARLA_SETUP => "carla_setup"
  | DREAMER_SETUP => "dreamer_setup"
  | SIMULATION_EXECUTION => "simulation_execution"
  | RESULT_PROCESSING => "result_processing"
  | CLEANUP => "cleanup"
  | COMPLETED => "completed"
  | FAILED => "failed"
  end.

(** The parts of [ExperimentConfig] (shared/schemas/experiment.py) the
    orchestrator reads; the other fields are forwarded as opaque dicts. *)
Record CarlaConfig := mkCarlaConfig { simulation_time : Z }.
Record DreamerConfig := mkDreamerConfig { model_path : string }.
Record ExperimentConfig := mkExperimentConfig {
  cfg_experiment_id : string;
  carla_config : option CarlaConfig;
  dreamer_config : option DreamerConfig
}.

(** [WorkflowState] ([phase_start_time], [total_start_time] and
    [phase_data] are only forwarded to collaborators and are left out). *)
Record WorkflowState := mkWorkflowState {
  experiment_id : string;
  config : ExperimentConfig;
  current_phase : WorkflowPhase;
  carla_session_id : option string;
  dreamer_session_id : option string;
  error_count : Z;
  retry_count : Z;
  metrics : gmap string Z;
  artifacts : list string;
  is_cancelled : bool
}.

(** [WorkflowState.__init__] *)
Definition new_workflow_state (id : string) (cfg : ExperimentConfig) : WorkflowState :=
  mkWorkflowState id cfg INITIALIZATION None None 0 0 ∅ [] false.

Definition set_current_phase (p : WorkflowPhase) (s : WorkflowState) : WorkflowState :=
  mkWorkflowState (experiment_id s) (config s) p (carla_session_id s) (dreamer_session_id s)
    (error_count s) (retry_count s) (metrics s) (artifacts s) (is_cancelled s).
Definition set_carla_session_id (o : option string) (s : WorkflowState) : WorkflowState :=
  mkWorkflowState (experiment_id s) (config s) (current_phase s) o (dreamer_session_id s)
    (error_count s) (retry_count s) (metrics s) (artifacts s) (is_cancelled s).
Definition set_dreamer_session_id (o : option string) (s : WorkflowState) : WorkflowState :=
  mkWorkflowState (experiment_id s) (config s) (current_phase s) (carla_session_id s) o
    (error_count s) (retry_count s) (metrics s) (artifacts s) (is_cancelled s).
Definition incr_error_count (s : WorkflowState) : WorkflowState :=
  mkWorkflowState (experiment_id s) (config s) (current_phase s) (carla_session_id s)
    (dreamer_session_id s) (error_count s + 1) (retry_count s) (metrics s) (artifacts s)
    (is_cancelled s).
Definition incr_retry_count (s : WorkflowState) : WorkflowState :=
  mkWorkflowState (experiment_id s) (config s) (current_phase s) (carla_session_id s)
    (dreamer_session_id s) (error_count s) (retry_count s + 1) (metrics s) (artifacts s)
    (is_cancelled s).
Definition add_results (m : gmap string Z) (arts : list string) (s : WorkflowState) : WorkflowState :=
  mkWorkflowState (experiment_id s) (config s) (current_phase s) (carla_session_id s)
    (dreamer_session_id s) (error_count s) (retry_count s) (m ∪ metrics s) (artifacts s ++ arts)
    (is_cancelled s).
(** [workflow_state.is_cancelled = True] when [b] holds. *)
Definition set_cancel_flag (b : bool) (s : WorkflowState) : WorkflowState :=
  mkWorkflowState (experiment_id s) (config s) (current_phase s) (carla_session_id s)
    (dreamer_session_id s) (error_count s) (retry_count s) (metrics s) (artifacts s)
    (is_cancelled s || b).

(** Exceptions: [ValueError] from the validation, [Exception] raised by the
    orchestrator itself or by a collaborator, and the [AttributeError] and
    [TypeError] of a method applied to [None]. *)
Inductive Exn :=
  | ValueError (msg : string)
  | Exception_ (msg : string)
  | AttributeError (msg : string)
  | TypeError (msg : string).

(** [str(e)] *)
Definition str (e : Exn) : string :=
  match e with
  | ValueError m | Exception_ m | AttributeError m | TypeError m => m
  end.

(** Awaited calls on collaborators: the database manager, the Pub/Sub
    handler, and the service client of the simulation and model backends. *)
Inductive ExtCall :=
  | update_experiment_phase (id phase : string)
  | update_experiment_result (id : string) (failed : bool) (error_message : string)
  | update_experiment_progress (id : string)
  | store_experiment_metrics (id : string)
  | store_experiment_artifact (id path : string)
  | store_experiment_summary (id : string)
  | publish_experiment_event (id event_type : string)
  | initialize_carla_simulation
  | initialize_dreamer_model
  | check_service_health (service : string)
  | start_carla_simulation (session : option string)
  | get_simulation_state (session : option string)
  | get_ai_decision (session : option string)
  | apply_simulation_action (session : option string)
  | get_simulation_metrics (session : option string)
  | submit_experiment_results (id : string)
  | stop_carla_simulation (session : string)
  | release_dreamer_session (session : string).


(** What an awaited call produces: it raises, returns [None], or returns a
    dict, given by the entries the orchestrator reads: ["session_id"],
    ["status"] and the numeric entries (a metrics dict). *)
Inductive Resp :=
  | RRaise (msg : string)
  | RNone
  | RDict (session_id : option string) (status : option string) (entries : gmap string Z).

Inductive LogLevel := INFO | WARNING | ERROR.

(** Observable events of a run, oldest first. *)
Inductive Event :=
  | EvCall (c : ExtCall)            (* an awaited collaborator call is issued *)
  | EvSleep (ms : Z)                (* [await asyncio.sleep(...)] *)
  | EvPhase (p : WorkflowPhase)     (* [state.current_phase = p] *)
  | EvLog (lvl : LogLevel) (msg : string).

Record World := mkWorld {
  w_step : nat;                     (* awaits performed so far *)
  w_reads : nat;                    (* clock readings so far *)
  w_trace : list Event;
  w_state : WorkflowState;          (* the run's WorkflowState object *)
  w_registered : bool;              (* it is in [self.active_workflows] *)
  w_sim_metrics : gmap string Z     (* [simulation_results["metrics"]] of the loop *)
}.

(** The environment of one run: what each awaited call produces (indexed by
    the number of awaits before it), the clock (microseconds, indexed by the
    number of readings before it), at which awaits a concurrent
    [cancel_workflow(experiment_id)] runs, the loop fuel, and [Settings]. *)
Record Env := mkEnv {
  respond : nat -> ExtCall -> Resp;
  clock : nat -> Z;
  cancel_at : nat -> bool;
  loop_fuel : nat;
  max_retries : Z;
  retry_delay : Z
}.

Inductive Res (A : Type) := Ok (a : A) | Exc (e : Exn) | OutOfFuel.
Arguments Ok {A} a. Arguments Exc {A} e. Arguments OutOfFuel {A}.

(** A coroutine of the orchestrator: from the world before to its result and
    the world after. *)
Definition M (A : Type) : Type := World -> Res A * World.

#[global] Instance M_ret : MRet M := fun A a w => (Ok a, w).
#[global] Instance M_bind : MBind M := fun A B k m w =>
  match m w with
  | (Ok a, w1) => k a w1
  | (Exc e, w1) => (Exc e, w1)
  | (OutOfFuel, w1) => (OutOfFuel, w1)
  end.

Definition raise {A} (e : Exn) : M A := fun w => (Exc e, w).
Definition out_of_fuel {A} : M A := fun w => (OutOfFuel, w).

(** [try: m except Exception as e: h(e)] *)
Definition try_except {A} (m : M A) (h : Exn -> M A) : M A := fun w =>
  match m w with
  | (Exc e, w1) => h e w1
  | r => r
  end.

(** [try: m finally: f] where [f] does not raise. *)
Definition try_finally {A} (m : M A) (f : M unit) : M A := fun w =>
  match m w with
  | (OutOfFuel, w1) => (OutOfFuel, w1)
  | (r, w1) => (r, snd (f w1))
  end.

Definition emit (ev : Event) (w : World) : World :=
  mkWorld (w_step w) (w_reads w) (w_trace w ++ [ev]) (w_state w) (w_registered w)
          (w_sim_metrics w).

Definition get_state : M WorkflowState := fun w => (Ok (w_state w), w).

Definition modify_state (f : WorkflowState -> WorkflowState) : M unit := fun w =>
  (Ok tt, mkWorld (w_step w) (w_reads w) (w_trace w) (f (w_state w)) (w_registered w)
                  (w_sim_metrics w)).

Definition log (lvl : LogLevel) (msg : string) : M unit := fun w => (Ok tt, emit (EvLog lvl msg) w).

(** [state.current_phase = p] *)
Definition set_phase (p : WorkflowPhase) : M unit := fun w =>
  (Ok tt, emit (EvPhase p) (mkWorld (w_step w) (w_reads w) (w_trace w)
                              (set_current_phase p (w_state w)) (w_registered w)
                              (w_sim_metrics w))).

(** [state.current_phase = p] is the only place a phase is entered. *)
Fixpoint phases (evs : list Event) : list WorkflowPhase :=
  match evs with
  | [] => []
  | EvPhase p :: evs' => p :: phases evs'
  | _ :: evs' => phases evs'
  end.

(** The collaborator calls of a trace, in order. *)
Fixpoint calls (evs : list Event) : list ExtCall :=
  match evs with
  | [] => []
  | EvCall c :: evs' => c :: calls evs'
  | _ :: evs' => calls evs'
  end.

(** [(datetime_b - datetime_a).seconds] for a difference of [d]
    microseconds: the seconds part of the normalised timedelta. *)
Definition timedelta_seconds (d : Z) : Z := (d / 1000000) mod 86400.

(** The string [str(n)] of an int. *)
Definition str_int (n : Z) : string := pretty n.

Section Run.

Variable env : Env.

(** An await point: while the coroutine is suspended another task may run
    [cancel_workflow(experiment_id)], which sets the flag of the state
    registered in [active_workflows]. *)
Definition suspend (ev : Event) (w : World) : World :=
  let b := cancel_at env (w_step w) && w_registered w in
  mkWorld (S (w_step w)) (w_reads w) (w_trace w ++ [ev]) (set_cancel_flag b (w_state w))
          (w_registered w) (w_sim_metrics w).

(** [await <collaborator>.<method>(...)] *)
Definition ext (c : ExtCall) : M Resp := fun w =>
  let w' := suspend (EvCall c) w in
  match respond env (w_step w) c with
  | RRaise msg => (Exc (Exception_ msg), w')
  | r => (Ok r, w')
  end.

(** [await asyncio.sleep(ms / 1000)] *)
Definition sleep (ms : Z) : M unit := fun w => (Ok tt, suspend (EvSleep ms) w).

(** [datetime.utcnow()] *)
Definition utcnow : M Z := fun w =>
  (Ok (clock env (w_reads w)),
   mkWorld (w_step w) (S (w_reads w)) (w_trace w) (w_state w) (w_registered w) (w_sim_metrics w)).

(** [result.get("session_id")] *)
Definition get_session_id (r : Resp) : M (option string) :=
  match r with
  | RDict sid _ _ => mret sid
  | _ => raise (AttributeError "'NoneType' object has no attribute 'get'")
  end.

(** [health_status.get("status") == "healthy"] *)
Definition status_is_healthy (r : Resp) : M bool :=
  match r with
  | RDict _ (Some st) _ => mret (bool_decide (st = "healthy"%string))
  | RDict _ None _ => mret false
  | _ => raise (AttributeError "'NoneType' object has no attribute 'get'")
  end.

(** [simulation_results["metrics"].update(step_metrics)] *)
Definition update_sim_metrics (r : Resp) : M unit := fun w =>
  match r with
  | RDict _ _ m =>
      (Ok tt, mkWorld (w_step w) (w_reads w) (w_trace w) (w_state w) (w_registered w)
                      (m ∪ w_sim_metrics w))
  | _ => (Exc (TypeError "'NoneType' object is not iterable"), w)
  end.

(** [simulation_results = {"metrics": {}, ...}] *)
Definition reset_sim_metrics : M unit := fun w =>
  (Ok tt, mkWorld (w_step w) (w_reads w) (w_trace w) (w_state w) (w_registered w) ∅).

Definition get_sim_metrics : M (gmap string Z) := fun w => (Ok (w_sim_metrics w), w).

(** [_update_workflow_phase] *)
Definition _update_workflow_phase : M unit :=
  s ← get_state;
  _ ← ext (update_experiment_phase (experiment_id s) (phase_value (current_phase s)));
  _ ← utcnow;
  mret tt.

(** [_validate_experiment_config]: [Some msg] is [raise ValueError(msg)]. *)
Definition _validate_experiment_config (cfg : ExperimentConfig) : option string :=
  if bool_decide (cfg_experiment_id cfg = ""%string) then Some "Experiment ID is required"%string
  else match carla_config cfg with
  | None => Some "CARLA configuration is required"%string
  | Some cc =>
    match dreamer_config cfg with
    | None => Some "DreamerV3 configuration is required"%string
    | Some dc =>
      if simulation_time cc <=? 0 then Some "Simulation time must be positive"%string
      else if bool_decide (model_path dc = ""%string)
           then Some "DreamerV3 model path is required"%string
      else None
    end
  end.

(** [_handle_phase_error] *)
Definition _handle_phase_error (phase : string) (error : Exn) : M unit :=
  modify_state incr_error_count;;
  let error_message := ("Error in " +:+ phase +:+ " phase: " +:+ str error)%string in
  log ERROR error_message;;
  s ← get_state;
  _ ← ext (publish_experiment_event (experiment_id s) "workflow_phase_error");
  s ← get_state;
  (if retry_count s <? max_retries env then
     modify_state incr_retry_count;;
     log INFO "Attempting retry";;
     sleep (retry_delay env * 1000)
   else mret tt);;
  _ ← ext (update_experiment_result (experiment_id s) false error_message);
  mret tt.

(** The common shape of the [_execute_*_phase] methods but cleanup:
    enter the phase, record it, run the body, and on an exception handle it
    and re-raise. *)
Definition run_phase (p : WorkflowPhase) (body : M unit) : M unit :=
  set_phase p;;
  _update_workflow_phase;;
  try_except body (fun e => _handle_phase_error (phase_value p) e;; raise e).

Definition _execute_initialization_phase : M unit :=
  run_phase INITIALIZATION (
    s ← get_state;
    (match _validate_experiment_config (config s) with
     | Some msg => raise (ValueError msg)
     | None => mret tt
     end);;
    (* [_initialize_workflow_resources] is [pass] *)
    _ ← ext (publish_experiment_event (experiment_id s) "workflow_phase_started");
    log INFO "Initialization phase completed").

(** [_verify_carla_readiness] and [_verify_dreamer_readiness], with the
    attempts left. *)
Fixpoint verify_readiness (attempts : nat) (service failure : string) : M unit :=
  match attempts with
  | O => raise (Exception_ failure)
  | S attempts' =>
    ready ← try_except (A:=bool)
      (h ← ext (check_service_health service);
       ok ← status_is_healthy h;
       if (ok : bool) then mret true
       else log WARNING "not ready";; sleep 2000;; mret false)
      (fun e => log WARNING ("readiness check failed: " +:+ str e);; sleep 2000;; mret false);
    if (ready : bool) then mret tt else verify_readiness attempts' service failure
  end.

Definition _verify_carla_readiness : M unit :=
  verify_readiness 5 "carla-runner" "CARLA simulation failed to become ready".

Definition _verify_dreamer_readiness : M unit :=
  verify_readiness 5 "dreamerv3-service" "DreamerV3 model failed to become ready".

Definition _execute_carla_setup_phase : M unit :=
  run_phase CARLA_SETUP (
    s ← get_state;
    (match carla_config (config s) with
     | None => raise (AttributeError "'NoneType' object has no attribute 'dict'")
     | Some _ => mret tt
     end);;
    carla_result ← ext initialize_carla_simulation;
    sid ← get_session_id carla_result;
    modify_state (set_carla_session_id sid);;
    _verify_carla_readiness;;
    _ ← ext (publish_experiment_event (experiment_id s) "carla_setup_completed");
    log INFO "CARLA setup phase completed").

Definition _execute_dreamer_setup_phase : M unit :=
  run_phase DREAMER_SETUP (
    s ← get_state;
    (match dreamer_config (config s) with
     | None => raise (AttributeError "'NoneType' object has no attribute 'dict'")
     | Some _ => mret tt
     end);;
    dreamer_result ← ext initialize_dreamer_model;
    sid ← get_session_id dreamer_result;
    modify_state (set_dreamer_session_id sid);;
    _verify_dreamer_readiness;;
    _ ← ext (publish_experiment_event (experiment_id s) "dreamer_setup_completed");
    log INFO "DreamerV3 setup phase completed").

(** The [try] block of one iteration of the simulation loop: the new
    [step_count]. *)
Definition simulation_step (start simulation_time step_count : Z) : M Z :=
  s ← get_state;
  _ ← ext (get_simulation_state (carla_session_id s));
  s ← get_state;
  _ ← ext (get_ai_decision (dreamer_session_id s));
  s ← get_state;
  _ ← ext (apply_simulation_action (carla_session_id s));
  s ← get_state;
  step_metrics ← ext (get_simulation_metrics (carla_session_id s));
  update_sim_metrics step_metrics;;
  _ ← utcnow;  (* progress = ((utcnow() - start_time).seconds / simulation_time) * 100 *)
  s ← get_state;
  _ ← ext (update_experiment_progress (experiment_id s));
  sleep 100;;
  mret (step_count + 1).

(** Its [except] block. *)
Definition simulation_step_error (step_count : Z) (e : Exn) : M Z :=
  log ERROR ("Error in simulation step: " +:+ str e);;
  modify_state incr_error_count;;
  s ← get_state;
  if 10 <? error_count s then
    raise (Exception_ ("Too many simulation errors (" +:+ str_int (error_count s) +:+ ")"))
  else mret step_count.

(** The [while] loop of [_run_simulation_loop], with [fuel] bounding the
    iterations: [OutOfFuel] stands for a loop still running. *)
Fixpoint simulation_loop (fuel : nat) (start simulation_time step_count : Z) : M Z :=
  match fuel with
  | O => out_of_fuel
  | S fuel' =>
    t ← utcnow;
    if timedelta_seconds (t - start) <? simulation_time then
      s ← get_state;
      if is_cancelled s then
        log INFO "Simulation cancelled";;
        mret step_count
      else
        step_count' ← try_except (simulation_step start simulation_time step_count)
                                 (simulation_step_error step_count);
        simulation_loop fuel' start simulation_time step_count'
    else mret step_count
  end.

(** The part of the returned [simulation_results] the caller reads. *)
Record SimulationResults := mkSimulationResults {
  sr_metrics : gmap string Z;
  sr_total_steps : Z;
  sr_total_time : Z;
  sr_error_count : Z
}.

(** [_run_simulation_loop] *)
Definition _run_simulation_loop : M SimulationResults :=
  s ← get_state;
  match carla_config (config s) with
  | None => raise (AttributeError "'NoneType' object has no attribute 'simulation_time'")
  | Some cc =>
    reset_sim_metrics;;
    start_time ← utcnow;
    log INFO "Starting simulation loop";;
    step_count ← simulation_loop (loop_fuel env) start_time (simulation_time cc) 0;
    t ← utcnow;
    s ← get_state;
    m ← get_sim_metrics;
    log INFO "Simulation loop completed";;
    mret (mkSimulationResults m step_count (t - start_time) (error_count s))
  end.

Definition _execute_simulation_phase : M unit :=
  run_phase SIMULATION_EXECUTION (
    s ← get_state;
    _ ← ext (start_carla_simulation (carla_session_id s));
    simulation_results ← _run_simulation_loop;
    modify_state (add_results (sr_metrics simulation_results) []);;
    _ ← ext (publish_experiment_event (experiment_id s) "simulation_completed");
    log INFO "Simulation phase completed").

(** [for artifact in state.artifacts: await store_experiment_artifact(...)] *)
Fixpoint store_artifacts (id : string) (arts : list string) : M unit :=
  match arts with
  | [] => mret tt
  | a :: arts' => _ ← ext (store_experiment_artifact id a); store_artifacts id arts'
  end.

Definition _execute_result_processing_phase : M unit :=
  run_phase RESULT_PROCESSING (
    s ← get_state;
    _ ← utcnow;  (* _process_simulation_results: processing_timestamp *)
    _ ← ext (store_experiment_metrics (experiment_id s));
    s ← get_state;
    store_artifacts (experiment_id s) (artifacts s);;
    _ ← utcnow; _ ← utcnow;  (* _generate_experiment_summary *)
    _ ← ext (store_experiment_summary (experiment_id s));
    _ ← ext (submit_experiment_results (experiment_id s));
    _ ← ext (publish_experiment_event (experiment_id s) "result_processing_completed");
    log INFO "Result processing phase completed").

(** [if x:] on an [Optional[str]] *)
Definition truthy (o : option string) : option string :=
  match o with
  | Some x => if bool_decide (x = ""%string) then None else Some x
  | None => None
  end.

Definition _execute_cleanup_phase : M unit :=
  set_phase CLEANUP;;
  _update_workflow_phase;;
  try_except (
    s ← get_state;
    (match truthy (carla_session_id s) with
     | Some sid => _ ← ext (stop_carla_simulation sid); mret tt
     | None => mret tt
     end);;
    s ← get_state;
    (match truthy (dreamer_session_id s) with
     | Some sid => _ ← ext (release_dreamer_session sid); mret tt
     | None => mret tt
     end);;
    (* [_cleanup_temporary_resources] is [pass] *)
    _ ← ext (publish_experiment_event (experiment_id s) "cleanup_completed");
    log INFO "Cleanup phase completed")
  (fun e => log WARNING ("Cleanup phase had errors: " +:+ str e)).

Definition _handle_workflow_failure (error_message : string) : M unit :=
  log ERROR ("Workflow failed: " +:+ error_message);;
  s ← get_state;
  _ ← utcnow;  (* "completed_at": datetime.utcnow() *)
  _ ← ext (update_experiment_result (experiment_id s) true error_message);
  _ ← ext (publish_experiment_event (experiment_id s) "workflow_failed");
  try_except _execute_cleanup_phase
    (fun e => log ERROR ("Cleanup after failure also failed: " +:+ str e)).

(** The [try] block of [execute_experiment_workflow]. *)
Definition execute_workflow_phases : M unit :=
  log INFO "Starting experiment workflow";;
  _execute_initialization_phase;;
  _execute_carla_setup_phase;;
  _execute_dreamer_setup_phase;;
  _execute_simulation_phase;;
  _execute_result_processing_phase;;
  _execute_cleanup_phase;;
  set_phase COMPLETED;;
  _update_workflow_phase;;
  log INFO "Experiment workflow completed".

(** [workflow_state = WorkflowState(experiment_id, config)];
    [self.active_workflows[experiment_id] = workflow_state] *)
Definition register (id : string) (cfg : ExperimentConfig) : M unit :=
  _ ← utcnow; _ ← utcnow;  (* phase_start_time, total_start_time *)
  ((fun w => (Ok tt, mkWorld (w_step w) (w_reads w) (w_trace w) (new_workflow_state id cfg) true
                             (w_sim_metrics w))) : M unit).

(** [if experiment_id in self.active_workflows: del ...] *)
Definition unregister : M unit := fun w =>
  (Ok tt, mkWorld (w_step w) (w_reads w) (w_trace w) (w_state w) false (w_sim_metrics w)).

Definition execute_experiment_workflow (id : string) (cfg : ExperimentConfig) : M unit :=
  register id cfg;;
  try_finally
    (try_except execute_workflow_phases
       (fun e => log ERROR ("Experiment workflow failed: " +:+ str e);;
                 set_phase FAILED;;
                 _handle_workflow_failure (str e)))
    unregister.

End Run.

(** The world before a run: nothing registered, nothing traced. *)
Definition initial_world (cfg : ExperimentConfig) : World :=
  mkWorld 0 0 [] (new_workflow_state "" cfg) false ∅.

(** A run of [execute_experiment_workflow(experiment_id, config)]. *)
Definition run (env : Env) (id : string) (cfg : ExperimentConfig) : Res unit * World :=
  execute_experiment_workflow env id cfg (initial_world cfg).

(** The forward phase sequence of a successful run. *)
Definition forward_phases : list WorkflowPhase :=
  [INITIALIZATION; CARLA_SETUP; DREAMER_SETUP; SIMULATION_EXECUTION; RESULT_PROCESSING;
   CLEANUP; COMPLETED].

End Orchestrator.

(* ================================================================== *)
(** ** Concrete runs of the orchestrator *)
(* ================================================================== *)

Module Scenarios.
Import Orchestrator.

(** A healthy collaborator: every call returns the same dict. *)
Definition ok_response : Resp := RDict (Some "session-1"%string) (Some "healthy"%string) ∅.

(** A clock advancing 0.1 s at each reading; [Settings] defaults
    [max_retries = 3], [retry_delay = 30]. *)
Definition mk_env (respond : nat -> ExtCall -> Resp) (cancel : nat -> bool) : Env :=
  mkEnv respond (fun n => Z.of_nat n * 100000) cancel 1000 3 30.

Definition valid_config : ExperimentConfig :=
  mkExperimentConfig "exp-1" (Some (mkCarlaConfig 3)) (Some (mkDreamerConfig "models/dreamerv3.ckpt")).

(** [initialize_carla_simulation] raises. *)
Definition carla_down_env : Env :=
  mk_env (fun _ c => match c with
                     | initialize_carla_simulation => RRaise "Connection refused"
                     | _ => ok_response
                     end) (fun _ => false).

(** Everything succeeds. *)
Definition healthy_env : Env := mk_env (fun _ _ => ok_response) (fun _ => false).

(** [cancel_workflow] runs while the first [get_ai_decision] of the
    simulation loop is awaited (the 14th await of the run). *)
Definition cancel_in_loop_env : Env := mk_env (fun _ _ => ok_response) (fun n => Nat.eqb n 13).

(** The database refuses every write of the phase [cleanup]. *)
Definition cleanup_write_fails_env : Env :=
  mk_env (fun _ c => match c with
                     | update_experiment_phase _ p =>
                         if bool_decide (p = "cleanup"%string) then RRaise "Database unavailable"
                         else ok_response
                     | _ => ok_response
                     end) (fun _ => false).

(** [release_dreamer_session] raises. *)
Definition release_fails_env : Env :=
  mk_env (fun _ c => match c with
                     | release_dreamer_session _ => RRaise "Session not found"
                     | _ => ok_response
                     end) (fun _ => false).

(** The database refuses the final [update_experiment_result] of a failure. *)
Definition failure_write_fails_env : Env :=
  mk_env (fun _ c => match c with
                     | initialize_carla_simulation => RRaise "Connection refused"
                     | update_experiment_result _ true _ => RRaise "Database unavailable"
                     | _ => ok_response
                     end) (fun _ => false).

(** [get_simulation_state] raises at every iteration. *)
Definition sim_state_fails_env : Env :=
  mk_env (fun _ c => match c with
                     | get_simulation_state _ => RRaise "Simulation state unavailable"
                     | _ => ok_response
                     end) (fun _ => false).

(** The number of calls of a trace satisfying [f]. *)
Definition count_calls (f : ExtCall -> bool) (evs : list Event) : nat :=
  length (filter (fun c => f c = true) (calls evs)).

Definition is_get_simulation_state (c : ExtCall) : bool :=
  match c with get_simulation_state _ => true | _ => false end.

Definition is_initialize_carla (c : ExtCall) : bool :=
  match c with initialize_carla_simulation => true | _ => false end.


End Scenarios.

(* ================================================================== *)
(** ** Maintenance of the state store (state_manager.py, StateManager) *)
(* ================================================================== *)

Module StateMaint.
Import StateMgr.

(** [timedelta(hours=1)] in clock units (microseconds, the resolution of
    [datetime]).  The clock counts from [datetime.min] (0001-01-01 00:00). *)
Definition hour : Z := 3600000000.

(** [datetime.max] on that clock: 9999-12-31 23:59:59.999999. *)
Definition datetime_max : Z := 315537897599999999.

(** [datetime.now() - timedelta(hours=hours)] at clock [now].  [None] is the
    [OverflowError] raised when the result falls outside
    [datetime.min .. datetime.max]; [timedelta(hours=hours)] itself only
    overflows for a number of hours that already puts the result outside
    that range. *)
Definition hours_ago (now hours : Z) : option Z :=
  let t := now - hours * hour in
  if (0 <=? t) && (t <=? datetime_max) then Some t else None.

(** The exceptions raised by the maintenance methods. *)
Inductive PyError := OverflowError | OSError.

(** [simulation_id is None or error.simulation_id == simulation_id] *)
Definition matches_simulation (simulation_id : option string) (error : ErrorRecord) : bool :=
  match simulation_id with
  | None => true
  | Some s => bool_decide (er_simulation_id error = s)
  end.

(** [get_error_history(simulation_id, hours)] at clock [now]: [None] is
    the [OverflowError] of the cutoff computation. *)
Definition get_error_history (sm : StateManager) (simulation_id : option string) (hours now : Z)
    : option (list ErrorRecord) :=
  cutoff_time ← hours_ago now hours;
  Some (List.filter (fun error => (cutoff_time <=? er_timestamp error) &&
                                  matches_simulation simulation_id error)
                    (error_history sm)).

(** The deletion loop of [cleanup_old_checkpoints]: [del
    self.checkpoints[sim_id]], then [checkpoint_file.exists()] and
    [checkpoint_file.unlink()].  [file_ok sim_id] is whether those two file
    operations return without raising [OSError]; an [OSError] leaves the
    loop after the current id has been deleted from the dict, and the later
    ids stay. *)
Fixpoint delete_checkpoints (file_ok : string -> bool) (m : gmap string SimulationCheckpoint)
    (to_remove : list string) : option PyError * gmap string SimulationCheckpoint :=
  match to_remove with
  | [] => (None, m)
  | sim_id :: rest =>
      let m' := delete sim_id m in
      if file_ok sim_id then delete_checkpoints file_ok m' rest else (Some OSError, m')
  end.

(** [cleanup_old_checkpoints(max_age_hours)] at clock [now]: the exception
    it raises, if any, and the store afterwards.  [keys] are the keys of
    [self.checkpoints] in the dict's iteration (insertion) order, which the
    map does not keep; the ids to remove are collected first, in that
    order. *)
Definition cleanup_old_checkpoints (file_ok : string -> bool) (keys : list string)
    (sm : StateManager) (max_age_hours now : Z) : option PyError * StateManager :=
  match hours_ago now max_age_hours with
  | None => (Some OverflowError, sm)
  | Some cutoff_time =>
      let to_remove := List.filter (fun sim_id =>
                         match checkpoints sm !! sim_id with
                         | Some checkpoint => timestamp checkpoint <? cutoff_time
                         | None => false
                         end) keys in
      let (err, m) := delete_checkpoints file_ok (checkpoints sm) to_remove in
      (err, mkStateManager m (error_history sm))
  end.

End StateMaint.

(* ================================================================== *)
(** ** Health monitoring (state_manager.py, class HealthMonitor, and
       ErrorHandler.get_recovery_status / periodic_health_check) *)
(* ================================================================== *)

Module Health.
Import StateMgr StateMaint Recovery.

(** [self.metrics] of a [HealthMonitor].  The float values are the rationals
    they denote; the comparisons below are the ones the code makes, on the
    same values. *)
Record HealthMetrics := mkHealthMetrics {
  carla_connection : bool;
  memory_usage : Q;
  cpu_usage : Q;
  gpu_usage : Q;
  active_simulations : Z;
  error_rate : Q;
  last_check : Z
}.

(** [HealthMonitor.__init__] at clock [now]. *)
Definition new_health_monitor (now : Z) : HealthMetrics :=
  mkHealthMetrics true 0 0 0 0 0 now.

(** [self.thresholds] *)
Definition memory_usage_max : Q := 80.
Definition cpu_usage_max : Q := 90.
Definition gpu_usage_max : Q := 95.
Definition error_rate_max : Q := 1 # 10.

(** [a > b] on the metric values. *)
Definition Qgtb (a b : Q) : bool := negb (Qle_bool a b).

Definition set_carla_connection (b : bool) (m : HealthMetrics) : HealthMetrics :=
  mkHealthMetrics b (memory_usage m) (cpu_usage m) (gpu_usage m) (active_simulations m)
                  (error_rate m) (last_check m).
Definition set_cpu_usage (v : Q) (m : HealthMetrics) : HealthMetrics :=
  mkHealthMetrics (carla_connection m) (memory_usage m) v (gpu_usage m) (active_simulations m)
                  (error_rate m) (last_check m).
Definition set_memory_usage (v : Q) (m : HealthMetrics) : HealthMetrics :=
  mkHealthMetrics (carla_connection m) v (cpu_usage m) (gpu_usage m) (active_simulations m)
                  (error_rate m) (last_check m).
Definition set_gpu_usage (v : Q) (m : HealthMetrics) : HealthMetrics :=
  mkHealthMetrics (carla_connection m) (memory_usage m) (cpu_usage m) v (active_simulations m)
                  (error_rate m) (last_check m).
Definition set_error_rate (v : Q) (m : HealthMetrics) : HealthMetrics :=
  mkHealthMetrics (carla_connection m) (memory_usage m) (cpu_usage m) (gpu_usage m)
                  (active_simulations m) v (last_check m).
Definition set_last_check (t : Z) (m : HealthMetrics) : HealthMetrics :=
  mkHealthMetrics (carla_connection m) (memory_usage m) (cpu_usage m) (gpu_usage m)
                  (active_simulations m) (error_rate m) t.

(** [check_carla_connection(client)]: [responds] is whether
    [client.get_server_version()] returns. *)
Definition check_carla_connection (responds : bool) (m : HealthMetrics) : bool * HealthMetrics :=
  (responds, set_carla_connection responds m).

(** What [psutil] and [pynvml] produce in [check_resource_usage]:
    [psutil] missing, [cpu_percent] raising, [virtual_memory] raising, or
    both readings, with the GPU reading when [pynvml] gives one. *)
Inductive ResourceProbe :=
  | psutil_missing
  | cpu_failed
  | memory_failed (cpu : Q)
  | probed (cpu memory : Q) (gpu : option Q).

(** The returned dict: [None] is [{}], otherwise its [cpu_usage],
    [memory_usage] and [gpu_usage] entries. *)
Definition check_resource_usage (p : ResourceProbe) (m : HealthMetrics)
    : option (Q * Q * Q) * HealthMetrics :=
  match p with
  | psutil_missing | cpu_failed => (None, m)
  | memory_failed cpu => (None, set_cpu_usage cpu m)
  | probed cpu mem gpu =>
      let m1 := set_memory_usage mem (set_cpu_usage cpu m) in
      let m2 := match gpu with Some g => set_gpu_usage g m1 | None => m1 end in
      (Some (cpu_usage m2, memory_usage m2, gpu_usage m2), m2)
  end.

(** [resources.get('memory_usage', 0)] on the dict returned by
    [check_resource_usage]. *)
Definition resources_memory (resources : option (Q * Q * Q)) : Q :=
  match resources with Some (_, mem, _) => mem | None => 0%Q end.

(** [calculate_error_rate(error_history)] at clock [now]: the rate it
    returns ([None] is the [OverflowError] of [datetime.now() -
    timedelta(hours=1)]), and the metrics afterwards. *)
Definition calculate_error_rate (error_history : list ErrorRecord) (now : Z) (m : HealthMetrics)
    : option Q * HealthMetrics :=
  match error_history with
  | [] => (Some 0%Q, m)
  | _ =>
      match hours_ago now 1 with
      | None => (None, m)
      | Some one_hour_ago =>
          let recent_errors := List.filter (fun error => one_hour_ago <=? er_timestamp error)
                                           error_history in
          let rate := (inject_Z (Z.of_nat (length recent_errors)) / 60)%Q in
          (Some rate, set_error_rate rate m)
      end
  end.

(** The entries of [issues], with the values their messages print. *)
Inductive Issue :=
  | carla_not_responding
  | high_memory_usage (v : Q)
  | high_cpu_usage (v : Q)
  | high_gpu_usage (v : Q)
  | high_error_rate (v : Q).

Record HealthStatus := mkHealthStatus {
  hs_status : string;
  hs_metrics : HealthMetrics;
  hs_issues : list Issue
}.

(** [get_health_status()] at clock [now]. *)
Definition get_health_status (now : Z) (m : HealthMetrics) : HealthStatus * HealthMetrics :=
  let m1 := set_last_check now m in
  let issues :=
    (if carla_connection m1 then [] else [carla_not_responding]) ++
    (if Qgtb (memory_usage m1) memory_usage_max then [high_memory_usage (memory_usage m1)] else []) ++
    (if Qgtb (cpu_usage m1) cpu_usage_max then [high_cpu_usage (cpu_usage m1)] else []) ++
    (if Qgtb (gpu_usage m1) gpu_usage_max then [high_gpu_usage (gpu_usage m1)] else []) ++
    (if Qgtb (error_rate m1) error_rate_max then [high_error_rate (error_rate m1)] else []) in
  let status := match issues with
                | [] => "healthy"%string
                | _ => if (length issues <? 3)%nat then "degraded"%string else "unhealthy"%string
                end in
  (mkHealthStatus status m1 issues, m1).

(** [ErrorType] in declaration order, as [for error_type in ErrorType]. *)
Definition all_error_types : list ErrorType :=
  [CARLA_CRASH; CARLA_TIMEOUT; MEMORY_EXHAUSTION; GPU_ERROR; NETWORK_ERROR;
   SIMULATION_ERROR; RESOURCE_EXHAUSTION].

Record RecoveryStatus := mkRecoveryStatus {
  rs_simulation_id : string;
  rs_recovery_attempts : list (string * nat);
  rs_carla_restart_count : nat;
  rs_max_carla_restarts : nat
}.

(** [ErrorHandler.get_recovery_status(simulation_id)] *)
Definition get_recovery_status (eh : ErrorHandler) (simulation_id : string) : RecoveryStatus :=
  let attempts := default ∅ (recovery_attempts eh !! simulation_id) in
  mkRecoveryStatus simulation_id
    (map (fun error_type => (error_type_value error_type, default 0%nat (attempts !! error_type)))
         all_error_types)
    (carla_restart_count eh) (max_carla_restarts eh).

(** What the world does during one [periodic_health_check]: whether the
    server answers, whether a CARLA restart's connection test succeeds, the
    resource readings, the clock at each reading of it, and, for the
    cleanup, the iteration order of [self.checkpoints] and which checkpoint
    files can be checked and removed without an [OSError]. *)
Record CheckInputs := mkCheckInputs {
  server_responds : bool;
  restart_connects : bool;
  probe : ResourceProbe;
  t_crash : Z;      (* [datetime.now()] in the record of a lost connection *)
  t_memory : Z;     (* ... of a memory exhaustion *)
  t_history : Z;    (* in [get_error_history(hours=1)] *)
  t_rate : Z;       (* in [calculate_error_rate] *)
  t_cleanup : Z;    (* in [cleanup_old_checkpoints()] *)
  checkpoint_order : list string;
  file_ok : string -> bool
}.

Section Periodic.

(** [f"{x:.1f}"] *)
Variable format_1f : Q -> string.

(** [ErrorHandler.periodic_health_check(client, active_simulations)] when
    no other [handle_error] call runs meanwhile.  [check_carla_connection],
    [check_resource_usage] and [handle_error] catch their own errors; what
    can leave the [try] block is the [OverflowError] of a cutoff
    computation and the [OSError] of the cleanup.  The [except] clause only
    logs it: the rest of the block is skipped, and the changes made before
    the exception stay. *)
Definition periodic_health_check (eh : ErrorHandler) (m : HealthMetrics) (i : CheckInputs)
    : ErrorHandler * HealthMetrics :=
  let (ok, m1) := check_carla_connection (server_responds i) m in
  let eh1 := if ok then eh
             else snd (handle_error eh "system" CARLA_CRASH "CARLA server connection lost"
                                    empty_context (t_crash i) (restart_connects i)) in
  let (resources, m2) := check_resource_usage (probe i) m1 in
  let mem := resources_memory resources in
  let eh2 := if Qgtb mem 90
             then snd (handle_error eh1 "system" MEMORY_EXHAUSTION
                                    ("Memory usage: " +:+ format_1f mem +:+ "%")
                                    empty_context (t_memory i) (restart_connects i))
             else eh1 in
  match get_error_history (state_manager eh2) None 1 (t_history i) with
  | None => (eh2, m2)
  | Some error_history =>
      match calculate_error_rate error_history (t_rate i) m2 with
      | (None, m3) => (eh2, m3)
      | (Some _, m3) =>
          (* [if error_rate > 0.5]: a warning only *)
          let (_, sm) := cleanup_old_checkpoints (file_ok i) (checkpoint_order i)
                           (state_manager eh2) 24 (t_cleanup i) in
          (set_state_manager eh2 sm, m3)
      end
  end.

End Periodic.

End Health.

(* ================================================================== *)
(** * Theorems *)
(* ================================================================== *)

Module CircuitBreakerFacts.
Import CircuitBreaker.

Lemma new_breaker_inv thr tmo : cb_inv (new_breaker thr tmo).
Proof. unfold cb_inv; simpl; congruence. Qed.

Lemma call_enter_inv cb t e cb' :
  cb_inv cb -> call_enter cb t = (e, cb') -> cb_inv cb'.
Proof.
  unfold cb_inv, call_enter; intros Hinv Hc.
  destruct (BreakerState_eqb (state cb) open_) eqn:Eo.
  - destruct (_should_attempt_reset cb t); inversion Hc; subst; simpl; auto.
    destruct (state cb); simpl in Eo; try discriminate; intros _; apply Hinv; congruence.
  - inversion Hc; subst; auto.
Qed.

Lemma call_exit_inv cb t ok : cb_inv cb -> cb_inv (call_exit cb t ok).
Proof.
  unfold cb_inv, call_exit, _on_success, _on_failure; intros Hinv.
  destruct ok; simpl.
  - congruence.
  - destruct (Z.leb_spec (failure_threshold cb) (failure_count cb + 1)); intros Hs.
    + lia.
    + specialize (Hinv Hs); lia.
Qed.

Lemma call_inv cb t0 t1 ok : cb_inv cb -> cb_inv (snd (call cb t0 t1 ok)).
Proof.
  unfold call; intros H.
  destruct (call_enter cb t0) as [[] cb'] eqn:E; simpl.
  - eapply call_enter_inv; eauto.
  - apply call_exit_inv; eapply call_enter_inv; eauto.
Qed.

(** A call on a closed breaker is always admitted. *)
Lemma call_closed cb t0 t1 ok :
  state cb = closed -> call cb t0 t1 ok = (if ok then Returned else Raised, call_exit cb t1 ok).
Proof. intros Hs; unfold call, call_enter; rewrite Hs; reflexivity. Qed.

(** A failed call on a closed breaker below the threshold keeps it closed. *)
Lemma fail_calls_closed ts cb :
  state cb = closed ->
  failure_count cb + Z.of_nat (length ts) < failure_threshold cb ->
  state (fail_calls cb ts) = closed /\
  failure_count (fail_calls cb ts) = failure_count cb + Z.of_nat (length ts) /\
  failure_threshold (fail_calls cb ts) = failure_threshold cb /\
  timeout (fail_calls cb ts) = timeout cb.
Proof.
  revert cb; induction ts as [|t ts IH]; intros cb Hs Hc; simpl in *.
  - repeat split; auto; lia.
  - rewrite call_closed by exact Hs; simpl.
    unfold _on_failure; simpl.
    destruct (Z.leb_spec (failure_threshold cb) (failure_count cb + 1)); [lia|].
    edestruct (IH (mkCB (failure_threshold cb) (timeout cb) (failure_count cb + 1)
                   (Some t) (state cb))) as (H1 & H2 & H3 & H4);
      [simpl; exact Hs | simpl; lia |].
    simpl in H2, H3, H4.
    split; [exact H1 | split; [rewrite H2; lia | split; [exact H3 | exact H4]]].
Qed.

Lemma fail_calls_open ts t cb :
  state cb = closed -> 0 <= failure_count cb ->
  failure_count cb + Z.of_nat (length (ts ++ [t])) = failure_threshold cb ->
  state (fail_calls cb (ts ++ [t])) = open_ /\
  last_failure_time (fail_calls cb (ts ++ [t])) = Some t /\
  timeout (fail_calls cb (ts ++ [t])) = timeout cb.
Proof.
  intros Hs Hn Hc. rewrite length_app in Hc; simpl in Hc.
  destruct (fail_calls_closed ts cb Hs) as (H1 & H2 & H3 & H4); [lia|].
  assert (E : forall l c, fail_calls c (l ++ [t]) = fail_calls (fail_calls c l) [t]).
  { induction l; intros; simpl; auto. }
  rewrite E. set (c := fail_calls cb ts) in *. simpl.
  rewrite call_closed by exact H1; simpl. unfold _on_failure; simpl.
  destruct (Z.leb_spec (failure_threshold c) (failure_count c + 1)); [|lia].
  repeat split; auto.
Qed.

Lemma cb_reachable_inv thr tmo cb : cb_reachable thr tmo cb -> cb_inv cb.
Proof.
  induction 1.
  - apply new_breaker_inv.
  - eapply call_enter_inv; eauto.
  - apply call_exit_inv; auto.
Qed.

(** C3 (counterexample): half-open admits more than one trial.  Breaker
    [CircuitBreaker(2, 60)] fails at t=0 and t=1 and opens; at t=61 a call
    is admitted as the trial and, while its [func] is still awaited, a
    second call at t=61 is admitted too. *)
Lemma C3_second_trial_admitted :
  let b1 := fail_calls (new_breaker 2 60) [0; 1] in
  state b1 = open_ /\
  call_enter b1 61 = (Proceed, with_state b1 half_open) /\
  call_enter (with_state b1 half_open) 61 = (Proceed, with_state b1 half_open).
Proof. vm_compute. repeat split. Qed.

(** C3: the transition rules of the breaker as the code implements them.
    (1) After [failure_threshold] failed calls on a new breaker it is open,
    and a call made before [timeout] has passed since the last failure is
    rejected whatever [func] would do ([func] is not invoked).
    (2) An open breaker whose cooldown has elapsed admits the call and
    moves to half-open.  (3) A half-open breaker admits every call that
    arrives.  (4) A successful call, in any state in which it is admitted,
    sets the counter to 0 and the state to closed.  (5) In any reachable
    state, a failed call finishing while half-open moves the breaker back to
    open with the failure time set to the finishing time. *)
Theorem C3_breaker_rules :
  (forall thr tmo ts t, 1 <= thr -> Z.of_nat (length (ts ++ [t])) = thr ->
     let cb := fail_calls (new_breaker thr tmo) (ts ++ [t]) in
     state cb = open_ /\
     forall t0 t1 ok, t0 - t < tmo -> call cb t0 t1 ok = (CircuitOpen, cb)) /\
  (forall cb t t0, state cb = open_ -> last_failure_time cb = Some t ->
     timeout cb <= t0 - t -> call_enter cb t0 = (Proceed, with_state cb half_open)) /\
  (forall cb t0, state cb = half_open -> call_enter cb t0 = (Proceed, cb)) /\
  (forall cb t0 t1 cb1, call_enter cb t0 = (Proceed, cb1) ->
     call cb t0 t1 true = (Returned, _on_success cb1) /\
     failure_count (_on_success cb1) = 0 /\ state (_on_success cb1) = closed) /\
  (forall thr tmo cb t1, cb_reachable thr tmo cb -> state cb = half_open ->
     state (call_exit cb t1 false) = open_ /\
     last_failure_time (call_exit cb t1 false) = Some t1).
Proof.
  split; [|split; [|split; [|split]]].
  - intros thr tmo ts t Hthr Hlen cb.
    destruct (fail_calls_open ts t (new_breaker thr tmo)) as (Ho & Hl & Ht);
      simpl; auto; try lia.
    split; [exact Ho|].
    intros t0 t1 ok Hlt. unfold call, call_enter.
    fold cb in Ho, Hl, Ht. rewrite Ho; simpl.
    unfold _should_attempt_reset; rewrite Hl, Ht; simpl.
    destruct (Z.leb_spec tmo (t0 - t)); [lia|reflexivity].
  - intros cb t t0 Hs Hl Ht. unfold call_enter, _should_attempt_reset.
    rewrite Hs, Hl; simpl.
    destruct (Z.leb_spec (timeout cb) (t0 - t)); [reflexivity|lia].
  - intros cb t0 Hs. unfold call_enter; rewrite Hs; reflexivity.
  - intros cb t0 t1 cb1 He. unfold call; rewrite He. auto.
  - intros thr tmo cb t1 Hr Hs.
    pose proof (cb_reachable_inv _ _ _ Hr) as Hinv. unfold cb_inv in Hinv.
    unfold call_exit, _on_failure; simpl.
    destruct (Z.leb_spec (failure_threshold cb) (failure_count cb + 1)).
    + auto.
    + rewrite Hs in Hinv. specialize (Hinv ltac:(discriminate)). lia.
Qed.

End CircuitBreakerFacts.

Module CheckpointFacts.
Import StateMgr.

Lemma checkpoint_transform_dict sim now t wd :
  checkpoint_transform (mkCheckpoint sim now (transform_dict t) wd) = Some t.
Proof. destruct t as [[x y z] [p yw r]]. reflexivity. Qed.

Lemma checkpoint_weather_dict sim now vt p :
  checkpoint_weather (mkCheckpoint sim now vt (weather_dict p)) = Some p.
Proof. destruct p. reflexivity. Qed.

(** C10: restoring an id with no stored checkpoint returns [None] and
    leaves the world as it was ([restore_checkpoint] never writes the
    store); whenever restore returns a vehicle, it is a newly spawned actor
    placed at exactly the transform decoded from the checkpoint stored for
    that id; and after [create_checkpoint] recorded a vehicle's pose, a
    restore in a world that accepts that spawn point re-creates a vehicle of
    the given blueprint at exactly that pose. *)
Theorem C10_restore_checkpoint :
  (forall sm sim w bp, checkpoints sm !! sim = None ->
     restore_checkpoint sm sim w bp = (None, w)) /\
  (forall sm sim w bp v w', restore_checkpoint sm sim w bp = (Some v, w') ->
     exists cp, checkpoints sm !! sim = Some cp /\
                checkpoint_transform cp = Some (actor_transform v) /\
                actors w' = v :: actors w) /\
  (forall sm sim vehicle w0 now w bp,
     spawn_blocked w (actor_transform vehicle) = false ->
     exists v w', restore_checkpoint (create_checkpoint sm sim vehicle w0 now) sim w bp = (Some v, w')
                  /\ actor_transform v = actor_transform vehicle /\ actor_blueprint v = bp
                  /\ actors w' = v :: actors w).
Proof.
  split; [|split].
  - intros sm sim w bp H. unfold restore_checkpoint. rewrite H. reflexivity.
  - intros sm sim w bp v w' H. unfold restore_checkpoint in H.
    destruct (checkpoints sm !! sim) as [cp|] eqn:Ecp; [|discriminate].
    exists cp. split; [reflexivity|].
    destruct (checkpoint_transform cp) as [t|] eqn:Et; [|discriminate].
    unfold spawn_actor in H.
    destruct (spawn_blocked w t); [discriminate|].
    destruct (checkpoint_weather cp) as [wp|]; inversion H; subst; simpl.
    split; reflexivity.
  - intros sm sim vehicle w0 now w bp Hb.
    unfold restore_checkpoint, create_checkpoint; simpl.
    rewrite lookup_insert_eq, checkpoint_transform_dict.
    unfold spawn_actor; rewrite Hb.
    rewrite checkpoint_weather_dict.
    eexists _, _; split; [reflexivity|]. simpl. auto.
Qed.

(** Witness: a vehicle of blueprint "vehicle.tesla.model3" checkpointed at
    (1, 2, 3) with rotation (0, 90, 0) is restored in an empty world. *)
Definition C10_pose : Transform := mkTransform (mkLocation 1 2 3) (mkRotation 0 90 0).
Definition C10_world : World := mkWorld [] (mkWeather 0 0 45 0) 7 (fun _ => false).

Lemma C10_restore_checkpoint_witness :
  checkpoints (mkStateManager ∅ []) !! "sim_a"%string = None /\
  spawn_blocked C10_world C10_pose = false /\
  restore_checkpoint (mkStateManager ∅ []) "sim_a" C10_world "vehicle.tesla.model3" = (None, C10_world) /\
  exists v w', restore_checkpoint
                 (create_checkpoint (mkStateManager ∅ []) "sim_a" (mkActor 3 "vehicle.tesla.model3" C10_pose)
                                    C10_world 100) "sim_a" C10_world "vehicle.tesla.model3" = (Some v, w')
               /\ actor_transform v = C10_pose /\ actor_blueprint v = "vehicle.tesla.model3"%string
               /\ actors w' = v :: actors C10_world.
Proof.
  destruct C10_restore_checkpoint as (H1 & _ & H3).
  split; [reflexivity|]. split; [reflexivity|]. split.
  - apply H1. reflexivity.
  - apply (H3 _ _ (mkActor 3 "vehicle.tesla.model3" C10_pose)). reflexivity.
Defined.

End CheckpointFacts.

Module RecoveryFacts.
Import StateMgr Recovery.

Lemma max_attempts_pos e : (1 <= max_attempts (recovery_strategies e))%nat.
Proof. destruct e; simpl; lia. Qed.

Lemma should_attempt_set_sm eh sm sim e :
  _should_attempt_recovery (set_state_manager eh sm) sim e = _should_attempt_recovery eh sim e.
Proof. reflexivity. Qed.

Lemma should_attempt_true eh sim e :
  _should_attempt_recovery eh sim e = true ->
  (attempts eh sim e < max_attempts (recovery_strategies e))%nat.
Proof.
  unfold _should_attempt_recovery, attempts.
  destruct (recovery_attempts eh !! sim) as [m|]; simpl.
  - intros H. apply Nat.ltb_lt in H. exact H.
  - intros _. pose proof (max_attempts_pos e). lia.
Qed.

Lemma should_attempt_false eh sim e :
  (max_attempts (recovery_strategies e) <= attempts eh sim e)%nat ->
  _should_attempt_recovery eh sim e = false.
Proof.
  intros H. destruct (_should_attempt_recovery eh sim e) eqn:E; [|reflexivity].
  apply should_attempt_true in E. lia.
Qed.

Lemma attempts_increment eh sim e sim' e' :
  attempts (_increment_recovery_attempt eh sim e) sim' e' =
  (if decide (sim' = sim /\ e' = e) then S (attempts eh sim e) else attempts eh sim' e').
Proof.
  unfold attempts, _increment_recovery_attempt; simpl.
  destruct (decide (sim' = sim /\ e' = e)) as [[-> ->]|Hne].
  - rewrite lookup_insert_eq; simpl. rewrite lookup_insert_eq; simpl.
    destruct (recovery_attempts eh !! sim); reflexivity.
  - destruct (decide (sim' = sim)) as [->|Hs].
    + rewrite lookup_insert_eq; simpl.
      rewrite lookup_insert_ne by (intros ->; apply Hne; auto).
      destruct (recovery_attempts eh !! sim); simpl; auto.
    + rewrite lookup_insert_ne by congruence. reflexivity.
Qed.

Lemma handle_error_begin_attempts eh sim e msg ctx now r eh' :
  handle_error_begin eh sim e msg ctx now = (r, eh') ->
  recovery_attempts eh' = recovery_attempts eh \/
  (_should_attempt_recovery eh sim e = true /\
   recovery_attempts eh' = recovery_attempts (_increment_recovery_attempt eh sim e)).
Proof.
  unfold handle_error_begin. rewrite should_attempt_set_sm.
  destruct (_should_attempt_recovery eh sim e) eqn:Es; simpl.
  - destruct (strategy_start _ sim _ ctx); intros H; inversion H; subst; right; auto.
  - intros H; inversion H; subst; left; reflexivity.
Qed.

Lemma handle_error_resume_attempts eh p c :
  recovery_attempts (snd (handle_error_resume eh p c)) = recovery_attempts eh.
Proof.
  unfold handle_error_resume, strategy_finish.
  destruct (strategy (p_action p)); try destruct c; try destruct (checkpoints _ !! _); reflexivity.
Qed.

Definition attempts_bounded (eh : ErrorHandler) : Prop :=
  forall sim e, (attempts eh sim e <= max_attempts (recovery_strategies e))%nat.

Lemma eh_reachable_bounded eh : eh_reachable eh -> attempts_bounded eh.
Proof.
  induction 1 as [sm|eh sim e msg ctx now r eh' Hr IH Hb|eh p c Hr IH|eh sm Hr IH];
    intros sim' e'.
  - unfold attempts; simpl. rewrite lookup_empty; simpl; lia.
  - destruct (handle_error_begin_attempts _ _ _ _ _ _ _ _ Hb) as [Ha|[Hs Ha]];
      unfold attempts in *; rewrite Ha.
    + apply IH.
    + pose proof (attempts_increment eh sim e sim' e') as Hi. unfold attempts in Hi.
      rewrite Hi. destruct (decide (sim' = sim /\ e' = e)) as [[-> ->]|_].
      * apply should_attempt_true in Hs. unfold attempts in Hs. lia.
      * apply IH.
  - unfold attempts; rewrite handle_error_resume_attempts. apply IH.
  - apply IH.
Qed.

(** C4: in every reachable handler state the recovery-attempt counter of
    each (simulation id, error type) pair is at most that type's
    [max_attempts], and a [handle_error] call for a pair whose counter has
    reached [max_attempts] returns [False] at once: no strategy is started
    and the counters are unchanged. *)
Theorem C4_recovery_budget :
  forall eh, eh_reachable eh ->
  (forall sim e, (attempts eh sim e <= max_attempts (recovery_strategies e))%nat) /\
  (forall sim e msg ctx now,
     (max_attempts (recovery_strategies e) <= attempts eh sim e)%nat ->
     exists eh', handle_error_begin eh sim e msg ctx now = (HandleDone false, eh') /\
                 strategy_runs eh' = strategy_runs eh /\
                 recovery_attempts eh' = recovery_attempts eh /\
                 forall connected, handle_error eh sim e msg ctx now connected = (false, eh')).
Proof.
  intros eh Hr. split.
  - apply eh_reachable_bounded; exact Hr.
  - intros sim e msg ctx now Hge.
    pose proof (should_attempt_false eh sim e Hge) as Hs.
    unfold handle_error, handle_error_begin. rewrite should_attempt_set_sm, Hs; simpl.
    eexists; split; [reflexivity|]. repeat split.
Qed.

(** A handler after one memory exhaustion of ["sim_1"]: its only attempt
    (SCALE_DOWN, which finishes at once) is used up. *)
Definition exhausted_handler : ErrorHandler :=
  snd (handle_error_begin (new_error_handler (mkStateManager ∅ [])) "sim_1" MEMORY_EXHAUSTION
         "Memory usage: 95.0%" empty_context 0).

Lemma exhausted_handler_reachable : eh_reachable exhausted_handler.
Proof. unfold exhausted_handler. eapply eh_begin; [apply eh_new|apply surjective_pairing]. Qed.

(** C4 (witness): a second memory exhaustion of ["sim_1"] finds its
    budget used up; the call returns [False] without starting SCALE_DOWN
    again. *)
Lemma C4_recovery_budget_witness :
  eh_reachable exhausted_handler /\
  strategy_runs exhausted_handler = [("sim_1"%string, SCALE_DOWN)] /\
  (max_attempts (recovery_strategies MEMORY_EXHAUSTION)
     <= attempts exhausted_handler "sim_1" MEMORY_EXHAUSTION)%nat /\
  exists eh', handle_error_begin exhausted_handler "sim_1" MEMORY_EXHAUSTION "Memory usage: 97.0%"
                empty_context 60 = (HandleDone false, eh') /\
              strategy_runs eh' = strategy_runs exhausted_handler /\
              recovery_attempts eh' = recovery_attempts exhausted_handler /\
              forall connected, handle_error exhausted_handler "sim_1" MEMORY_EXHAUSTION
                                  "Memory usage: 97.0%" empty_context 60 connected = (false, eh').
Proof.
  pose proof exhausted_handler_reachable as Hr.
  assert (Hge : (max_attempts (recovery_strategies MEMORY_EXHAUSTION)
                   <= attempts exhausted_handler "sim_1" MEMORY_EXHAUSTION)%nat)
    by (vm_compute; lia).
  split; [exact Hr|]. split; [vm_compute; reflexivity|]. split; [exact Hge|].
  destruct (C4_recovery_budget exhausted_handler Hr) as (_ & H).
  exact (H "sim_1"%string MEMORY_EXHAUSTION "Memory usage: 97.0%"%string empty_context 60 Hge).
Defined.

Lemma update_last_app l r b : update_last (l ++ [r]) b = l ++ [mark_record r b].
Proof.
  induction l as [|x l IH]; [reflexivity|].
  simpl. rewrite IH. destruct l; reflexivity.
Qed.

(** When nothing interleaves, one [handle_error] call appends exactly one
    record, for its own error, and when a strategy was started that record
    carries the strategy's outcome. *)
Lemma handle_error_sequential_record eh sim e msg ctx now c b eh' :
  handle_error eh sim e msg ctx now c = (b, eh') ->
  exists r, error_history (state_manager eh') = error_history (state_manager eh) ++ [r] /\
    er_simulation_id r = sim /\ er_error_type r = error_type_value e /\
    er_error_message r = msg /\
    (strategy_runs eh' <> strategy_runs eh ->
     recovery_attempted r = true /\ recovery_successful r = b).
Proof.
  unfold handle_error, handle_error_begin. rewrite should_attempt_set_sm.
  destruct (_should_attempt_recovery eh sim e) eqn:Es; simpl.
  - destruct (strategy_start _ sim _ ctx) as [b0|] eqn:Est; simpl.
    + intros H; inversion H; subst; clear H. simpl.
      rewrite update_last_app. eexists; repeat split; reflexivity.
    + unfold handle_error_resume, strategy_finish; simpl.
      destruct (strategy (recovery_strategies e)); simpl;
        try (destruct c); try (destruct (checkpoints _ !! _));
        intros H; inversion H; subst; clear H; simpl;
        rewrite update_last_app; eexists; repeat split; reflexivity.
  - intros H; inversion H; subst; clear H. simpl.
    eexists; split; [reflexivity|]. simpl.
    split; [reflexivity|]. split; [reflexivity|]. split; [reflexivity|].
    intros Hne; congruence.
Qed.

Definition record_summary (r : ErrorRecord) : string * bool * bool :=
  (er_simulation_id r, recovery_attempted r, recovery_successful r).

(** C6 (code defect): two overlapping [handle_error] calls, as the service
    makes them ([periodic_health_check] and a [create_task] from a failed
    simulation creation).  Call A ("system", CARLA_CRASH, no context)
    appends its record and is suspended inside [_restart_carla_server];
    call B ("sim_1", SIMULATION_ERROR, context with only a stack trace)
    appends its record, its checkpoint restore fails and B returns
    [False]; then A's restart succeeds.  A writes its outcome onto
    [error_history[-1]], which is B's record: A's record is left with
    [recovery_attempted = False], and B's record reads
    "attempted, successful" although B's strategy failed. *)
Theorem C6_concurrent_outcome_misattributed :
  match handle_error_begin (new_error_handler (mkStateManager ∅ [])) "system" CARLA_CRASH
          "CARLA server connection lost" empty_context 0 with
  | (HandleAwait pA, ehA) =>
      match handle_error_begin ehA "sim_1" SIMULATION_ERROR "Failed to create simulation"
              (mkContext (Some "Failed to create simulation"%string) None None false) 1 with
      | (HandleDone bB, ehB) =>
          bB = false /\
          let (bA, ehC) := handle_error_resume ehB pA true in
          bA = true /\
          map record_summary (error_history (state_manager ehC)) =
            [("system"%string, false, false); ("sim_1"%string, true, true)]
      | _ => False
      end
  | _ => False
  end.
Proof. vm_compute. auto. Qed.

End RecoveryFacts.

Module RegistryFacts.
Import Registry.

(** C1 (counterexample): two runs of [execute_experiment_workflow] for
    "exp-1" overlap.  Both own a WorkflowState (locations 0 and 1), the map
    points to the second; when the first run finishes, its [finally] block
    deletes the entry although the second run is still going, so
    [cancel_workflow("exp-1")] no longer finds it. *)
Lemma C1_two_states_same_id :
  let '(rA, o1) := start_workflow new_orchestrator "exp-1" in
  let '(rB, o2) := start_workflow o1 "exp-1" in
  run_state rA <> run_state rB /\
  heap o2 !! run_state rA = Some "exp-1"%string /\
  heap o2 !! run_state rB = Some "exp-1"%string /\
  active_workflows o2 !! "exp-1"%string = Some (run_state rB) /\
  cancel_target (finish_workflow o2 rA) "exp-1" = None.
Proof. vm_compute. repeat split; discriminate. Qed.

Lemma orch_reachable_fresh o :
  orch_reachable o -> forall l, (next_loc o <= l)%nat -> heap o !! l = None.
Proof.
  induction 1 as [|o id Hr IH|o r Hr IH]; intros l Hl.
  - apply lookup_empty.
  - simpl in *. rewrite lookup_insert_ne by lia. apply IH. lia.
  - unfold finish_workflow in *. destruct (active_workflows o !! run_experiment_id r);
      simpl in *; apply IH; lia.
Qed.

(** C1 (as the code does it): in any reachable orchestrator, starting a
    run allocates a WorkflowState no one owned before and stores it under
    its id, replacing whatever entry was there, leaving the other ids
    alone; the [finally] block removes the id's entry on every outcome and
    leaves the other ids alone.  Two runs of the same id started one after
    the other each own a distinct WorkflowState, and the first one to finish
    removes the entry that points to the second one's state. *)
Theorem C1_registry_behaviour :
  forall o, orch_reachable o ->
  (forall id, let '(r, o') := start_workflow o id in
     heap o !! run_state r = None /\
     heap o' !! run_state r = Some id /\
     active_workflows o' !! id = Some (run_state r) /\
     (forall id', id' <> id -> active_workflows o' !! id' = active_workflows o !! id')) /\
  (forall r,
     active_workflows (finish_workflow o r) !! run_experiment_id r = None /\
     (forall id', id' <> run_experiment_id r ->
        active_workflows (finish_workflow o r) !! id' = active_workflows o !! id')) /\
  (forall id,
     let '(rA, o1) := start_workflow o id in
     let '(rB, o2) := start_workflow o1 id in
     run_state rA <> run_state rB /\
     heap o2 !! run_state rA = Some id /\
     heap o2 !! run_state rB = Some id /\
     active_workflows o2 !! id = Some (run_state rB) /\
     active_workflows (finish_workflow o2 rA) !! id = None).
Proof.
  intros o Hr. split; [|split].
  - intros id. simpl. split; [apply (orch_reachable_fresh o Hr); lia|].
    split; [apply lookup_insert_eq|]. split; [apply lookup_insert_eq|].
    intros id' Hne. apply lookup_insert_ne. congruence.
  - intros r. unfold finish_workflow.
    destruct (active_workflows o !! run_experiment_id r) eqn:E; simpl.
    + split; [apply lookup_delete_eq|]. intros id' Hne. apply lookup_delete_ne. congruence.
    + split; [exact E|]. auto.
  - intros id. simpl. split; [lia|].
    split; [rewrite lookup_insert_ne by lia; apply lookup_insert_eq|].
    split; [apply lookup_insert_eq|]. split; [apply lookup_insert_eq|].
    unfold finish_workflow; simpl. rewrite lookup_insert_eq. simpl.
    apply lookup_delete_eq.
Qed.

Lemma C1_registry_behaviour_witness :
  orch_reachable new_orchestrator /\
  active_workflows (finish_workflow (snd (start_workflow (snd (start_workflow new_orchestrator "exp-1"))
                                                         "exp-1"))
                                    (fst (start_workflow new_orchestrator "exp-1"))) !! "exp-1"%string = None.
Proof.
  split; [constructor|].
  destruct (C1_registry_behaviour new_orchestrator orch_new) as (_ & _ & H).
  specialize (H "exp-1"%string). simpl in H. simpl. apply H.
Defined.

End RegistryFacts.

Module OrchestratorFacts.
Import Orchestrator.

Lemma phases_app l1 l2 : phases (l1 ++ l2) = phases l1 ++ phases l2.
Proof. induction l1 as [|[] l1 IH]; simpl; rewrite ?IH; reflexivity. Qed.

Lemma calls_app l1 l2 : calls (l1 ++ l2) = calls l1 ++ calls l2.
Proof. induction l1 as [|[] l1 IH]; simpl; rewrite ?IH; reflexivity. Qed.

Section PhaseShape.

Variable env : Env.

(** A computation that enters no phase, whatever its outcome. *)
Definition pfree {A} (m : M A) : Prop :=
  forall w, phases (w_trace (snd (m w))) = phases (w_trace w).

Lemma pfree_ret {A} (a : A) : pfree (mret a).
Proof. intros w. reflexivity. Qed.

Lemma pfree_raise {A} e : pfree (A:=A) (raise e).
Proof. intros w. reflexivity. Qed.

Lemma pfree_out_of_fuel {A} : pfree (A:=A) out_of_fuel.
Proof. intros w. reflexivity. Qed.

Lemma pfree_bind {A B} (m : M A) (k : A -> M B) :
  pfree m -> (forall a, pfree (k a)) -> pfree (m ≫= k).
Proof.
  intros Hm Hk w. unfold mbind, M_bind. specialize (Hm w).
  destruct (m w) as [[a|e|] w1]; simpl in *; rewrite ?Hk; assumption.
Qed.

Lemma pfree_try_except {A} (m : M A) h :
  pfree m -> (forall e, pfree (h e)) -> pfree (try_except m h).
Proof.
  intros Hm Hh w. unfold try_except. specialize (Hm w).
  destruct (m w) as [[a|e|] w1]; simpl in *; rewrite ?Hh; assumption.
Qed.

Lemma pfree_get_state : pfree get_state.
Proof. intros w. reflexivity. Qed.

Lemma pfree_modify_state f : pfree (modify_state f).
Proof. intros w. reflexivity. Qed.

Lemma pfree_log lvl msg : pfree (log lvl msg).
Proof. intros w. simpl. rewrite phases_app. simpl. apply app_nil_r. Qed.

Lemma pfree_ext c : pfree (ext env c).
Proof.
  intros w. unfold ext. destruct (respond env (w_step w) c); simpl;
    rewrite phases_app; simpl; apply app_nil_r.
Qed.

Lemma pfree_sleep ms : pfree (sleep env ms).
Proof. intros w. simpl. rewrite phases_app. simpl. apply app_nil_r. Qed.

Lemma pfree_utcnow : pfree (utcnow env).
Proof. intros w. reflexivity. Qed.

Lemma pfree_get_session_id r : pfree (get_session_id r).
Proof. intros w. destruct r; reflexivity. Qed.

Lemma pfree_status_is_healthy r : pfree (status_is_healthy r).
Proof. intros w. destruct r as [| |? [] ?]; reflexivity. Qed.

Lemma pfree_update_sim_metrics r : pfree (update_sim_metrics r).
Proof. intros w. destruct r; reflexivity. Qed.

Lemma pfree_reset_sim_metrics : pfree reset_sim_metrics.
Proof. intros w. reflexivity. Qed.

Lemma pfree_get_sim_metrics : pfree get_sim_metrics.
Proof. intros w. reflexivity. Qed.

Lemma pfree_register id cfg : pfree (register env id cfg).
Proof. intros w. reflexivity. Qed.

Lemma pfree_unregister : pfree unregister.
Proof. intros w. reflexivity. Qed.

Create HintDb pfree.
#[local] Hint Resolve pfree_ret pfree_raise pfree_out_of_fuel pfree_get_state
  pfree_modify_state pfree_log pfree_ext pfree_sleep pfree_utcnow pfree_get_session_id
  pfree_status_is_healthy pfree_update_sim_metrics pfree_reset_sim_metrics
  pfree_get_sim_metrics pfree_register pfree_unregister : pfree.

Ltac pfree_tac :=
  repeat match goal with
  | |- pfree (mbind _ _) => apply pfree_bind; [|intros]
  | |- pfree (try_except _ _) => apply pfree_try_except; [|intros]
  | |- pfree (match ?x with _ => _ end) => destruct x
  | |- pfree (let _ := _ in _) => cbv zeta
  | |- pfree _ => solve [eauto with pfree]
  end.

Lemma pfree_update_workflow_phase : pfree (_update_workflow_phase env).
Proof. unfold _update_workflow_phase. pfree_tac. Qed.
#[local] Hint Resolve pfree_update_workflow_phase : pfree.

Lemma pfree_handle_phase_error phase e : pfree (_handle_phase_error env phase e).
Proof. unfold _handle_phase_error. pfree_tac. Qed.
#[local] Hint Resolve pfree_handle_phase_error : pfree.

Lemma pfree_verify_readiness n service failure : pfree (verify_readiness env n service failure).
Proof. induction n; simpl; pfree_tac. Qed.
#[local] Hint Resolve pfree_verify_readiness : pfree.

Lemma pfree_simulation_step start st k : pfree (simulation_step env start st k).
Proof. unfold simulation_step. pfree_tac. Qed.
#[local] Hint Resolve pfree_simulation_step : pfree.

Lemma pfree_simulation_step_error k e : pfree (simulation_step_error k e).
Proof. unfold simulation_step_error. pfree_tac. Qed.
#[local] Hint Resolve pfree_simulation_step_error : pfree.

Lemma pfree_simulation_loop fuel start st k : pfree (simulation_loop env fuel start st k).
Proof. revert k. induction fuel; intros k; simpl; pfree_tac. Qed.
#[local] Hint Resolve pfree_simulation_loop : pfree.

Lemma pfree_run_simulation_loop : pfree (_run_simulation_loop env).
Proof. unfold _run_simulation_loop. pfree_tac. Qed.
#[local] Hint Resolve pfree_run_simulation_loop : pfree.

Lemma pfree_store_artifacts id arts : pfree (store_artifacts env id arts).
Proof. induction arts; simpl; pfree_tac. Qed.
#[local] Hint Resolve pfree_store_artifacts : pfree.

(** Entering a phase, then a phase-free computation. *)
Lemma set_phase_then p (k : M unit) :
  pfree k -> forall w, phases (w_trace (snd ((set_phase p;; k) w))) = phases (w_trace w) ++ [p].
Proof.
  intros Hk w. unfold mbind, M_bind at 1. simpl.
  rewrite Hk. simpl. rewrite phases_app. reflexivity.
Qed.

Lemma run_phase_phases p body :
  pfree body -> forall w, phases (w_trace (snd (run_phase env p body w))) = phases (w_trace w) ++ [p].
Proof. intros Hb. apply set_phase_then. pfree_tac. Qed.

Lemma initialization_phases w :
  phases (w_trace (snd (_execute_initialization_phase env w))) = phases (w_trace w) ++ [INITIALIZATION].
Proof. apply run_phase_phases. pfree_tac. Qed.

Lemma carla_setup_phases w :
  phases (w_trace (snd (_execute_carla_setup_phase env w))) = phases (w_trace w) ++ [CARLA_SETUP].
Proof. apply run_phase_phases. pfree_tac. Qed.

Lemma dreamer_setup_phases w :
  phases (w_trace (snd (_execute_dreamer_setup_phase env w))) = phases (w_trace w) ++ [DREAMER_SETUP].
Proof. apply run_phase_phases. pfree_tac. Qed.

Lemma simulation_phases w :
  phases (w_trace (snd (_execute_simulation_phase env w))) =
  phases (w_trace w) ++ [SIMULATION_EXECUTION].
Proof. apply run_phase_phases. pfree_tac. Qed.

Lemma result_processing_phases w :
  phases (w_trace (snd (_execute_result_processing_phase env w))) =
  phases (w_trace w) ++ [RESULT_PROCESSING].
Proof. apply run_phase_phases. pfree_tac. Qed.

Lemma cleanup_phases w :
  phases (w_trace (snd (_execute_cleanup_phase env w))) = phases (w_trace w) ++ [CLEANUP].
Proof. apply set_phase_then. pfree_tac. Qed.

(** The phases a computation enters: all of [ps] when it returns, a
    non-empty prefix of [ps] otherwise. *)
Definition shape (ps : list WorkflowPhase) (m : M unit) : Prop :=
  forall w, match m w with
  | (Ok _, w') => phases (w_trace w') = phases (w_trace w) ++ ps
  | (_, w') => exists j, (1 <= j <= length ps)%nat /\
                 phases (w_trace w') = phases (w_trace w) ++ take j ps
  end.

Lemma shape_cons p ps (m k : M unit) :
  (forall w, phases (w_trace (snd (m w))) = phases (w_trace w) ++ [p]) ->
  shape ps k -> shape (p :: ps) (m;; k).
Proof.
  intros Hm Hk w. unfold mbind, M_bind. specialize (Hm w).
  destruct (m w) as [[a|e|] w1]; simpl in Hm.
  - specialize (Hk w1). destruct (k w1) as [[b|e|] w2].
    + rewrite Hk, Hm, <- app_assoc. reflexivity.
    + destruct Hk as (j & Hj & Hk). exists (S j). simpl. split; [lia|].
      rewrite Hk, Hm, <- app_assoc. reflexivity.
    + destruct Hk as (j & Hj & Hk). exists (S j). simpl. split; [lia|].
      rewrite Hk, Hm, <- app_assoc. reflexivity.
  - exists 1%nat. simpl. split; [lia|]. exact Hm.
  - exists 1%nat. simpl. split; [lia|]. exact Hm.
Qed.

Lemma shape_last p (k : M unit) : pfree k -> shape [p] (set_phase p;; k).
Proof.
  intros Hk w. pose proof (set_phase_then p k Hk w) as H.
  destruct ((set_phase p;; k) w) as [[a|e|] w1]; simpl in H; [exact H| |];
    exists 1%nat; (split; [simpl; lia | exact H]).
Qed.

Lemma shape_log lvl msg ps k : shape ps k -> shape ps (log lvl msg;; k).
Proof.
  intros Hk w. unfold mbind, M_bind. simpl. specialize (Hk (emit (EvLog lvl msg) w)).
  simpl in Hk. rewrite phases_app, app_nil_r in Hk. exact Hk.
Qed.

Lemma execute_workflow_phases_shape : shape forward_phases (execute_workflow_phases env).
Proof.
  unfold execute_workflow_phases, forward_phases. apply shape_log.
  apply shape_cons; [apply initialization_phases|].
  apply shape_cons; [apply carla_setup_phases|].
  apply shape_cons; [apply dreamer_setup_phases|].
  apply shape_cons; [apply simulation_phases|].
  apply shape_cons; [apply result_processing_phases|].
  apply shape_cons; [apply cleanup_phases|].
  apply shape_last. pfree_tac.
Qed.

(** Enters nothing, or [CLEANUP] once. *)
Definition opt_cleanup (m : M unit) : Prop :=
  forall w, phases (w_trace (snd (m w))) = phases (w_trace w) \/
            phases (w_trace (snd (m w))) = phases (w_trace w) ++ [CLEANUP].

Lemma opt_cleanup_bind {A} (m : M A) (k : A -> M unit) :
  pfree m -> (forall a, opt_cleanup (k a)) -> opt_cleanup (m ≫= k).
Proof.
  intros Hm Hk w. unfold mbind, M_bind. specialize (Hm w).
  destruct (m w) as [[a|e|] w1]; simpl in *; [rewrite <- Hm; apply Hk|left; exact Hm|left; exact Hm].
Qed.

Lemma opt_cleanup_try h : (forall e, pfree (h e)) -> opt_cleanup (try_except (_execute_cleanup_phase env) h).
Proof.
  intros Hh w. right. unfold try_except. pose proof (cleanup_phases w) as H.
  destruct (_execute_cleanup_phase env w) as [[a|e|] w1]; simpl in *; rewrite ?Hh; exact H.
Qed.

(** After [FAILED], [_handle_workflow_failure] enters [CLEANUP] or nothing. *)
Lemma handle_workflow_failure_phases msg : opt_cleanup (_handle_workflow_failure env msg).
Proof.
  unfold _handle_workflow_failure.
  repeat (apply opt_cleanup_bind; [pfree_tac|intros]).
  apply opt_cleanup_try. intros. pfree_tac.
Qed.

End PhaseShape.


Lemma register_eq env id cfg w :
  register env id cfg w =
  (Ok tt, mkWorld (w_step w) (S (S (w_reads w))) (w_trace w) (new_workflow_state id cfg) true
                  (w_sim_metrics w)).
Proof. reflexivity. Qed.

(** The world in which the phases of a run start. *)
Definition registered_world (id : string) (cfg : ExperimentConfig) : World :=
  mkWorld 0 2 [] (new_workflow_state id cfg) true ∅.

(** [except] block of [execute_experiment_workflow], after it ran. *)
Lemma failure_branch_phases env e w :
  let w' := snd ((log ERROR ("Experiment workflow failed: " +:+ str e);;
                  set_phase FAILED;; _handle_workflow_failure env (str e)) w) in
  phases (w_trace w') = phases (w_trace w) ++ [FAILED] \/
  phases (w_trace w') = phases (w_trace w) ++ [FAILED; CLEANUP].
Proof.
  unfold mbind, M_bind. cbn -[_handle_workflow_failure].
  match goal with |- context [_handle_workflow_failure env ?m ?W] =>
    destruct (handle_workflow_failure_phases env m W) as [H|H]; rewrite H end;
  simpl; rewrite !phases_app; simpl; [left|right]; rewrite ?app_nil_r, <- ?app_assoc;
  reflexivity.
Qed.

(** The phases of a run, by outcome of its [try] block. *)
Lemma run_phase_cases env id cfg :
  let '(r, w) := run env id cfg in
  r = OutOfFuel \/
  (fst (execute_workflow_phases env (registered_world id cfg)) = Ok tt /\ r = Ok tt /\
   phases (w_trace w) = forward_phases) \/
  ((exists e, fst (execute_workflow_phases env (registered_world id cfg)) = Exc e) /\
   exists j, (1 <= j <= 7)%nat /\
     (phases (w_trace w) = take j forward_phases ++ [FAILED] \/
      phases (w_trace w) = take j forward_phases ++ [FAILED; CLEANUP])).
Proof.
  unfold run, execute_experiment_workflow. unfold mbind at 1, M_bind at 1.
  rewrite register_eq. cbv iota beta. unfold try_finally, try_except.
  change (mkWorld _ _ _ (new_workflow_state id cfg) true _) with (registered_world id cfg).
  pose proof (execute_workflow_phases_shape env (registered_world id cfg)) as Hs.
  destruct (execute_workflow_phases env (registered_world id cfg)) as [[[]|e|] w1] eqn:E.
  - right; left. simpl in Hs |- *. auto.
  - destruct Hs as (j & Hj & Hs). simpl in Hs.
    pose proof (failure_branch_phases env e w1) as Hf. simpl in Hf.
    revert Hf. generalize ((log ERROR ("Experiment workflow failed: " +:+ str e);;
                  set_phase FAILED;; _handle_workflow_failure env (str e)) w1).
    intros [[[]|e'|] w2] Hf; simpl in Hf |- *; try (left; reflexivity);
      right; right; (split; [exists e; reflexivity|]);
      exists j; (split; [simpl in Hj; lia|rewrite <- Hs; exact Hf]).
  - left. reflexivity.
Qed.

(** One run of [_handle_phase_error]. *)
Lemma handle_phase_error_eq env phase e w :
  let s := w_state w in
  let msg := ("Error in " +:+ phase +:+ " phase: " +:+ str e)%string in
  let retry := retry_count s <? max_retries env in
  let n_write := (if retry then S (S (w_step w)) else S (w_step w)) in
  let '(r, w') := _handle_phase_error env phase e w in
  error_count (w_state w') = error_count s + 1 /\
  (r = Ok tt \/ exists m, r = Exc (Exception_ m)) /\
  (r = Ok tt <->
     (forall m, respond env (w_step w)
                  (publish_experiment_event (experiment_id s) "workflow_phase_error") <> RRaise m) /\
     (forall m, respond env n_write (update_experiment_result (experiment_id s) false msg)
                  <> RRaise m)) /\
  (r = Ok tt ->
     retry_count (w_state w') = (if retry then retry_count s + 1 else retry_count s) /\
     w_trace w' = w_trace w ++
       [EvLog ERROR msg; EvCall (publish_experiment_event (experiment_id s) "workflow_phase_error")] ++
       (if retry then [EvLog INFO "Attempting retry"; EvSleep (retry_delay env * 1000)] else []) ++
       [EvCall (update_experiment_result (experiment_id s) false msg)]).
Proof.
  cbv zeta. unfold _handle_phase_error.
  cbv [mbind M_bind modify_state log get_state emit mret M_ret ext suspend sleep].
  cbn [w_step w_reads w_trace w_state w_registered w_sim_metrics incr_error_count error_count
       retry_count experiment_id set_cancel_flag incr_retry_count].
  destruct (respond env (w_step w) _) as [m1| |? ? ?] eqn:E1;
  cbn [w_step w_reads w_trace w_state w_registered w_sim_metrics incr_error_count error_count
       retry_count experiment_id set_cancel_flag incr_retry_count].
  1:{ split; [reflexivity|]. split; [eauto|]. split; [|discriminate].
       split; [discriminate|]. intros [H _]. exfalso. eapply H. reflexivity. }
  all: destruct (retry_count (w_state w) <? max_retries env) eqn:Er;
    cbn [w_step w_reads w_trace w_state w_registered w_sim_metrics incr_error_count error_count
       retry_count experiment_id set_cancel_flag incr_retry_count];
    (destruct (respond env _ (update_experiment_result _ false _)) as [m2| |? ? ?] eqn:E2;
     cbn [w_step w_reads w_trace w_state w_registered w_sim_metrics incr_error_count error_count
       retry_count experiment_id set_cancel_flag incr_retry_count];
     [split; [reflexivity|]; split; [eauto|]; split; [|discriminate];
      split; [discriminate|]; intros [_ H]; exfalso; eapply H; reflexivity
     |..]).
    all: split; [reflexivity|]; split; [auto|]; split;
      [split; [intros _; split; intros m Hm; congruence|auto]|].
    all: intros _; split; [reflexivity|]; rewrite <- !app_assoc; reflexivity.
Qed.

(** ** C2 *)

(** C2: a phase error is never retried.  [_handle_phase_error]
    increments [error_count], logs the error and publishes
    [workflow_phase_error]; only while [retry_count < max_retries] does it
    increment [retry_count] and then sleep [retry_delay] seconds; it
    records the error with [update_experiment_result]; it consults no
    recovery strategy, and it returns normally exactly when the
    publication and that write do not raise (otherwise it raises their
    error).  The phase then re-raises, and whatever the collaborators do,
    a terminated run enters the phases in the forward order, each at most
    once, until [FAILED]; after [FAILED] only [CLEANUP] is entered; no
    phase is entered again before [FAILED]. *)
Theorem C2_phase_sequence env id cfg :
  (forall phase e w,
    let s := w_state w in
    let msg := ("Error in " +:+ phase +:+ " phase: " +:+ str e)%string in
    let retry := retry_count s <? max_retries env in
    let n_write := (if retry then S (S (w_step w)) else S (w_step w)) in
    let '(r, w') := _handle_phase_error env phase e w in
    error_count (w_state w') = error_count s + 1 /\
    (r = Ok tt \/ exists m, r = Exc (Exception_ m)) /\
    (r = Ok tt <->
       (forall m, respond env (w_step w)
                    (publish_experiment_event (experiment_id s) "workflow_phase_error") <> RRaise m) /\
       (forall m, respond env n_write (update_experiment_result (experiment_id s) false msg)
                    <> RRaise m)) /\
    (r = Ok tt ->
       retry_count (w_state w') = (if retry then retry_count s + 1 else retry_count s) /\
       w_trace w' = w_trace w ++
         [EvLog ERROR msg; EvCall (publish_experiment_event (experiment_id s) "workflow_phase_error")] ++
         (if retry then [EvLog INFO "Attempting retry"; EvSleep (retry_delay env * 1000)] else []) ++
         [EvCall (update_experiment_result (experiment_id s) false msg)])) /\
  (let '(r, w) := run env id cfg in
   r = OutOfFuel \/
   phases (w_trace w) = forward_phases \/
   (exists j, (1 <= j <= 7)%nat /\
      (phases (w_trace w) = take j forward_phases ++ [FAILED] \/
       phases (w_trace w) = take j forward_phases ++ [FAILED; CLEANUP]))).
Proof.
  split; [intros phase e w; exact (handle_phase_error_eq env phase e w)|].
  pose proof (run_phase_cases env id cfg) as H.
  destruct (run env id cfg) as [r w].
  destruct H as [H|[(_ & _ & H)|(_ & H)]]; [left|right; left|right; right]; exact H.
Qed.

(** C2 (counterexample): [initialize_carla_simulation] raises while the
    retry budget is unused ([retry_count = 0 < max_retries = 3]): the
    handler bumps [retry_count] and sleeps, but the phase is not run again;
    the run goes to [FAILED] and cleanup. *)
Lemma C2_carla_error_not_retried :
  let '(r, w) := run Scenarios.carla_down_env "exp-1" Scenarios.valid_config in
  r = Ok tt /\
  phases (w_trace w) = [INITIALIZATION; CARLA_SETUP; FAILED; CLEANUP] /\
  retry_count (w_state w) = 1 /\
  Scenarios.count_calls Scenarios.is_initialize_carla (w_trace w) = 1%nat.
Proof. vm_compute. auto. Qed.

(** ** Preserved properties of the workflow state *)

Section StateStable.

Variable env : Env.
Variable Q : WorkflowState -> Prop.
Hypothesis HQ : forall b s, Q s -> Q (set_cancel_flag b s).

Definition sstable {A} (m : M A) : Prop :=
  forall w, Q (w_state w) -> Q (w_state (snd (m w))).

Lemma sstable_ret {A} (a : A) : sstable (mret a).
Proof. intros w H. exact H. Qed.
Lemma sstable_raise {A} e : sstable (A:=A) (raise e).
Proof. intros w H. exact H. Qed.
Lemma sstable_get_state : sstable get_state.
Proof. intros w H. exact H. Qed.
Lemma sstable_log lvl msg : sstable (log lvl msg).
Proof. intros w H. exact H. Qed.
Lemma sstable_utcnow : sstable (utcnow env).
Proof. intros w H. exact H. Qed.
Lemma sstable_update_sim_metrics r : sstable (update_sim_metrics r).
Proof. intros w H. destruct r; exact H. Qed.
Lemma sstable_ext c : sstable (ext env c).
Proof. intros w H. unfold ext. destruct (respond env (w_step w) c); apply HQ, H. Qed.
Lemma sstable_sleep ms : sstable (sleep env ms).
Proof. intros w H. apply HQ, H. Qed.
Lemma sstable_modify_state f : (forall s, Q s -> Q (f s)) -> sstable (modify_state f).
Proof. intros Hf w H. apply Hf, H. Qed.

Lemma sstable_bind {A B} (m : M A) (k : A -> M B) :
  sstable m -> (forall a, sstable (k a)) -> sstable (m ≫= k).
Proof.
  intros Hm Hk w H. unfold mbind, M_bind. specialize (Hm w H).
  destruct (m w) as [[a|e|] w1]; simpl in *; [apply Hk|..]; assumption.
Qed.

Lemma sstable_try_except {A} (m : M A) h :
  sstable m -> (forall e, sstable (h e)) -> sstable (try_except m h).
Proof.
  intros Hm Hh w H. unfold try_except. specialize (Hm w H).
  destruct (m w) as [[a|e|] w1]; simpl in *; [|apply Hh|]; assumption.
Qed.

Create HintDb sstable.
#[local] Hint Resolve sstable_ret sstable_raise sstable_get_state sstable_log sstable_utcnow
  sstable_update_sim_metrics sstable_ext sstable_sleep : sstable.

Ltac sstable_tac :=
  repeat match goal with
  | |- sstable (mbind _ _) => apply sstable_bind; [|intros]
  | |- sstable (try_except _ _) => apply sstable_try_except; [|intros]
  | |- sstable (match ?x with _ => _ end) => destruct x
  | |- sstable _ => solve [eauto with sstable]
  end.

Lemma sstable_simulation_step start st k : sstable (simulation_step env start st k).
Proof. unfold simulation_step. sstable_tac. Qed.

End StateStable.

(** A step of the loop body leaves [error_count] alone. *)
Lemma simulation_step_error_count env start st k w :
  error_count (w_state (snd (simulation_step env start st k w))) = error_count (w_state w).
Proof.
  apply (sstable_simulation_step env (fun s => error_count s = error_count (w_state w)));
    [intros b s Hs; exact Hs|reflexivity].
Qed.

(** A set cancellation flag stays set. *)
Lemma simulation_step_cancelled env start st k w :
  is_cancelled (w_state w) = true ->
  is_cancelled (w_state (snd (simulation_step env start st k w))) = true.
Proof.
  apply (sstable_simulation_step env (fun s => is_cancelled s = true)).
  intros b s Hs. simpl. rewrite Hs. reflexivity.
Qed.

(** The [except] block of the loop. *)
Lemma simulation_step_error_eq k e w :
  simulation_step_error k e w =
  (if 10 <? error_count (w_state w) + 1
   then Exc (Exception_ ("Too many simulation errors (" +:+ str_int (error_count (w_state w) + 1) +:+ ")"))
   else Ok k,
   mkWorld (w_step w) (w_reads w) (w_trace w ++ [EvLog ERROR ("Error in simulation step: " +:+ str e)])
     (incr_error_count (w_state w)) (w_registered w) (w_sim_metrics w)).
Proof.
  unfold simulation_step_error, mbind, M_bind. simpl.
  destruct (10 <? error_count (w_state w) + 1); reflexivity.
Qed.

Lemma bind_eq {A B} (m : M A) (k : A -> M B) w :
  (m ≫= k) w = match m w with
               | (Ok a, w1) => k a w1
               | (Exc e, w1) => (Exc e, w1)
               | (OutOfFuel, w1) => (OutOfFuel, w1)
               end.
Proof. reflexivity. Qed.

(** The values a computation may return. *)
Definition returns {A} (P : A -> Prop) (m : M A) : Prop :=
  forall w a w', m w = (Ok a, w') -> P a.

Lemma returns_ret {A} (P : A -> Prop) a : P a -> returns P (mret a).
Proof. intros Ha w b w' E. injection E as <- _. exact Ha. Qed.

Lemma returns_bind {A B} (P : B -> Prop) (m : M A) (k : A -> M B) :
  (forall a, returns P (k a)) -> returns P (m ≫= k).
Proof.
  intros Hk w b w' E. rewrite bind_eq in E.
  destruct (m w) as [[a|e|] w1]; [eapply Hk; exact E|discriminate|discriminate].
Qed.

Lemma simulation_step_returns env start st k :
  returns (fun k' => k' = k + 1) (simulation_step env start st k).
Proof. unfold simulation_step. repeat (apply returns_bind; intros). apply returns_ret. reflexivity. Qed.

Lemma simulation_loop_error_bound env fuel start st k w :
  error_count (w_state w) <= 10 ->
  match simulation_loop env fuel start st k w with
  | (Ok _, w') => error_count (w_state w') <= 10
  | (Exc e, w') => error_count (w_state w') = 11 /\
                   e = Exception_ "Too many simulation errors (11)"
  | (OutOfFuel, _) => True
  end.
Proof.
  revert k w. induction fuel as [|fuel IH]; intros k w Hw; [exact I|].
  cbn [simulation_loop]. rewrite bind_eq. cbn [utcnow].
  destruct (timedelta_seconds _ <? st).
  - rewrite bind_eq. cbn [get_state w_state]. destruct (is_cancelled (w_state w)).
    + exact Hw.
    + rewrite bind_eq. unfold try_except.
      set (w1 := mkWorld _ _ _ _ _ _).
      pose proof (simulation_step_error_count env start st k w1) as Hec.
      destruct (simulation_step env start st k w1) as [[k'|e|] w2] eqn:Es; simpl in Hec.
      * apply IH. lia.
      * rewrite simulation_step_error_eq.
        destruct (10 <? error_count (w_state w2) + 1) eqn:Ec.
        -- apply Z.ltb_lt in Ec. assert (Hc : error_count (w_state w2) + 1 = 11) by lia.
           simpl. rewrite Hc. split; reflexivity.
        -- apply Z.ltb_ge in Ec. apply IH. simpl. lia.
      * exact I.
  - exact Hw.
Qed.

(** ** Runs with healthy collaborators *)

(** Every call returns a dict, and a health check reports ["healthy"]. *)
Definition benign_response (c : ExtCall) (r : Resp) : Prop :=
  match r with
  | RDict _ st _ =>
      match c with
      | check_service_health _ => st = Some "healthy"%string
      | _ => True
      end
  | _ => False
  end.

Definition benign (env : Env) : Prop := forall n c, benign_response c (respond env n c).

(** The calls inside the [try] block of [_execute_cleanup_phase]. *)
Definition cleanup_call (c : ExtCall) : bool :=
  match c with
  | stop_carla_simulation _ | release_dreamer_session _ => true
  | publish_experiment_event _ event_type => String.eqb event_type "cleanup_completed"
  | _ => false
  end.

(** Every call outside the [try] block of the cleanup returns a dict, and
    a health check reports ["healthy"]; the calls inside it may do
    anything. *)
Definition benign_outside_cleanup (env : Env) : Prop :=
  forall n c, cleanup_call c = false -> benign_response c (respond env n c).

Lemma benign_outside_cleanup_of env : benign env -> benign_outside_cleanup env.
Proof. intros Hb n c _. apply Hb. Qed.

Lemma validate_none cfg :
  _validate_experiment_config cfg = None ->
  exists cc dc, carla_config cfg = Some cc /\ dreamer_config cfg = Some dc.
Proof.
  unfold _validate_experiment_config.
  destruct (bool_decide _); [discriminate|].
  destruct (carla_config cfg) as [cc|]; [|discriminate].
  destruct (dreamer_config cfg) as [dc|]; [|discriminate].
  intros _. eauto.
Qed.

Section Safe.

Variable env : Env.
Variable cfg : ExperimentConfig.
Hypothesis Hb : benign_outside_cleanup env.
Hypothesis Hv : _validate_experiment_config cfg = None.

Definition cfg_ok (w : World) : Prop := config (w_state w) = cfg.

(** Never raises, and returns a value satisfying [Q]. *)
Definition safe {A} (Q : A -> Prop) (m : M A) : Prop :=
  forall w, cfg_ok w ->
  match m w with
  | (Ok a, w') => cfg_ok w' /\ Q a
  | (Exc _, _) => False
  | (OutOfFuel, _) => True
  end.

Lemma safe_ret {A} (Q : A -> Prop) a : Q a -> safe Q (mret a).
Proof. intros Ha w Hw. simpl. auto. Qed.

Lemma safe_out_of_fuel {A} (Q : A -> Prop) : safe Q out_of_fuel.
Proof. intros w Hw. exact I. Qed.

Lemma safe_bind {A B} (Q1 : A -> Prop) (Q2 : B -> Prop) m k :
  safe Q1 m -> (forall a, Q1 a -> safe Q2 (k a)) -> safe Q2 (m ≫= k).
Proof.
  intros Hm Hk w Hw. rewrite bind_eq. specialize (Hm w Hw).
  destruct (m w) as [[a|e|] w1]; [|contradiction|exact I].
  destruct Hm as [H1 H2]. exact (Hk a H2 w1 H1).
Qed.

Lemma safe_try_except {A} (Q : A -> Prop) m h : safe Q m -> safe Q (try_except m h).
Proof.
  intros Hm w Hw. unfold try_except. specialize (Hm w Hw).
  destruct (m w) as [[a|e|] w1]; [exact Hm|contradiction|exact I].
Qed.

Lemma safe_get_state : safe (fun s => config s = cfg) get_state.
Proof. intros w Hw. simpl. auto. Qed.

Lemma safe_modify_state f : (forall s, config (f s) = config s) -> safe (fun _ => True) (modify_state f).
Proof. intros Hf w Hw. simpl. unfold cfg_ok. simpl. rewrite Hf. auto. Qed.

Lemma safe_log lvl msg : safe (fun _ => True) (log lvl msg).
Proof. intros w Hw. simpl. auto. Qed.

Lemma safe_set_phase p : safe (fun _ => True) (set_phase p).
Proof. intros w Hw. simpl. auto. Qed.

Lemma safe_utcnow : safe (fun _ => True) (utcnow env).
Proof. intros w Hw. simpl. auto. Qed.

Lemma safe_sleep ms : safe (fun _ => True) (sleep env ms).
Proof. intros w Hw. simpl. auto. Qed.

Lemma safe_ext c : cleanup_call c = false -> safe (benign_response c) (ext env c).
Proof.
  intros Hc w Hw. unfold ext. pose proof (Hb (w_step w) c Hc) as H.
  destruct (respond env (w_step w) c); [contradiction|contradiction|].
  split; [exact Hw|exact H].
Qed.

Lemma safe_get_session_id c r : benign_response c r -> safe (fun _ => True) (get_session_id r).
Proof. intros H w Hw. destruct r; [contradiction|contradiction|]. simpl. auto. Qed.

Lemma safe_status_is_healthy s r :
  benign_response (check_service_health s) r -> safe (fun b => b = true) (status_is_healthy r).
Proof. intros H w Hw. destruct r as [| |? st ?]; [contradiction|contradiction|]. simpl in H. subst st. simpl. auto. Qed.

Lemma safe_update_sim_metrics c r : benign_response c r -> safe (fun _ => True) (update_sim_metrics r).
Proof. intros H w Hw. destruct r; [contradiction|contradiction|]. simpl. auto. Qed.

Lemma safe_reset_sim_metrics : safe (fun _ => True) reset_sim_metrics.
Proof. intros w Hw. simpl. auto. Qed.

Lemma safe_get_sim_metrics : safe (fun _ => True) get_sim_metrics.
Proof. intros w Hw. simpl. auto. Qed.

Lemma safe_weaken {A} (Q : A -> Prop) m : safe Q m -> safe (fun _ => True) m.
Proof.
  intros Hm w Hw. specialize (Hm w Hw). destruct (m w) as [[a|e|] w1]; tauto.
Qed.

Create HintDb safe.
#[local] Hint Resolve safe_get_state safe_log safe_set_phase safe_utcnow safe_sleep
  safe_reset_sim_metrics safe_get_sim_metrics safe_out_of_fuel : safe.
#[local] Hint Extern 1 (safe _ (modify_state _)) => apply safe_modify_state; intros; reflexivity : safe.
#[local] Hint Extern 1 (safe _ (mret _)) =>
  first [apply (safe_ret (fun _ => True)); exact I | apply safe_ret; solve [auto]] : safe.
#[local] Hint Extern 1 (safe _ (ext _ _)) => apply safe_ext; reflexivity : safe.
#[local] Hint Extern 2 (safe _ (get_session_id _)) => eapply safe_get_session_id; eassumption : safe.
#[local] Hint Extern 2 (safe _ (update_sim_metrics _)) => eapply safe_update_sim_metrics; eassumption : safe.

Ltac safe_tac :=
  repeat match goal with
  | |- safe _ (mbind _ (match ?x with _ => _ end)) =>
      apply (safe_bind (fun _ => True)); [destruct x|intros ? ?]
  | |- safe _ (mbind _ _) => eapply safe_bind; [solve [eauto with safe] | intros ? ?]
  | |- safe _ (try_except _ _) => apply safe_try_except
  | |- safe _ _ => solve [eauto with safe]
  end.

Lemma safe_update_workflow_phase : safe (fun _ => True) (_update_workflow_phase env).
Proof. unfold _update_workflow_phase. safe_tac. Qed.
#[local] Hint Resolve safe_update_workflow_phase : safe.

Lemma safe_run_phase p body : safe (fun _ => True) body -> safe (fun _ => True) (run_phase env p body).
Proof. intros H. unfold run_phase. safe_tac. Qed.

Lemma safe_verify_readiness n service failure :
  safe (fun _ => True) (verify_readiness env (S n) service failure).
Proof.
  cbn [verify_readiness]. eapply safe_bind with (Q1 := fun b => b = true).
  - apply safe_try_except. eapply safe_bind; [apply safe_ext; reflexivity|intros h Hh].
    eapply safe_bind; [eapply safe_status_is_healthy; exact Hh|intros ok ->].
    apply safe_ret. reflexivity.
  - intros ready ->. apply safe_ret. exact I.
Qed.
#[local] Hint Resolve safe_verify_readiness : safe.

Lemma safe_initialization : safe (fun _ => True) (_execute_initialization_phase env).
Proof.
  apply safe_run_phase. eapply safe_bind; [apply safe_get_state|intros s Hs].
  rewrite Hs, Hv. safe_tac.
Qed.

Lemma safe_carla_setup : safe (fun _ => True) (_execute_carla_setup_phase env).
Proof.
  apply safe_run_phase. eapply safe_bind; [apply safe_get_state|intros s Hs].
  destruct (validate_none cfg Hv) as (cc & dc & Hc & Hd).
  rewrite Hs, Hc. unfold _verify_carla_readiness. safe_tac.
Qed.

Lemma safe_dreamer_setup : safe (fun _ => True) (_execute_dreamer_setup_phase env).
Proof.
  apply safe_run_phase. eapply safe_bind; [apply safe_get_state|intros s Hs].
  destruct (validate_none cfg Hv) as (cc & dc & Hc & Hd).
  rewrite Hs, Hd. unfold _verify_dreamer_readiness. safe_tac.
Qed.

Lemma safe_simulation_step start st k : safe (fun _ => True) (simulation_step env start st k).
Proof. unfold simulation_step. safe_tac. Qed.

Lemma safe_simulation_loop fuel start st k : safe (fun _ => True) (simulation_loop env fuel start st k).
Proof.
  revert k. induction fuel as [|fuel IH]; intros k; cbn [simulation_loop]; [apply safe_out_of_fuel|].
  eapply safe_bind; [apply safe_utcnow|intros t _].
  destruct (_ <? st); [|apply safe_ret; exact I].
  eapply safe_bind; [apply safe_get_state|intros s _].
  destruct (is_cancelled s); [safe_tac|].
  eapply safe_bind; [apply safe_try_except, safe_simulation_step|intros k' _]. apply IH.
Qed.
#[local] Hint Resolve safe_simulation_loop : safe.

Lemma safe_run_simulation_loop : safe (fun _ => True) (_run_simulation_loop env).
Proof.
  unfold _run_simulation_loop. eapply safe_bind; [apply safe_get_state|intros s Hs].
  destruct (validate_none cfg Hv) as (cc & dc & Hc & Hd). rewrite Hs, Hc. safe_tac.
Qed.
#[local] Hint Resolve safe_run_simulation_loop : safe.

Lemma safe_simulation : safe (fun _ => True) (_execute_simulation_phase env).
Proof. apply safe_run_phase. safe_tac. Qed.

Lemma safe_store_artifacts id arts : safe (fun _ => True) (store_artifacts env id arts).
Proof. induction arts; cbn [store_artifacts]; safe_tac. Qed.
#[local] Hint Resolve safe_store_artifacts : safe.

Lemma safe_result_processing : safe (fun _ => True) (_execute_result_processing_phase env).
Proof. apply safe_run_phase. safe_tac. Qed.

(** [try: m except Exception as e: logger.<lvl>(...)], where [m] keeps the
    configuration whatever it does. *)
Lemma safe_try_log (m : M unit) lvl f :
  sstable (fun s => config s = cfg) m -> safe (fun _ => True) (try_except m (fun e => log lvl (f e))).
Proof.
  intros Hm w Hw. unfold try_except. specialize (Hm w Hw).
  destruct (m w) as [[[]|e|] w1]; cbn in Hm |- *; [|unfold cfg_ok; cbn|]; auto.
Qed.

Ltac keeps_cfg :=
  repeat match goal with
  | |- sstable _ (mbind _ _) => apply sstable_bind; [|intros]
  | |- sstable _ (match ?x with _ => _ end) => destruct x
  | |- sstable _ (ext _ _) => apply sstable_ext; intros ? ? ?; assumption
  | |- sstable _ _ => first [apply sstable_ret | apply sstable_get_state | apply sstable_log]
  end.

Lemma safe_cleanup : safe (fun _ => True) (_execute_cleanup_phase env).
Proof.
  unfold _execute_cleanup_phase.
  eapply safe_bind; [apply safe_set_phase|intros ? _].
  eapply safe_bind; [apply safe_update_workflow_phase|intros ? _].
  apply safe_try_log. keeps_cfg.
Qed.

#[local] Hint Resolve safe_initialization safe_carla_setup safe_dreamer_setup safe_simulation
  safe_result_processing safe_cleanup : safe.

Lemma safe_execute_workflow_phases : safe (fun _ => True) (execute_workflow_phases env).
Proof. unfold execute_workflow_phases. safe_tac. Qed.

End Safe.

(** ** C7 *)

(** C7: in the simulation loop, a failed iteration increments
    [error_count] by one and leaves [step_count] unchanged (the loop goes
    on with the next iteration, the failed one is not repeated), unless the
    incremented count exceeds 10, in which case the loop raises
    [Exception("Too many simulation errors (n)")]; a successful iteration
    adds one step and leaves [error_count] alone.  Starting at most 10, the
    loop either returns with [error_count] at most 10 or raises exactly when
    the count reaches 11. *)
Theorem C7_loop_error_ceiling env fuel start st k w :
  error_count (w_state w) <= 10 ->
  (forall e w1, simulation_step env start st k w = (Exc e, w1) ->
     try_except (simulation_step env start st k) (simulation_step_error k) w =
     (if 10 <? error_count (w_state w) + 1
      then Exc (Exception_ ("Too many simulation errors (" +:+
                            str_int (error_count (w_state w) + 1) +:+ ")"))
      else Ok k,
      mkWorld (w_step w1) (w_reads w1)
        (w_trace w1 ++ [EvLog ERROR ("Error in simulation step: " +:+ str e)])
        (incr_error_count (w_state w1)) (w_registered w1) (w_sim_metrics w1))) /\
  (forall k' w1, simulation_step env start st k w = (Ok k', w1) ->
     k' = k + 1 /\ error_count (w_state w1) = error_count (w_state w)) /\
  match simulation_loop env fuel start st k w with
  | (Ok _, w') => error_count (w_state w') <= 10
  | (Exc e, w') => error_count (w_state w') = 11 /\
                   e = Exception_ "Too many simulation errors (11)"
  | (OutOfFuel, _) => True
  end.
Proof.
  intros Hw. split; [|split].
  - intros e w1 Es. pose proof (simulation_step_error_count env start st k w) as Hec.
    unfold try_except. rewrite Es in *. simpl in Hec.
    rewrite simulation_step_error_eq, Hec. reflexivity.
  - intros k' w1 Es. split.
    + exact (simulation_step_returns env start st k w k' w1 Es).
    + pose proof (simulation_step_error_count env start st k w) as Hec.
      rewrite Es in Hec. exact Hec.
  - apply simulation_loop_error_bound. exact Hw.
Qed.

(** C7 (witness): with [get_simulation_state] always failing, the loop
    aborts at the eleventh error. *)
Lemma C7_loop_error_ceiling_witness :
  error_count (w_state (registered_world "exp-1" Scenarios.valid_config)) <= 10 /\
  match simulation_loop Scenarios.sim_state_fails_env 100 0 3 0
          (registered_world "exp-1" Scenarios.valid_config) with
  | (Ok _, w') => error_count (w_state w') <= 10
  | (Exc e, w') => error_count (w_state w') = 11 /\
                   e = Exception_ "Too many simulation errors (11)"
  | (OutOfFuel, _) => True
  end.
Proof.
  assert (H : error_count (w_state (registered_world "exp-1" Scenarios.valid_config)) <= 10)
    by (simpl; lia).
  split; [exact H|].
  destruct (C7_loop_error_ceiling Scenarios.sim_state_fails_env 100 0 3 0
              (registered_world "exp-1" Scenarios.valid_config) H) as (_ & _ & H7).
  exact H7.
Defined.

(** ** C8 *)

(** C8: cancellation is cooperative.  Whatever the collaborators do, once
    the flag is set it survives the rest of the current iteration, and at
    the next iteration boundary the loop returns without issuing any call.
    The workflow does not stop there: with collaborators that answer (every
    call returns a dict and health checks report healthy) and a valid
    configuration, every terminated run, whatever the moments
    [cancel_workflow] is called at, goes through [RESULT_PROCESSING] and
    [CLEANUP] and ends [COMPLETED]; there is no cancelled terminal phase. *)
Theorem C8_cancellation env id cfg :
  (forall fuel start st k w, is_cancelled (w_state w) = true ->
     is_cancelled (w_state (snd (simulation_step env start st k w))) = true /\
     exists w', simulation_loop env (S fuel) start st k w = (Ok k, w') /\
                calls (w_trace w') = calls (w_trace w)) /\
  (benign env -> _validate_experiment_config cfg = None ->
   let '(r, w) := run env id cfg in
   r = OutOfFuel \/ (r = Ok tt /\ phases (w_trace w) = forward_phases)).
Proof.
  split.
  - intros fuel start st k w Hc. split; [apply simulation_step_cancelled, Hc|].
    cbn [simulation_loop]. rewrite bind_eq. cbn [utcnow].
    destruct (_ <? st).
    + rewrite bind_eq. cbn [get_state w_state]. rewrite Hc. simpl.
      eexists; split; [reflexivity|]. cbn [w_trace].
      transitivity (calls (w_trace w) ++ calls [EvLog INFO "Simulation cancelled"]);
        [apply calls_app|apply app_nil_r].
    + eexists; split; reflexivity.
  - intros Hb Hv.
    pose proof (run_phase_cases env id cfg) as H. destruct (run env id cfg) as [r w].
    pose proof (safe_execute_workflow_phases env cfg (benign_outside_cleanup_of env Hb) Hv
                  (registered_world id cfg) eq_refl) as Hs.
    destruct H as [H|[(_ & H1 & H2)|((e & He) & _)]]; [left; exact H|right; auto|].
    destruct (execute_workflow_phases env (registered_world id cfg)) as [[[]|e'|] w1];
      simpl in He; [discriminate|contradiction|discriminate].
Qed.

(** C8 (witness): a run cancelled during the first iteration. *)
Lemma C8_cancellation_witness :
  benign Scenarios.cancel_in_loop_env /\
  _validate_experiment_config Scenarios.valid_config = None /\
  (let '(r, w) := run Scenarios.cancel_in_loop_env "exp-1" Scenarios.valid_config in
   r = OutOfFuel \/ (r = Ok tt /\ phases (w_trace w) = forward_phases)).
Proof.
  assert (Hb : benign Scenarios.cancel_in_loop_env) by (intros n c; destruct c; reflexivity).
  assert (Hv : _validate_experiment_config Scenarios.valid_config = None) by reflexivity.
  split; [exact Hb|]. split; [exact Hv|].
  destruct (C8_cancellation Scenarios.cancel_in_loop_env "exp-1" Scenarios.valid_config)
    as (_ & H8).
  exact (H8 Hb Hv).
Defined.

(** C8 (counterexample): [cancel_workflow] runs during the first
    iteration; the loop stops after it, and the run ends [COMPLETED] with
    the flag set: no cancelled terminal phase. *)
Lemma C8_cancelled_run_completes :
  let '(r, w) := run Scenarios.cancel_in_loop_env "exp-1" Scenarios.valid_config in
  r = Ok tt /\ is_cancelled (w_state w) = true /\
  phases (w_trace w) = forward_phases /\
  Scenarios.count_calls Scenarios.is_get_simulation_state (w_trace w) = 1%nat.
Proof. vm_compute. auto. Qed.

(** ** Cleanup *)

(** A computation without a loop: it never runs out of fuel. *)
Definition finite {A} (m : M A) : Prop := forall w, fst (m w) <> OutOfFuel.

Lemma finite_ret {A} (a : A) : finite (mret a).
Proof. intros w. discriminate. Qed.
Lemma finite_raise {A} e : finite (A:=A) (raise e).
Proof. intros w. discriminate. Qed.
Lemma finite_get_state : finite get_state.
Proof. intros w. discriminate. Qed.
Lemma finite_log lvl msg : finite (log lvl msg).
Proof. intros w. discriminate. Qed.
Lemma finite_utcnow env : finite (utcnow env).
Proof. intros w. discriminate. Qed.
Lemma finite_set_phase p : finite (set_phase p).
Proof. intros w. discriminate. Qed.
Lemma finite_ext env c : finite (ext env c).
Proof. intros w. unfold ext. destruct (respond env (w_step w) c); discriminate. Qed.

Lemma finite_bind {A B} (m : M A) (k : A -> M B) :
  finite m -> (forall a, finite (k a)) -> finite (m ≫= k).
Proof.
  intros Hm Hk w. rewrite bind_eq. specialize (Hm w).
  destruct (m w) as [[a|e|] w1]; [apply Hk|discriminate|simpl in Hm; congruence].
Qed.

Lemma finite_try_except {A} (m : M A) h :
  finite m -> (forall e, finite (h e)) -> finite (try_except m h).
Proof.
  intros Hm Hh w. unfold try_except. specialize (Hm w).
  destruct (m w) as [[a|e|] w1]; [exact Hm|apply Hh|exact Hm].
Qed.

Create HintDb finite.
#[local] Hint Resolve finite_ret finite_raise finite_get_state finite_log finite_utcnow
  finite_set_phase finite_ext : finite.

Ltac finite_tac :=
  repeat match goal with
  | |- finite (mbind _ _) => apply finite_bind; [|intros]
  | |- finite (try_except _ _) => apply finite_try_except; [|intros]
  | |- finite (match ?x with _ => _ end) => destruct x
  | |- finite _ => solve [eauto with finite]
  end.

Lemma finite_update_workflow_phase env : finite (_update_workflow_phase env).
Proof. unfold _update_workflow_phase. finite_tac. Qed.
#[local] Hint Resolve finite_update_workflow_phase : finite.

Lemma finite_cleanup env : finite (_execute_cleanup_phase env).
Proof. unfold _execute_cleanup_phase. finite_tac. Qed.

(** [try: m except Exception as e: logger.<lvl>(...)] returns. *)
Lemma try_log_ok (m : M unit) lvl f w :
  finite m -> fst (try_except m (fun e => log lvl (f e)) w) = Ok tt.
Proof.
  intros Hm. specialize (Hm w). unfold try_except.
  destruct (m w) as [[[]|e|] w1]; [reflexivity|reflexivity|contradiction].
Qed.

(** The database write of [_update_workflow_phase] at [w]. *)
Lemma update_workflow_phase_ok env w :
  (forall msg, respond env (w_step w)
                 (update_experiment_phase (experiment_id (w_state w))
                    (phase_value (current_phase (w_state w)))) <> RRaise msg) ->
  exists w', _update_workflow_phase env w = (Ok tt, w') /\
             phases (w_trace w') = phases (w_trace w).
Proof.
  intros H. unfold _update_workflow_phase.
  cbv [mbind M_bind get_state ext utcnow mret M_ret].
  destruct (respond env (w_step w) _) eqn:E; [exfalso; eapply H; reflexivity| |];
    eexists; (split; [reflexivity|]); simpl; rewrite phases_app; apply app_nil_r.
Qed.

(** ** C9 *)

(** Reduces the record projections of a symbolic world. *)
Ltac trace_simpl :=
  cbn [w_step w_reads w_trace w_state w_registered w_sim_metrics set_current_phase
       experiment_id current_phase phase_value set_cancel_flag].

(** C9: inside [_execute_cleanup_phase], an error of stopping the
    simulation, releasing the model session or publishing the event is
    logged and swallowed: once the initial database write of the phase
    succeeds, the phase returns normally; when that write raises, the
    phase raises the same error after entering [CLEANUP].  After a
    failure, [_handle_workflow_failure] attempts cleanup exactly once and
    returns normally, provided its own database write and publication
    succeed; when either of them raises, it raises that error without
    entering [CLEANUP].  With collaborators that answer normally outside
    the cleanup's [try] block (its calls may raise or return anything)
    and a valid configuration, a terminated run ends [COMPLETED]. *)
Theorem C9_cleanup_errors_swallowed env id cfg :
  (forall w,
     (forall msg, respond env (w_step w)
                    (update_experiment_phase (experiment_id (w_state w)) "cleanup") <> RRaise msg) ->
     fst (_execute_cleanup_phase env w) = Ok tt) /\
  (forall w m,
     respond env (w_step w) (update_experiment_phase (experiment_id (w_state w)) "cleanup") = RRaise m ->
     let '(r, w') := _execute_cleanup_phase env w in
     r = Exc (Exception_ m) /\ phases (w_trace w') = phases (w_trace w) ++ [CLEANUP]) /\
  (forall msg w,
     (forall m, respond env (w_step w)
                  (update_experiment_result (experiment_id (w_state w)) true msg) <> RRaise m) ->
     (forall m, respond env (S (w_step w))
                  (publish_experiment_event (experiment_id (w_state w)) "workflow_failed") <> RRaise m) ->
     let '(r, w') := _handle_workflow_failure env msg w in
     r = Ok tt /\ phases (w_trace w') = phases (w_trace w) ++ [CLEANUP]) /\
  (forall msg w m,
     respond env (w_step w) (update_experiment_result (experiment_id (w_state w)) true msg) = RRaise m ->
     let '(r, w') := _handle_workflow_failure env msg w in
     r = Exc (Exception_ m) /\ phases (w_trace w') = phases (w_trace w) /\
     calls (w_trace w') =
       calls (w_trace w) ++ [update_experiment_result (experiment_id (w_state w)) true msg]) /\
  (forall msg w m,
     (forall m', respond env (w_step w)
                   (update_experiment_result (experiment_id (w_state w)) true msg) <> RRaise m') ->
     respond env (S (w_step w))
       (publish_experiment_event (experiment_id (w_state w)) "workflow_failed") = RRaise m ->
     let '(r, w') := _handle_workflow_failure env msg w in
     r = Exc (Exception_ m) /\ phases (w_trace w') = phases (w_trace w) /\
     calls (w_trace w') =
       calls (w_trace w) ++ [update_experiment_result (experiment_id (w_state w)) true msg;
                             publish_experiment_event (experiment_id (w_state w)) "workflow_failed"]) /\
  (benign_outside_cleanup env -> _validate_experiment_config cfg = None ->
   let '(r, w) := run env id cfg in
   r = OutOfFuel \/ (r = Ok tt /\ phases (w_trace w) = forward_phases)).
Proof.
  split; [|split; [|split; [|split; [|split]]]].
  - intros w H. unfold _execute_cleanup_phase. rewrite bind_eq.
    change (set_phase CLEANUP w) with (Ok tt, snd (set_phase CLEANUP w)). cbv iota beta.
    rewrite bind_eq.
    destruct (update_workflow_phase_ok env (snd (set_phase CLEANUP w)) H) as (w2 & E2 & _).
    rewrite E2. cbv iota beta. apply try_log_ok. finite_tac.
  - intros w m H. unfold _execute_cleanup_phase, _update_workflow_phase.
    cbv [mbind M_bind set_phase get_state ext emit suspend]. trace_simpl. rewrite H.
    trace_simpl. split; [reflexivity|]. rewrite !phases_app. cbn. rewrite app_nil_r. reflexivity.
  - intros msg w H1 H2. unfold _handle_workflow_failure.
    cbv [mbind M_bind log get_state utcnow ext mret M_ret emit suspend].
    cbn [w_step w_reads w_trace w_state w_registered w_sim_metrics].
    destruct (respond env (w_step w) _) eqn:E1; [exfalso; eapply H1; reflexivity| |];
    cbn [w_step w_reads w_trace w_state w_registered w_sim_metrics set_cancel_flag experiment_id];
    (destruct (respond env (S (w_step w)) _) eqn:E2; [exfalso; eapply H2; reflexivity| |]);
    cbn [w_step w_reads w_trace w_state w_registered w_sim_metrics];
    match goal with |- context [try_except (_execute_cleanup_phase env) ?h ?W] =>
      pose proof (cleanup_phases env W) as Hc; pose proof (finite_cleanup env W) as Hf;
      unfold try_except; destruct (_execute_cleanup_phase env W) as [[[]|e|] w3];
      [|simpl in Hf |- *|contradiction Hf; reflexivity] end;
    (split; [reflexivity|]); simpl in Hc |- *;
    rewrite ?phases_app in Hc |- *; rewrite Hc, ?phases_app; simpl; rewrite ?app_nil_r; reflexivity.
  - intros msg w m H. unfold _handle_workflow_failure.
    cbv [mbind M_bind log get_state utcnow ext mret M_ret emit suspend]. trace_simpl. rewrite H.
    trace_simpl. split; [reflexivity|].
    rewrite !phases_app, !calls_app. cbn. rewrite !app_nil_r. split; reflexivity.
  - intros msg w m H1 H2. unfold _handle_workflow_failure.
    cbv [mbind M_bind log get_state utcnow ext mret M_ret emit suspend]. trace_simpl.
    destruct (respond env (w_step w) _) eqn:E1; [exfalso; eapply H1; reflexivity| |];
      trace_simpl; rewrite H2; trace_simpl; (split; [reflexivity|]);
      rewrite !phases_app, !calls_app; cbn; rewrite !app_nil_r, <- ?app_assoc; split; reflexivity.
  - intros Hb Hv.
    pose proof (run_phase_cases env id cfg) as H. destruct (run env id cfg) as [r w].
    pose proof (safe_execute_workflow_phases env cfg Hb Hv (registered_world id cfg) eq_refl) as Hs.
    destruct H as [H|[(_ & H1 & H2)|((e & He) & _)]]; [left; exact H|right; auto|].
    destruct (execute_workflow_phases env (registered_world id cfg)) as [[[]|e'|] w1];
      simpl in He; [discriminate|contradiction|discriminate].
Qed.

(** C9 (counterexample): the database refuses the write of the phase
    [cleanup].  On the success path this error is outside the [try] of the
    cleanup phase: it escalates and the workflow fails after [CLEANUP],
    then enters [CLEANUP] again.  And when the database refuses the result
    write of a failure, the run raises and [CLEANUP] is never entered. *)
Lemma C9_cleanup_write_escalates :
  (let '(r, w) := run Scenarios.cleanup_write_fails_env "exp-1" Scenarios.valid_config in
   phases (w_trace w) =
     [INITIALIZATION; CARLA_SETUP; DREAMER_SETUP; SIMULATION_EXECUTION; RESULT_PROCESSING;
      CLEANUP; FAILED; CLEANUP] /\
   In (update_experiment_result "exp-1" true "Database unavailable") (calls (w_trace w))) /\
  (let '(r, w) := run Scenarios.failure_write_fails_env "exp-1" Scenarios.valid_config in
   r = Exc (Exception_ "Database unavailable") /\
   phases (w_trace w) = [INITIALIZATION; CARLA_SETUP; FAILED]).
Proof. vm_compute. split; [split; [reflexivity|]; simpl; tauto|split; reflexivity]. Qed.

(** ** C5 *)







End OrchestratorFacts.

Module BreakerInvariantFacts.
Import CircuitBreaker.

(** The counter lies below the threshold exactly while the breaker is
    closed. *)
Definition closed_below (thr : Z) (cb : CircuitBreaker) : Prop :=
  failure_threshold cb = thr /\
  (state cb = closed -> failure_count cb < thr) /\
  (state cb <> closed -> thr <= failure_count cb).

Lemma cb_reachable_closed_below thr tmo cb :
  1 <= thr -> cb_reachable thr tmo cb -> closed_below thr cb.
Proof.
  intros Hthr. induction 1 as [|cb t e cb' Hr IH He|cb t ok Hr IH].
  - unfold closed_below; simpl. repeat split; try lia. intros []; reflexivity.
  - destruct IH as (Ht & Hc & Ho). unfold call_enter in He.
    destruct (BreakerState_eqb (state cb) open_) eqn:Eo.
    + destruct (_should_attempt_reset cb t); injection He as <- <-.
      * assert (state cb <> closed) by (destruct (state cb); simpl in Eo; congruence).
        unfold closed_below; simpl. repeat split; auto; discriminate.
      * repeat split; auto.
    + injection He as <- <-. repeat split; auto.
  - destruct IH as (Ht & Hc & Ho). unfold call_exit, _on_success, _on_failure.
    destruct ok; unfold closed_below; simpl.
    + repeat split; auto; [lia|]. intros []; reflexivity.
    + destruct (Z.leb_spec (failure_threshold cb) (failure_count cb + 1)).
      * repeat split; auto; [discriminate|lia].
      * repeat split; auto.
        -- intros Hs. specialize (Hc Hs). lia.
        -- intros Hs. specialize (Ho Hs). lia.
Qed.

(** A breaker built with a positive [failure_threshold] is closed exactly
    while its failure counter is below the threshold, in every state
    reachable by any interleaving of calls: it is never open or half-open
    with a low counter, nor closed with a counter at the threshold. *)
Theorem breaker_closed_iff_below_threshold thr tmo cb :
  1 <= thr -> cb_reachable thr tmo cb ->
  failure_threshold cb = thr /\ (state cb = closed <-> failure_count cb < thr).
Proof.
  intros Hthr Hr. destruct (cb_reachable_closed_below thr tmo cb Hthr Hr) as (Ht & Hc & Ho).
  split; [exact Ht|]. split; [exact Hc|].
  intros Hlt. destruct (state cb) eqn:Es; [reflexivity| |];
    (assert (thr <= failure_count cb) by (apply Ho; discriminate); lia).
Qed.

Lemma breaker_closed_iff_below_threshold_witness :
  let cb := fail_calls (new_breaker 3 60) [0; 1] in
  cb_reachable 3 60 cb /\ failure_threshold cb = 3 /\ (state cb = closed <-> failure_count cb < 3).
Proof.
  intros cb.
  assert (Hr : cb_reachable 3 60 cb).
  { unfold cb, fail_calls, call. simpl.
    apply (reach_exit 3 60 _ 1 false).
    apply (reach_exit 3 60 _ 0 false).
    apply reach_new. }
  split; [exact Hr|].
  destruct (breaker_closed_iff_below_threshold 3 60 cb ltac:(lia) Hr) as (H1 & H2).
  split; [exact H1|exact H2].
Defined.

End BreakerInvariantFacts.

Module StateMaintFacts.
Import StateMgr StateMaint.

Lemma hours_ago_spec now hours t :
  hours_ago now hours = Some t <-> t = now - hours * hour /\ 0 <= t <= datetime_max.
Proof.
  unfold hours_ago.
  destruct (Z.leb_spec 0 (now - hours * hour)), (Z.leb_spec (now - hours * hour) datetime_max);
    simpl; split; intros Hx; try discriminate Hx.
  - injection Hx as <-. split; [reflexivity|lia].
  - destruct Hx as [-> _]. reflexivity.
  - destruct Hx as [-> ?]. lia.
  - destruct Hx as [-> ?]. lia.
  - destruct Hx as [-> ?]. lia.
Qed.

Lemma hours_ago_None now hours :
  hours_ago now hours = None <-> ~ (0 <= now - hours * hour <= datetime_max).
Proof.
  destruct (hours_ago now hours) as [t|] eqn:E.
  - apply hours_ago_spec in E as [-> Hr]. split; [discriminate|]. intros H; contradiction.
  - split; [|reflexivity]. intros _ Hr.
    assert (H : hours_ago now hours = Some (now - hours * hour)) by (apply hours_ago_spec; auto).
    congruence.
Qed.

Lemma delete_checkpoints_lookup f m ks :
  let (err, m') := delete_checkpoints f m ks in
  (forall i, m' !! i = m !! i \/ (i ∈ ks /\ m' !! i = None)) /\
  (err = None <-> Forall (fun k => f k = true) ks) /\
  (err = None -> forall i, m' !! i = if decide (i ∈ ks) then None else m !! i) /\
  (err = None \/ err = Some OSError).
Proof.
  revert m. induction ks as [|k ks IH]; intros m; cbn [delete_checkpoints].
  - split; [auto|]. split; [split; auto|]. split; [|auto].
    intros _ i. rewrite decide_False; [reflexivity|]. apply not_elem_of_nil.
  - destruct (f k) eqn:Ef.
    + specialize (IH (delete k m)).
      destruct (delete_checkpoints f (delete k m) ks) as [err m'].
      destruct IH as (H1 & H2 & H3 & H4).
      split; [|split; [|split; [|exact H4]]].
      * intros i. destruct (H1 i) as [Hi|[Hin Hi]].
        -- destruct (decide (i = k)) as [->|Hne].
           ++ right. split; [apply elem_of_cons; auto|]. rewrite Hi. apply lookup_delete_eq.
           ++ left. rewrite Hi. apply lookup_delete_ne. congruence.
        -- right. split; [apply elem_of_cons; auto|exact Hi].
      * rewrite H2, Forall_cons. split; [intros H; split; auto|intros [_ H]; exact H].
      * intros Hn i. rewrite (H3 Hn i). destruct (decide (i ∈ ks)) as [Hin|Hin].
        -- rewrite decide_True; [reflexivity|]. apply elem_of_cons; auto.
        -- destruct (decide (i = k)) as [->|Hne].
           ++ rewrite decide_True by (apply elem_of_cons; auto). apply lookup_delete_eq.
           ++ rewrite decide_False by (rewrite elem_of_cons; intros [?|?]; contradiction).
              apply lookup_delete_ne. congruence.
    + split; [|split; [|split; [discriminate|auto]]].
      * intros i. destruct (decide (i = k)) as [->|Hne].
        -- right. split; [apply elem_of_cons; auto|]. apply lookup_delete_eq.
        -- left. apply lookup_delete_ne. congruence.
      * split; [discriminate|]. rewrite Forall_cons. intros [H _]. congruence.
Qed.

(** The ids [cleanup_old_checkpoints] collects for removal. *)
Lemma to_remove_elem (keys : list string) (cps : gmap string SimulationCheckpoint) c i :
  i ∈ List.filter (fun sim_id => match cps !! sim_id with
                                 | Some checkpoint => timestamp checkpoint <? c
                                 | None => false
                                 end) keys <->
  i ∈ keys /\ exists cp, cps !! i = Some cp /\ timestamp cp < c.
Proof.
  rewrite !list_elem_of_In, filter_In. destruct (cps !! i) as [cp|].
  - rewrite Z.ltb_lt. split; [intros [? ?]; eauto|intros (? & ? & [= <-] & ?); auto].
  - split; [intros [_ H]; discriminate|intros (_ & ? & H & _); discriminate].
Qed.

Lemma cleanup_facts f keys sm max_age now :
  let (err, sm') := cleanup_old_checkpoints f keys sm max_age now in
  error_history sm' = error_history sm /\
  (forall sim, checkpoints sm' !! sim = checkpoints sm !! sim \/
     (exists cp, checkpoints sm !! sim = Some cp /\ timestamp cp < now - max_age * hour /\
                 checkpoints sm' !! sim = None)) /\
  (err = Some OverflowError <-> ~ (0 <= now - max_age * hour <= datetime_max)) /\
  (err = Some OverflowError -> sm' = sm) /\
  (err = None <-> (0 <= now - max_age * hour <= datetime_max) /\
     forall sim cp, sim ∈ keys -> checkpoints sm !! sim = Some cp ->
       timestamp cp < now - max_age * hour -> f sim = true) /\
  (err = None -> (forall k, k ∈ keys <-> is_Some (checkpoints sm !! k)) ->
   forall sim, checkpoints sm' !! sim =
     match checkpoints sm !! sim with
     | Some cp => if timestamp cp <? now - max_age * hour then None else Some cp
     | None => None
     end).
Proof.
  unfold cleanup_old_checkpoints. destruct (hours_ago now max_age) as [c|] eqn:Eh.
  - apply hours_ago_spec in Eh as [Hc Hr]. rewrite <- Hc.
    match goal with |- context [delete_checkpoints f (checkpoints sm) ?l] => set (tr := l) end.
    pose proof (delete_checkpoints_lookup f (checkpoints sm) tr) as Hd.
    destruct (delete_checkpoints f (checkpoints sm) tr) as [err m'].
    destruct Hd as (H1 & H2 & H3 & H4). cbn [error_history checkpoints].
    split; [reflexivity|]. split; [|split; [|split; [|split]]].
    + intros sim. destruct (H1 sim) as [Hs|[Hin Hs]]; [left; exact Hs|right].
      apply to_remove_elem in Hin as (_ & cp & Hcp & Ht). eauto.
    + split; [intros ->; destruct H4; discriminate|]. intros Hn; contradiction.
    + intros ->. destruct H4; discriminate.
    + rewrite H2, Forall_forall. split.
      * intros H. split; [exact Hr|]. intros sim cp Hk Hcp Ht. apply H.
        apply to_remove_elem. eauto.
      * intros [_ H] sim Hin. apply to_remove_elem in Hin as (Hk & cp & Hcp & Ht).
        eapply H; eauto.
    + intros Hn Hkeys sim. rewrite (H3 Hn sim). destruct (decide (sim ∈ tr)) as [Hin|Hin].
      * apply to_remove_elem in Hin as (_ & cp & -> & Ht). apply Z.ltb_lt in Ht. rewrite Ht.
        reflexivity.
      * destruct (checkpoints sm !! sim) as [cp|] eqn:Ecp; [|reflexivity].
        destruct (Z.ltb_spec (timestamp cp) c) as [Ht|Ht]; [|reflexivity].
        exfalso. apply Hin, to_remove_elem. split; [apply Hkeys; rewrite Ecp; eauto|eauto].
  - split; [reflexivity|]. split; [auto|]. split; [|split; [auto|split]].
    + split; [intros _; apply hours_ago_None; exact Eh|reflexivity].
    + split; [discriminate|]. intros [Hr _]. apply hours_ago_None in Eh. contradiction.
    + discriminate.
Qed.

(** [get_error_history(simulation_id, hours)] raises [OverflowError]
    exactly when [hours] hours before now falls outside the range of
    [datetime]; otherwise it returns exactly the recorded errors at most
    [hours] hours old (the boundary included) that belong to
    [simulation_id], or to any simulation when it is [None], in the order
    they were recorded. *)
Theorem get_error_history_members sm osim hours now :
  match get_error_history sm osim hours now with
  | None => ~ (0 <= now - hours * hour <= datetime_max)
  | Some l =>
      0 <= now - hours * hour <= datetime_max /\
      (forall r, In r l <->
         In r (error_history sm) /\ now - hours * hour <= er_timestamp r /\
         (forall s, osim = Some s -> er_simulation_id r = s))
  end.
Proof.
  unfold get_error_history. destruct (hours_ago now hours) as [c|] eqn:Eh; cbn [mbind option_bind].
  2:{ apply hours_ago_None. exact Eh. }
  apply hours_ago_spec in Eh as [-> Hr]. split; [exact Hr|]. intros r.
  rewrite filter_In, andb_true_iff, Z.leb_le.
  unfold matches_simulation. destruct osim as [s|].
  - rewrite bool_decide_eq_true. split.
    + intros (Hi & Ht & Hs). repeat split; auto. intros s' [= <-]. exact Hs.
    + intros (Hi & Ht & Hs). repeat split; auto.
  - split.
    + intros (Hi & Ht & _). repeat split; auto. discriminate.
    + intros (Hi & Ht & _). auto.
Qed.

(** An error recorded at a time inside the window is returned by
    [get_error_history] for its own simulation and for all simulations,
    after the ones recorded before it; the history of any other
    simulation is unchanged by it (and when the cutoff overflows, every
    call raises, before and after). *)
Theorem record_error_then_history sm sim et msg st t hours now :
  now - hours * hour <= t ->
  let sm' := record_error sm sim et msg st t in
  let r := mkErrorRecord t sim et msg st false false in
  get_error_history sm' (Some sim) hours now =
    option_map (fun l => l ++ [r]) (get_error_history sm (Some sim) hours now) /\
  get_error_history sm' None hours now =
    option_map (fun l => l ++ [r]) (get_error_history sm None hours now) /\
  (forall other, other <> sim ->
     get_error_history sm' (Some other) hours now = get_error_history sm (Some other) hours now).
Proof.
  intros Ht sm' r. unfold sm', get_error_history.
  destruct (hours_ago now hours) as [c|] eqn:Eh; cbn [mbind option_bind option_map];
    [|split; [reflexivity|split; reflexivity]].
  apply hours_ago_spec in Eh as [-> _].
  unfold record_error; cbn [error_history].
  rewrite !List.filter_app. cbn [List.filter er_timestamp er_simulation_id matches_simulation].
  apply Z.leb_le in Ht. rewrite Ht. cbn [andb].
  split; [|split].
  - rewrite bool_decide_eq_true_2 by reflexivity. reflexivity.
  - reflexivity.
  - intros other Hne. rewrite List.filter_app.
    cbn [List.filter er_timestamp er_simulation_id matches_simulation]. rewrite Ht. cbn [andb].
    rewrite bool_decide_eq_false_2 by congruence. rewrite app_nil_r. reflexivity.
Qed.

(** A store holding an error of "sim_1" recorded 26 hours before the
    query and one of "sim_2" recorded 2 hours before it. *)
Definition history_store : StateManager :=
  mkStateManager ∅ [mkErrorRecord (4 * hour) "sim_1" "carla_crash" "lost" "" true true;
                    mkErrorRecord (28 * hour) "sim_2" "gpu_error" "gpu lost" "" true false].

Lemma record_error_then_history_witness :
  30 * hour - 24 * hour <= 29 * hour /\
  get_error_history (record_error history_store "sim_1" "simulation_error" "step failed" "" (29 * hour))
    (Some "sim_1"%string) 24 (30 * hour) =
    option_map (fun l => l ++ [mkErrorRecord (29 * hour) "sim_1" "simulation_error" "step failed" ""
                                 false false])
      (get_error_history history_store (Some "sim_1"%string) 24 (30 * hour)) /\
  get_error_history (record_error history_store "sim_1" "simulation_error" "step failed" "" (29 * hour))
    None 24 (30 * hour) =
    Some [mkErrorRecord (28 * hour) "sim_2" "gpu_error" "gpu lost" "" true false;
          mkErrorRecord (29 * hour) "sim_1" "simulation_error" "step failed" "" false false].
Proof.
  assert (H : 30 * hour - 24 * hour <= 29 * hour) by (unfold hour; lia).
  split; [exact H|].
  destruct (record_error_then_history history_store "sim_1" "simulation_error" "step failed" ""
              (29 * hour) 24 (30 * hour) H) as (H1 & H2 & _).
  split; [exact H1|]. rewrite H2. vm_compute. reflexivity.
Defined.

(** [cleanup_old_checkpoints(max_age_hours)] never removes or changes a
    checkpoint that is not older than the cutoff, and leaves the error
    history alone.  It raises [OverflowError], before removing anything,
    exactly when the cutoff falls outside the range of [datetime]; it
    returns normally exactly when, besides, the files of all the expired
    checkpoints can be checked and removed; and then it has removed
    exactly the checkpoints older than the cutoff (one exactly at the
    cutoff is kept).  An [OSError] on a file stops it with the later
    expired checkpoints still in place. *)
Theorem cleanup_old_checkpoints_spec f keys sm max_age now :
  let (err, sm') := cleanup_old_checkpoints f keys sm max_age now in
  error_history sm' = error_history sm /\
  (forall sim, checkpoints sm' !! sim = checkpoints sm !! sim \/
     (exists cp, checkpoints sm !! sim = Some cp /\ timestamp cp < now - max_age * hour /\
                 checkpoints sm' !! sim = None)) /\
  (err = Some OverflowError <-> ~ (0 <= now - max_age * hour <= datetime_max)) /\
  (err = Some OverflowError -> sm' = sm) /\
  (err = None <-> (0 <= now - max_age * hour <= datetime_max) /\
     forall sim cp, sim ∈ keys -> checkpoints sm !! sim = Some cp ->
       timestamp cp < now - max_age * hour -> f sim = true) /\
  (err = None -> (forall k, k ∈ keys <-> is_Some (checkpoints sm !! k)) ->
   forall sim, checkpoints sm' !! sim =
     match checkpoints sm !! sim with
     | Some cp => if timestamp cp <? now - max_age * hour then None else Some cp
     | None => None
     end).
Proof. apply cleanup_facts. Qed.

(** After [cleanup_old_checkpoints], [restore_checkpoint] behaves as
    before for every simulation, except one whose checkpoint was older
    than the cutoff: that one may fail without touching the world, and
    does so whenever the cleanup returned normally. *)
Theorem restore_after_cleanup f keys sm max_age now sim w bp :
  let (err, sm') := cleanup_old_checkpoints f keys sm max_age now in
  (restore_checkpoint sm' sim w bp = restore_checkpoint sm sim w bp \/
   (exists cp, checkpoints sm !! sim = Some cp /\ timestamp cp < now - max_age * hour /\
               restore_checkpoint sm' sim w bp = (None, w))) /\
  (err = None -> (forall k, k ∈ keys <-> is_Some (checkpoints sm !! k)) ->
   restore_checkpoint sm' sim w bp =
     match checkpoints sm !! sim with
     | Some cp => if timestamp cp <? now - max_age * hour then (None, w)
                  else restore_checkpoint sm sim w bp
     | None => (None, w)
     end).
Proof.
  pose proof (cleanup_facts f keys sm max_age now) as Hc.
  destruct (cleanup_old_checkpoints f keys sm max_age now) as [err sm'].
  destruct Hc as (_ & H1 & _ & _ & _ & H6). split.
  - destruct (H1 sim) as [Hs|(cp & Hcp & Ht & Hs)].
    + left. unfold restore_checkpoint. rewrite Hs. reflexivity.
    + right. exists cp. split; [exact Hcp|]. split; [exact Ht|].
      unfold restore_checkpoint. rewrite Hs. reflexivity.
  - intros Hn Hkeys. unfold restore_checkpoint at 1. rewrite (H6 Hn Hkeys sim).
    unfold restore_checkpoint. destruct (checkpoints sm !! sim) as [cp|]; [|reflexivity].
    destruct (timestamp cp <? _); reflexivity.
Qed.

End StateMaintFacts.

Module RecoveryStatusFacts.
Import StateMgr Recovery Health RecoveryFacts.

Lemma error_type_value_inj e e' : error_type_value e = error_type_value e' -> e = e'.
Proof. destruct e, e'; simpl; intros H; try reflexivity; discriminate H. Qed.

(** [get_recovery_status(simulation_id)] lists every error type, in
    declaration order, once.  In every reachable handler state the count it
    reports for a type is the counter [handle_error] consults, at most that
    type's [max_attempts], and it is below [max_attempts] exactly when a
    further error of that type for the simulation would be recovered. *)
Theorem get_recovery_status_reports_budget eh sim :
  eh_reachable eh ->
  map fst (rs_recovery_attempts (get_recovery_status eh sim)) = map error_type_value all_error_types /\
  (forall e n, In (error_type_value e, n) (rs_recovery_attempts (get_recovery_status eh sim)) ->
     n = attempts eh sim e /\
     (n <= max_attempts (recovery_strategies e))%nat /\
     (_should_attempt_recovery eh sim e = true <-> (n < max_attempts (recovery_strategies e))%nat)).
Proof.
  intros Hr.
  assert (Heq : rs_recovery_attempts (get_recovery_status eh sim) =
                map (fun e => (error_type_value e, attempts eh sim e)) all_error_types).
  { unfold get_recovery_status, attempts; cbn [rs_recovery_attempts]. apply map_ext. intros e.
    destruct (recovery_attempts eh !! sim); reflexivity. }
  split; [rewrite Heq, map_map; reflexivity|].
  intros e n Hin. rewrite Heq in Hin. apply in_map_iff in Hin as (e' & He' & _).
  injection He' as Hv Hn. apply error_type_value_inj in Hv. subst.
  split; [reflexivity|]. split; [apply eh_reachable_bounded; exact Hr|].
  split; [apply should_attempt_true|].
  intros Hlt. destruct (_should_attempt_recovery eh sim e) eqn:E; [reflexivity|].
  exfalso. destruct (Nat.le_gt_cases (max_attempts (recovery_strategies e)) (attempts eh sim e))
    as [Hle|Hgt]; [lia|].
  revert E. unfold _should_attempt_recovery. unfold attempts in Hgt.
  destruct (recovery_attempts eh !! sim) as [m|]; [|discriminate]. cbn in Hgt.
  apply Nat.ltb_lt in Hgt. rewrite Hgt. discriminate.
Qed.

(** After one memory exhaustion of ["sim_1"], the status reports its
    attempt and no further recovery for that type. *)
Lemma get_recovery_status_reports_budget_witness :
  eh_reachable exhausted_handler /\
  In ("memory_exhaustion"%string, 1%nat)
     (rs_recovery_attempts (get_recovery_status exhausted_handler "sim_1")) /\
  _should_attempt_recovery exhausted_handler "sim_1" MEMORY_EXHAUSTION = false /\
  (1 <= max_attempts (recovery_strategies MEMORY_EXHAUSTION))%nat.
Proof.
  pose proof exhausted_handler_reachable as Hr.
  assert (Hin : In (error_type_value MEMORY_EXHAUSTION, 1%nat)
                   (rs_recovery_attempts (get_recovery_status exhausted_handler "sim_1")))
    by (vm_compute; tauto).
  destruct (get_recovery_status_reports_budget exhausted_handler "sim_1" Hr) as (_ & H).
  destruct (H MEMORY_EXHAUSTION 1%nat Hin) as (_ & Hle & Hs).
  split; [exact Hr|]. split; [exact Hin|]. split; [|exact Hle].
  apply not_true_is_false. intros E. apply Hs in E. vm_compute in E. lia.
Defined.

End RecoveryStatusFacts.

Module SequentialRecoveryFacts.
Import StateMgr Recovery RecoveryFacts.

(** Four crashes of the simulator for different simulations, each
    recovered by a successful restart, one after another. *)
Definition crash_recovered (eh : ErrorHandler) (sim : string) : ErrorHandler :=
  snd (handle_error eh sim CARLA_CRASH "CARLA server connection lost" empty_context 0 true).

Definition four_restarts : ErrorHandler :=
  foldl crash_recovered (new_error_handler (mkStateManager ∅ [])) ["sim_1"; "sim_2"; "sim_3"; "sim_4"].

(** Whether a strategy is [RESTART_CARLA]. *)
Definition is_restart_carla (st : RecoveryStrategy) : bool :=
  match st with RESTART_CARLA => true | _ => false end.

Lemma resume_strategy_runs eh p c :
  strategy_runs (snd (handle_error_resume eh p c)) = strategy_runs eh.
Proof.
  unfold handle_error_resume, strategy_finish.
  destruct (strategy (p_action p)); try destruct c; try destruct (checkpoints _ !! _); reflexivity.
Qed.

(** A [handle_error] call for a pair still under its budget, when nothing
    interleaves with it, counts one attempt for that pair, starts the
    pair's mapped strategy exactly once, and appends one record for the
    error marked as attempted with the strategy's outcome, which is also
    what the call returns. *)
Theorem handle_error_under_budget eh sim e msg ctx now c :
  _should_attempt_recovery eh sim e = true ->
  let (b, eh') := handle_error eh sim e msg ctx now c in
  attempts eh' sim e = S (attempts eh sim e) /\
  strategy_runs eh' = strategy_runs eh ++ [(sim, strategy (recovery_strategies e))] /\
  exists r, error_history (state_manager eh') = error_history (state_manager eh) ++ [r] /\
    er_simulation_id r = sim /\ er_error_type r = error_type_value e /\
    er_error_message r = msg /\ recovery_attempted r = true /\ recovery_successful r = b.
Proof.
  intros Hs.
  destruct (handle_error eh sim e msg ctx now c) as [b eh'] eqn:Eh.
  assert (Hruns : strategy_runs eh' = strategy_runs eh ++ [(sim, strategy (recovery_strategies e))] /\
                  attempts eh' sim e = S (attempts eh sim e)).
  { revert Eh. unfold handle_error, handle_error_begin. rewrite should_attempt_set_sm, Hs.
    cbn [negb recovery_strategies_get].
    set (eh3 := mkErrorHandler _ _ _ _ _).
    assert (Ha3 : attempts eh3 sim e = S (attempts eh sim e)).
    { unfold eh3. pose proof (attempts_increment (set_state_manager eh
              (record_error (state_manager eh) sim (error_type_value e) msg
                 (default "" (ctx_stack_trace ctx)) now)) sim e sim e) as Hi.
      rewrite decide_True in Hi by auto. exact Hi. }
    destruct (strategy_start eh3 sim _ ctx) as [b0|].
    - intros H; injection H as <- <-. split; [reflexivity|]. exact Ha3.
    - intros H. split.
      + replace eh' with (snd (handle_error_resume eh3
                               (mkPending sim (recovery_strategies e)) c)) by (rewrite H; reflexivity).
        rewrite resume_strategy_runs. reflexivity.
      + replace eh' with (snd (handle_error_resume eh3
                               (mkPending sim (recovery_strategies e)) c)) by (rewrite H; reflexivity).
        unfold attempts. rewrite handle_error_resume_attempts. exact Ha3. }
  destruct Hruns as [Hruns Ha]. split; [exact Ha|]. split; [exact Hruns|].
  destruct (handle_error_sequential_record _ _ _ _ _ _ _ _ _ Eh) as (r & Hh & Hsim & Ht & Hm & Hatt).
  exists r. repeat split; try assumption.
  - apply Hatt. rewrite Hruns. intros Heq.
    apply (f_equal (@length _)) in Heq. rewrite length_app in Heq. simpl in Heq. lia.
  - apply Hatt. rewrite Hruns. intros Heq.
    apply (f_equal (@length _)) in Heq. rewrite length_app in Heq. simpl in Heq. lia.
Qed.

Lemma handle_error_under_budget_witness :
  _should_attempt_recovery (new_error_handler (mkStateManager ∅ [])) "sim_1" SIMULATION_ERROR = true /\
  let (b, eh') := handle_error (new_error_handler (mkStateManager ∅ [])) "sim_1" SIMULATION_ERROR
                    "step failed" empty_context 0 true in
  attempts eh' "sim_1" SIMULATION_ERROR = S (attempts (new_error_handler (mkStateManager ∅ [])) "sim_1" SIMULATION_ERROR) /\
  strategy_runs eh' = strategy_runs (new_error_handler (mkStateManager ∅ [])) ++
                        [("sim_1"%string, strategy (recovery_strategies SIMULATION_ERROR))] /\
  exists r, error_history (state_manager eh') = error_history (state_manager (new_error_handler (mkStateManager ∅ []))) ++ [r] /\
    er_simulation_id r = "sim_1" /\ er_error_type r = error_type_value SIMULATION_ERROR /\
    er_error_message r = "step failed" /\ recovery_attempted r = true /\ recovery_successful r = b.
Proof.
  assert (H : _should_attempt_recovery (new_error_handler (mkStateManager ∅ [])) "sim_1" SIMULATION_ERROR = true)
    by reflexivity.
  split; [exact H|].
  exact (handle_error_under_budget _ "sim_1" SIMULATION_ERROR "step failed" empty_context 0 true H).
Defined.

Lemma begin_restart_fields eh sim e msg ctx now r eh1 :
  handle_error_begin eh sim e msg ctx now = (r, eh1) ->
  carla_restart_count eh1 = carla_restart_count eh /\
  max_carla_restarts eh1 = max_carla_restarts eh /\
  (forall p, r = HandleAwait p -> strategy (p_action p) = RESTART_CARLA ->
     (carla_restart_count eh < max_carla_restarts eh)%nat).
Proof.
  unfold handle_error_begin. rewrite should_attempt_set_sm.
  destruct (_should_attempt_recovery eh sim e); cbn [negb recovery_strategies_get].
  2:{ intros H; injection H as <- <-. repeat split; discriminate. }
  unfold strategy_start. destruct (strategy (recovery_strategies e)) eqn:Es; cbn.
  - destruct (Nat.leb_spec (max_carla_restarts eh) (carla_restart_count eh)) as [Hm|Hm];
      intros H; injection H as <- <-; repeat split; try discriminate.
    intros p [= <-]. auto.
  - destruct (ctx_sim_manager ctx); intros H; injection H as <- <-; repeat split; try discriminate.
    intros p [= <-]. simpl. rewrite Es. discriminate.
  - destruct (ctx_world ctx), (ctx_vehicle_bp ctx); try destruct (fst (restore_checkpoint _ _ _ _));
      intros H; injection H as <- <-; repeat split; discriminate.
  - intros H; injection H as <- <-; repeat split; discriminate.
  - intros H; injection H as <- <-; repeat split; try discriminate.
    intros p [= <-]. simpl. rewrite Es. discriminate.
  - intros H; injection H as <- <-; repeat split; discriminate.
Qed.

Lemma resume_restart_fields eh p c :
  carla_restart_count (snd (handle_error_resume eh p c)) =
    (match strategy (p_action p) with
     | RESTART_CARLA => if c then S (carla_restart_count eh) else carla_restart_count eh
     | _ => carla_restart_count eh
     end) /\
  max_carla_restarts (snd (handle_error_resume eh p c)) = max_carla_restarts eh.
Proof.
  unfold handle_error_resume, strategy_finish.
  destruct (strategy (p_action p)); try destruct c; try destruct (checkpoints _ !! _);
    simpl; auto.
Qed.

Lemma begin_restart_await eh sim e msg ctx now :
  strategy (recovery_strategies e) = RESTART_CARLA ->
  _should_attempt_recovery eh sim e = true ->
  (carla_restart_count eh < max_carla_restarts eh)%nat ->
  handle_error_begin eh sim e msg ctx now =
    (HandleAwait (mkPending sim (recovery_strategies e)),
     mkErrorHandler (record_error (state_manager eh) sim (error_type_value e) msg
                                  (default "" (ctx_stack_trace ctx)) now)
                    (recovery_attempts (_increment_recovery_attempt eh sim e))
                    (carla_restart_count eh) (max_carla_restarts eh)
                    (strategy_runs eh ++ [(sim, RESTART_CARLA)])).
Proof.
  intros Hst Hs Hlt. unfold handle_error_begin. rewrite should_attempt_set_sm, Hs.
  cbn [negb recovery_strategies_get]. unfold strategy_start. rewrite Hst. cbn.
  destruct (Nat.leb_spec (max_carla_restarts eh) (carla_restart_count eh)); [lia|].
  reflexivity.
Qed.

Lemma begin_await_inv eh sim e msg ctx now p eh1 :
  handle_error_begin eh sim e msg ctx now = (HandleAwait p, eh1) ->
  p = mkPending sim (recovery_strategies e) /\ _should_attempt_recovery eh sim e = true.
Proof.
  unfold handle_error_begin. rewrite should_attempt_set_sm.
  destruct (_should_attempt_recovery eh sim e); cbn [negb recovery_strategies_get]; [|discriminate].
  destruct (strategy_start _ _ _ _); [discriminate|]. intros H; injection H as <- _. auto.
Qed.

(** Calls of [handle_error] made one after another never push
    [carla_restart_count] past [max_carla_restarts]: a call raises the
    count by one exactly when its recovery is attempted, its strategy is
    [RESTART_CARLA], the cap check [carla_restart_count <
    max_carla_restarts] made before the restart passes, and the connection
    test after the restart succeeds; otherwise the count is unchanged. *)
Theorem handle_error_keeps_restart_cap eh sim e msg ctx now c :
  (carla_restart_count eh <= max_carla_restarts eh)%nat ->
  let eh' := snd (handle_error eh sim e msg ctx now c) in
  carla_restart_count eh' =
    (if _should_attempt_recovery eh sim e && is_restart_carla (strategy (recovery_strategies e)) &&
        Nat.ltb (carla_restart_count eh) (max_carla_restarts eh) && c
     then S (carla_restart_count eh) else carla_restart_count eh) /\
  (carla_restart_count eh' <= max_carla_restarts eh')%nat /\
  max_carla_restarts eh' = max_carla_restarts eh.
Proof.
  intros Hle. cbv zeta. unfold handle_error.
  destruct (handle_error_begin eh sim e msg ctx now) as [[b|p] eh1] eqn:Eb;
    destruct (begin_restart_fields _ _ _ _ _ _ _ _ Eb) as (Hc & Hm & Hp).
  - cbn [snd]. rewrite Hc, Hm. split; [|split; [exact Hle|reflexivity]].
    destruct (_should_attempt_recovery eh sim e) eqn:Hs; [|reflexivity].
    destruct (strategy (recovery_strategies e)) eqn:Est; try reflexivity.
    destruct (Nat.ltb_spec (carla_restart_count eh) (max_carla_restarts eh)) as [Hlt|]; [|reflexivity].
    rewrite (begin_restart_await eh sim e msg ctx now Est Hs Hlt) in Eb. discriminate.
  - destruct (begin_await_inv _ _ _ _ _ _ _ _ Eb) as [-> Hs].
    destruct (resume_restart_fields eh1 (mkPending sim (recovery_strategies e)) c) as (Hc' & Hm').
    rewrite Hc', Hm', Hc, Hm, Hs. cbn [p_action andb].
    split; [|split; [|reflexivity]];
      destruct (strategy (recovery_strategies e)) eqn:Est; cbn [is_restart_carla andb];
      try reflexivity; try exact Hle.
    + specialize (Hp _ eq_refl Est).
      destruct (Nat.ltb_spec (carla_restart_count eh) (max_carla_restarts eh)); [|lia].
      destruct c; reflexivity.
    + specialize (Hp _ eq_refl Est). destruct c; lia.
Qed.

(** After four restarts, a fifth crash is recovered and brings the count
    to the cap of 5; a sixth crash finds the cap reached and leaves it
    there. *)
Lemma handle_error_keeps_restart_cap_witness :
  (carla_restart_count four_restarts <= max_carla_restarts four_restarts)%nat /\
  carla_restart_count (crash_recovered four_restarts "sim_5") = 5%nat /\
  (carla_restart_count (crash_recovered four_restarts "sim_5") <=
     max_carla_restarts (crash_recovered four_restarts "sim_5"))%nat /\
  carla_restart_count (crash_recovered (crash_recovered four_restarts "sim_5") "sim_6") = 5%nat.
Proof.
  assert (H : (carla_restart_count four_restarts <= max_carla_restarts four_restarts)%nat)
    by (vm_compute; lia).
  destruct (handle_error_keeps_restart_cap four_restarts "sim_5" CARLA_CRASH
              "CARLA server connection lost" empty_context 0 true H) as (H1 & H2 & _).
  split; [exact H|]. split; [unfold crash_recovered; rewrite H1; vm_compute; reflexivity|].
  split; [exact H2|].
  destruct (handle_error_keeps_restart_cap (crash_recovered four_restarts "sim_5") "sim_6" CARLA_CRASH
              "CARLA server connection lost" empty_context 0 true H2) as (H3 & _).
  unfold crash_recovered at 1. rewrite H3. vm_compute. reflexivity.
Defined.

(** Two [handle_error] calls whose strategy restarts CARLA, overlapping
    (the second starts while the first waits in [_restart_carla_server]),
    both pass the cap check when one restart is left; when both
    connection tests succeed, [carla_restart_count] ends one above
    [max_carla_restarts]. *)
Theorem overlapping_restarts_pass_cap eh simA eA msgA ctxA tA simB eB msgB ctxB tB :
  strategy (recovery_strategies eA) = RESTART_CARLA ->
  strategy (recovery_strategies eB) = RESTART_CARLA ->
  _should_attempt_recovery eh simA eA = true ->
  _should_attempt_recovery (_increment_recovery_attempt eh simA eA) simB eB = true ->
  S (carla_restart_count eh) = max_carla_restarts eh ->
  exists pA ehA pB ehB,
    handle_error_begin eh simA eA msgA ctxA tA = (HandleAwait pA, ehA) /\
    handle_error_begin ehA simB eB msgB ctxB tB = (HandleAwait pB, ehB) /\
    let ehD := snd (handle_error_resume (snd (handle_error_resume ehB pA true)) pB true) in
    carla_restart_count ehD = S (max_carla_restarts ehD).
Proof.
  intros HA HB HsA HsB Hc.
  rewrite (begin_restart_await eh simA eA msgA ctxA tA HA HsA ltac:(lia)).
  do 4 eexists. split; [reflexivity|].
  split; [rewrite begin_restart_await; [reflexivity | exact HB | exact HsB | cbn; lia]|].
  cbn zeta.
  set (ehB := mkErrorHandler _ _ _ _ _).
  destruct (resume_restart_fields ehB (mkPending simA (recovery_strategies eA)) true) as (H1 & H1m).
  set (ehC := snd (handle_error_resume ehB _ true)) in *.
  destruct (resume_restart_fields ehC (mkPending simB (recovery_strategies eB)) true) as (H2 & H2m).
  rewrite H2, H2m, H1, H1m. cbn [p_action]. rewrite HA, HB.
  cbn. lia.
Qed.

Lemma overlapping_restarts_pass_cap_witness :
  carla_restart_count four_restarts = 4%nat /\ max_carla_restarts four_restarts = 5%nat /\
  exists pA ehA pB ehB,
    handle_error_begin four_restarts "system" CARLA_CRASH "CARLA server connection lost" empty_context 1
      = (HandleAwait pA, ehA) /\
    handle_error_begin ehA "sim_5" GPU_ERROR "GPU lost" empty_context 2 = (HandleAwait pB, ehB) /\
    let ehD := snd (handle_error_resume (snd (handle_error_resume ehB pA true)) pB true) in
    carla_restart_count ehD = S (max_carla_restarts ehD).
Proof.
  split; [vm_compute; reflexivity|]. split; [vm_compute; reflexivity|].
  apply (overlapping_restarts_pass_cap four_restarts "system" CARLA_CRASH _ _ _ "sim_5" GPU_ERROR);
    vm_compute; reflexivity.
Defined.

End SequentialRecoveryFacts.

Module HealthFacts.
Import StateMgr StateMaint Recovery Health RecoveryFacts StateMaintFacts.

(** [get_health_status] reports ["healthy"] exactly when the last
    connection check succeeded and no metric is above its threshold
    (memory 80, CPU 90, GPU 95, error rate 0.1 per minute; a value equal
    to its threshold is no issue). *)
Theorem get_health_status_healthy now m :
  hs_status (fst (get_health_status now m)) = "healthy"%string <->
  carla_connection m = true /\ (memory_usage m <= 80)%Q /\ (cpu_usage m <= 90)%Q /\
  (gpu_usage m <= 95)%Q /\ (error_rate m <= 1 # 10)%Q.
Proof.
  rewrite <- !Qle_bool_iff.
  unfold get_health_status, Qgtb, memory_usage_max, cpu_usage_max, gpu_usage_max, error_rate_max.
  cbn [fst hs_status set_last_check carla_connection memory_usage cpu_usage gpu_usage error_rate].
  destruct (carla_connection m), (Qle_bool (memory_usage m) 80), (Qle_bool (cpu_usage m) 90),
    (Qle_bool (gpu_usage m) 95), (Qle_bool (error_rate m) (1 # 10));
    cbn; split; intros H; try discriminate H; try (repeat split; reflexivity);
    try (destruct H as (? & ? & ? & ? & ?); discriminate).
Qed.

Lemma check_resource_usage_result p m b :
  fst (check_resource_usage p (set_carla_connection b m)) = fst (check_resource_usage p m).
Proof. destruct p as [| |c|c mem [g|]]; reflexivity. Qed.

Lemma check_resource_usage_error_rate p m :
  error_rate (snd (check_resource_usage p m)) = error_rate m.
Proof. destruct p as [| |c|c mem [g|]]; reflexivity. Qed.

Lemma handle_error_checkpoints eh sim e msg ctx now c :
  checkpoints (state_manager (snd (handle_error eh sim e msg ctx now c))) =
  checkpoints (state_manager eh).
Proof.
  unfold handle_error, handle_error_begin. rewrite should_attempt_set_sm.
  destruct (_should_attempt_recovery eh sim e); cbn [negb recovery_strategies_get]; [|reflexivity].
  destruct (strategy_start _ sim _ ctx); [reflexivity|].
  unfold handle_error_resume, strategy_finish. cbn [p_action p_sim].
  destruct (strategy (recovery_strategies e)); try destruct c;
    try destruct (checkpoints _ !! _); reflexivity.
Qed.

(** When the connection check succeeds, the memory reading does not
    exceed 90 and no error was recorded in the last hour,
    [periodic_health_check] leaves [metrics["error_rate"]] as it was:
    [calculate_error_rate] returns 0.0 on an empty history without
    storing it, so a rate stored by an earlier check stays in the
    metrics, and in [get_health_status], however old the errors behind it
    are. *)
Theorem periodic_check_keeps_stale_error_rate fmt eh m i :
  server_responds i = true ->
  Qgtb (resources_memory (fst (check_resource_usage (probe i) m))) 90 = false ->
  get_error_history (state_manager eh) None 1 (t_history i) = Some [] ->
  error_rate (snd (periodic_health_check fmt eh m i)) = error_rate m.
Proof.
  intros Hs Hm Hh. unfold periodic_health_check, check_carla_connection. rewrite Hs.
  cbn iota beta zeta.
  pose proof (check_resource_usage_result (probe i) m true) as Hr.
  pose proof (check_resource_usage_error_rate (probe i) (set_carla_connection true m)) as He.
  destruct (check_resource_usage (probe i) (set_carla_connection true m)) as [res m2].
  cbn [fst snd] in Hr, He. rewrite Hr, Hm. cbn iota. rewrite Hh. cbn [calculate_error_rate].
  destruct (cleanup_old_checkpoints _ _ _ _ _). cbn [snd]. exact He.
Qed.

(** An error recorded two hours before the check, and an error rate of
    0.5 per minute stored by an earlier check. *)
Definition stale_handler : ErrorHandler :=
  new_error_handler (mkStateManager ∅ [mkErrorRecord 0 "sim_1" "carla_crash" "lost" "" true true]).

Definition stale_metrics : HealthMetrics :=
  set_error_rate (1 # 2) (new_health_monitor 0).

Definition stale_inputs : CheckInputs :=
  mkCheckInputs true true psutil_missing 0 0 (2 * hour) (2 * hour) (2 * hour) [] (fun _ => true).

Lemma periodic_check_keeps_stale_error_rate_witness :
  server_responds stale_inputs = true /\
  Qgtb (resources_memory (fst (check_resource_usage (probe stale_inputs) stale_metrics))) 90 = false /\
  get_error_history (state_manager stale_handler) None 1 (t_history stale_inputs) = Some [] /\
  error_rate (snd (periodic_health_check (fun _ => ""%string) stale_handler stale_metrics stale_inputs)) =
    (1 # 2)%Q.
Proof.
  assert (H1 : server_responds stale_inputs = true) by reflexivity.
  assert (H2 : Qgtb (resources_memory (fst (check_resource_usage (probe stale_inputs) stale_metrics))) 90
               = false) by reflexivity.
  assert (H3 : get_error_history (state_manager stale_handler) None 1 (t_history stale_inputs) = Some [])
    by (vm_compute; reflexivity).
  split; [exact H1|]. split; [exact H2|]. split; [exact H3|].
  exact (periodic_check_keeps_stale_error_rate (fun _ => ""%string) stale_handler stale_metrics
           stale_inputs H1 H2 H3).
Defined.

(** [periodic_health_check] never removes or changes a checkpoint that is
    not older than 24 hours at the time of the cleanup (the recoveries it
    may trigger never add or remove one).  When the cleanup runs to its end
    (no cutoff overflows and every expired checkpoint's file can be checked
    and removed), it removes exactly the checkpoints older than 24 hours;
    otherwise the exception it swallows can leave expired ones in place. *)
Theorem periodic_check_expires_checkpoints fmt eh m i sim :
  let cps := checkpoints (state_manager (fst (periodic_health_check fmt eh m i))) in
  (cps !! sim = checkpoints (state_manager eh) !! sim \/
   exists cp, checkpoints (state_manager eh) !! sim = Some cp /\
              timestamp cp < t_cleanup i - 24 * hour /\ cps !! sim = None) /\
  ((forall k, k ∈ checkpoint_order i <-> is_Some (checkpoints (state_manager eh) !! k)) ->
   0 <= t_history i - hour <= datetime_max ->
   0 <= t_rate i - hour <= datetime_max ->
   0 <= t_cleanup i - 24 * hour <= datetime_max ->
   (forall k, file_ok i k = true) ->
   cps !! sim =
     match checkpoints (state_manager eh) !! sim with
     | Some cp => if timestamp cp <? t_cleanup i - 24 * hour then None else Some cp
     | None => None
     end).
Proof.
  unfold periodic_health_check, check_carla_connection. cbn iota beta zeta.
  destruct (check_resource_usage (probe i) _) as [res m2].
  set (eh1 := if server_responds i then eh else _).
  set (eh2 := if Qgtb (resources_memory res) 90 then _ else eh1).
  assert (H1 : checkpoints (state_manager eh1) = checkpoints (state_manager eh)).
  { unfold eh1. destruct (server_responds i); [reflexivity|apply handle_error_checkpoints]. }
  assert (H2 : checkpoints (state_manager eh2) = checkpoints (state_manager eh)).
  { unfold eh2. destruct (Qgtb _ _); [rewrite handle_error_checkpoints|]; exact H1. }
  destruct (get_error_history (state_manager eh2) None 1 (t_history i)) as [hist|] eqn:Eg.
  - destruct (calculate_error_rate hist (t_rate i) m2) as [[rate|] m3] eqn:Ec.
    + pose proof (cleanup_facts (file_ok i) (checkpoint_order i) (state_manager eh2) 24 (t_cleanup i))
        as Hc.
      destruct (cleanup_old_checkpoints (file_ok i) (checkpoint_order i) (state_manager eh2) 24
                  (t_cleanup i)) as [err sm'].
      destruct Hc as (_ & C1 & _ & _ & C5 & C6). rewrite H2 in C1, C5, C6.
      cbn [fst state_manager set_state_manager]. split; [apply C1|].
      intros Hk _ _ Hcl Hf. apply C6; [|exact Hk]. apply C5. split; [exact Hcl|].
      intros; apply Hf.
    + cbn [fst]. rewrite H2. split; [left; reflexivity|]. intros _ _ Hr _ _. exfalso.
      unfold calculate_error_rate in Ec. destruct hist; [discriminate|].
      destruct (hours_ago (t_rate i) 1) eqn:E; [discriminate|].
      apply hours_ago_None in E. apply E. lia.
  - cbn [fst]. rewrite H2. split; [left; reflexivity|]. intros _ Hh _ _ _. exfalso.
    unfold get_error_history in Eg. destruct (hours_ago (t_history i) 1) eqn:E; [discriminate|].
    apply hours_ago_None in E. apply E. lia.
Qed.

(** [periodic_health_check] adds to the error history exactly one record
    per alarm it raises, in order, all for the simulation id ["system"]: a
    [carla_crash] when the server does not answer, then a
    [memory_exhaustion] when the memory reading is above 90; the records
    already there are kept. *)
Theorem periodic_check_records_alarms fmt eh m i :
  exists rs,
    error_history (state_manager (fst (periodic_health_check fmt eh m i))) =
      error_history (state_manager eh) ++ rs /\
    map (fun r => (er_simulation_id r, er_error_type r)) rs =
      (if server_responds i then [] else [("system"%string, "carla_crash"%string)]) ++
      (if Qgtb (resources_memory (fst (check_resource_usage (probe i) m))) 90
       then [("system"%string, "memory_exhaustion"%string)] else []).
Proof.
  unfold periodic_health_check, check_carla_connection. cbn iota beta zeta.
  pose proof (check_resource_usage_result (probe i) m (server_responds i)) as Hr.
  destruct (check_resource_usage (probe i) _) as [res m2]. cbn [fst] in Hr. rewrite <- Hr.
  set (eh1 := if server_responds i then eh else _).
  set (eh2 := if Qgtb (resources_memory res) 90 then _ else eh1).
  match goal with |- context [error_history (state_manager (fst ?t))] =>
    assert (Ht : error_history (state_manager (fst t)) = error_history (state_manager eh2));
    [|rewrite Ht]
  end.
  { destruct (get_error_history _ None 1 _) as [hist|]; [|reflexivity].
    destruct (calculate_error_rate _ _ _) as [[?|] m3]; [|reflexivity].
    pose proof (cleanup_facts (file_ok i) (checkpoint_order i) (state_manager eh2) 24 (t_cleanup i))
      as Hc.
    destruct (cleanup_old_checkpoints _ _ _ _ _) as [err sm'].
    destruct Hc as (Hc & _). exact Hc. }
  unfold eh2.
  assert (H1 : exists rs1, error_history (state_manager eh1) = error_history (state_manager eh) ++ rs1 /\
                 map (fun r => (er_simulation_id r, er_error_type r)) rs1 =
                 (if server_responds i then [] else [("system"%string, "carla_crash"%string)])).
  { unfold eh1. destruct (server_responds i).
    - exists []. rewrite app_nil_r. auto.
    - destruct (handle_error eh "system" CARLA_CRASH _ empty_context (t_crash i) (restart_connects i))
        as [b eh'] eqn:E.
      destruct (handle_error_sequential_record _ _ _ _ _ _ _ _ _ E) as (r & Hh & Hs & Hty & _).
      exists [r]. cbn [snd]. rewrite Hh. split; [reflexivity|]. cbn [map]. rewrite Hs, Hty. reflexivity. }
  destruct H1 as (rs1 & Hh1 & Hm1).
  destruct (Qgtb (resources_memory res) 90).
  - destruct (handle_error eh1 "system" MEMORY_EXHAUSTION _ empty_context (t_memory i) (restart_connects i))
      as [b eh'] eqn:E.
    destruct (handle_error_sequential_record _ _ _ _ _ _ _ _ _ E) as (r & Hh & Hs & Hty & _).
    exists (rs1 ++ [r]). cbn [snd]. rewrite Hh, Hh1, app_assoc. split; [reflexivity|].
    rewrite map_app, Hm1. cbn [map]. rewrite Hs, Hty. reflexivity.
  - exists rs1. rewrite Hh1. split; [reflexivity|]. rewrite Hm1, app_nil_r. reflexivity.
Qed.

End HealthFacts.

Module LoopFacts.
Import Orchestrator OrchestratorFacts.

(** The number of [await asyncio.sleep(ms / 1000)] of a trace. *)
Definition sleeps (ms : Z) (evs : list Event) : nat :=
  length (List.filter (fun ev => match ev with EvSleep d => Z.eqb d ms | _ => false end) evs).

Lemma sleeps_app ms l1 l2 : sleeps ms (l1 ++ l2) = (sleeps ms l1 + sleeps ms l2)%nat.
Proof. unfold sleeps. rewrite List.filter_app, length_app. reflexivity. Qed.

(** [health_status.get("status") == "healthy"] on a response that does not
    raise. *)
Definition healthy_resp (r : Resp) : bool :=
  match r with
  | RDict _ (Some st) _ => bool_decide (st = "healthy"%string)
  | _ => false
  end.

(** The [i]-th health check of a readiness loop started at [w], made after
    [i] failed attempts (each one check and one sleep), reports healthy. *)
Definition ready_at (env : Env) (service : string) (w : World) (i : nat) : bool :=
  healthy_resp (respond env (w_step w + 2 * i) (check_service_health service)).

(** One attempt of the readiness loop: one health check, and a sleep of
    two seconds unless the service reported healthy. *)
Lemma verify_readiness_S env n service failure w :
  exists (b : bool) evs1 w1,
    verify_readiness env (S n) service failure w =
      (if b then (Ok tt, w1) else verify_readiness env n service failure w1) /\
    b = ready_at env service w 0 /\
    (b = false -> w_step w1 = S (S (w_step w))) /\
    w_trace w1 = w_trace w ++ evs1 /\
    calls evs1 = [check_service_health service] /\
    sleeps 2000 evs1 = (if b then 0 else 1)%nat.
Proof.
  unfold ready_at. rewrite Nat.add_0_r.
  cbn [verify_readiness]. rewrite bind_eq. unfold try_except. rewrite bind_eq. unfold ext at 1.
  destruct (respond env (w_step w) (check_service_health service)) as [msg| |sid st ents] eqn:R.
  - eexists false, _, _. split; [reflexivity|]. split; [reflexivity|]. split; [reflexivity|].
    cbn. rewrite <- !app_assoc. split; [reflexivity|]. split; reflexivity.
  - eexists false, _, _. split; [reflexivity|]. split; [reflexivity|]. split; [reflexivity|].
    cbn. rewrite <- !app_assoc. split; [reflexivity|]. split; reflexivity.
  - destruct st as [st|].
    + cbn [status_is_healthy healthy_resp]. rewrite bind_eq. cbn [mret M_ret].
      destruct (bool_decide (st = "healthy"%string)).
      * eexists true, _, _. split; [reflexivity|]. split; [reflexivity|]. split; [discriminate|].
        cbn. split; [reflexivity|]. split; reflexivity.
      * eexists false, _, _. split; [reflexivity|]. split; [reflexivity|]. split; [reflexivity|].
        cbn. rewrite <- !app_assoc. split; [reflexivity|]. split; reflexivity.
    + eexists false, _, _. split; [reflexivity|]. split; [reflexivity|]. split; [reflexivity|].
      cbn. rewrite <- !app_assoc. split; [reflexivity|]. split; reflexivity.
Qed.

(** [_verify_carla_readiness] and [_verify_dreamer_readiness] call nothing
    but the health check of their service.  They return as soon as a check
    reports ["healthy"]: when the first healthy report among the first [n]
    is the [j]-th, they return after [j + 1] checks and [j] two-second
    sleeps.  When none of the [n] checks reports healthy, they raise
    [Exception(failure)] after exactly [n] checks and [n] sleeps.  No error
    of the health check escapes: each is caught and counts as a failed
    attempt. *)
Theorem verify_readiness_outcome env n service failure w :
  exists evs,
    w_trace (snd (verify_readiness env n service failure w)) = w_trace w ++ evs /\
    Forall (fun c => c = check_service_health service) (calls evs) /\
    (forall j, (j < n)%nat -> ready_at env service w j = true ->
       (forall i, (i < j)%nat -> ready_at env service w i = false) ->
       fst (verify_readiness env n service failure w) = Ok tt /\
       length (calls evs) = S j /\ sleeps 2000 evs = j) /\
    ((forall i, (i < n)%nat -> ready_at env service w i = false) ->
       fst (verify_readiness env n service failure w) = Exc (Exception_ failure) /\
       length (calls evs) = n /\ sleeps 2000 evs = n).
Proof.
  revert w. induction n as [|n IH]; intros w.
  - exists []. rewrite app_nil_r. split; [reflexivity|]. split; [constructor|].
    split; [intros j Hj; lia|]. intros _. repeat split.
  - destruct (verify_readiness_S env n service failure w)
      as (b & evs1 & w1 & E & Hb & Hst & Ht & Hc & Hs).
    rewrite E. destruct b.
    + exists evs1. split; [exact Ht|]. rewrite Hc. split; [repeat constructor|]. split.
      * intros j Hj Hr Hbefore. destruct j as [|j].
        -- rewrite Hs. split; [reflexivity|]. split; reflexivity.
        -- rewrite (Hbefore 0%nat ltac:(lia)) in Hb. discriminate.
      * intros Hnot. rewrite (Hnot 0%nat ltac:(lia)) in Hb. discriminate.
    + assert (Hw1 : forall i, ready_at env service w1 i = ready_at env service w (S i)).
      { intros i. unfold ready_at. rewrite (Hst eq_refl). f_equal. f_equal. lia. }
      destruct (IH w1) as (evs2 & Ht2 & Hc2 & Hok & Hexc).
      exists (evs1 ++ evs2). rewrite Ht2, Ht, app_assoc. split; [reflexivity|].
      rewrite calls_app, Hc. split; [constructor; [reflexivity|exact Hc2]|].
      rewrite sleeps_app, Hs. cbn [length app]. split.
      * intros j Hj Hr Hbefore. destruct j as [|j]; [rewrite Hr in Hb; discriminate|].
        destruct (Hok j ltac:(lia)) as (Ho & Hl & Hs2).
        -- rewrite Hw1. exact Hr.
        -- intros i Hi. rewrite Hw1. apply Hbefore. lia.
        -- rewrite Ho, Hl, Hs2. split; [reflexivity|]. split; cbn; lia.
      * intros Hnot. destruct Hexc as (Ho & Hl & Hs2).
        -- intros i Hi. rewrite Hw1. apply Hnot. lia.
        -- rewrite Ho, Hl, Hs2. split; [reflexivity|]. split; cbn; lia.
Qed.

(** [(datetime_b - datetime_a).seconds] is below one day. *)
Lemma timedelta_seconds_lt d : timedelta_seconds d < 86400.
Proof. unfold timedelta_seconds. apply Z.mod_pos_bound. lia. Qed.

(** With a [simulation_time] of one day (86400 s) or more, the time check
    of the simulation loop never ends it: [.seconds] of the elapsed time
    wraps around every day.  The loop returns normally only from its
    cancellation branch, with the cancellation flag set and "Simulation
    cancelled" as its last event; otherwise it raises or runs on. *)
Theorem simulation_loop_day_long_time env fuel start st k w :
  86400 <= st ->
  match simulation_loop env fuel start st k w with
  | (Ok _, w') => is_cancelled (w_state w') = true /\
                  last (w_trace w') = Some (EvLog INFO "Simulation cancelled")
  | _ => True
  end.
Proof.
  intros Hst. revert k w. induction fuel as [|fuel IH]; intros k w; [exact I|].
  cbn [simulation_loop]. rewrite bind_eq. cbn [utcnow].
  assert (Ht : (timedelta_seconds (clock env (w_reads w) - start) <? st) = true).
  { apply Z.ltb_lt. pose proof (timedelta_seconds_lt (clock env (w_reads w) - start)). lia. }
  rewrite Ht. rewrite bind_eq. cbn [get_state w_state].
  destruct (is_cancelled (w_state w)) eqn:Ec.
  - cbn. split; [exact Ec|]. apply last_snoc.
  - rewrite bind_eq.
    destruct (try_except _ _ _) as [[k'|e|] w2]; [apply IH|exact I|exact I].
Qed.

Lemma simulation_loop_day_long_time_witness :
  86400 <= 86400 /\
  match simulation_loop Scenarios.cancel_in_loop_env 5 0 86400 0
          (registered_world "exp-1" Scenarios.valid_config) with
  | (Ok _, w') => is_cancelled (w_state w') = true /\
                  last (w_trace w') = Some (EvLog INFO "Simulation cancelled")
  | _ => True
  end.
Proof.
  assert (H : 86400 <= 86400) by lia. split; [exact H|].
  exact (simulation_loop_day_long_time Scenarios.cancel_in_loop_env 5 0 86400 0
           (registered_world "exp-1" Scenarios.valid_config) H).
Defined.

Lemma ext_benign env c w :
  benign env -> exists sid st m, ext env c w = (Ok (RDict sid st m), suspend env (EvCall c) w).
Proof.
  intros Hb. unfold ext. specialize (Hb (w_step w) c).
  destruct (respond env (w_step w) c); try contradiction; eauto.
Qed.

(** With answering collaborators and no cancellation, an iteration of the
    loop succeeds and leaves the cancellation flag as it was. *)
Lemma simulation_step_benign env start st k w :
  benign env -> (forall n, cancel_at env n = false) ->
  fst (simulation_step env start st k w) = Ok (k + 1) /\
  is_cancelled (w_state (snd (simulation_step env start st k w))) = is_cancelled (w_state w).
Proof.
  intros Hb Hc. unfold simulation_step.
  repeat (rewrite bind_eq; cbn [get_state w_state utcnow update_sim_metrics sleep];
          try match goal with
              | |- context [ext env ?c ?w] =>
                  destruct (ext_benign env c w Hb) as (? & ? & ? & ->)
              end).
  cbn. rewrite !Hc. cbn. rewrite !orb_false_r. split; reflexivity.
Qed.

(** With collaborators that answer every call (and report healthy) and no
    [cancel_workflow], a simulation loop with a [simulation_time] of one
    day or more never ends: it runs until its fuel is exhausted, whatever
    the fuel. *)
Theorem simulation_loop_day_long_runs_on env fuel start st k w :
  benign env -> (forall n, cancel_at env n = false) ->
  is_cancelled (w_state w) = false -> 86400 <= st ->
  fst (simulation_loop env fuel start st k w) = OutOfFuel.
Proof.
  intros Hb Hc Hw Hst. revert k w Hw. induction fuel as [|fuel IH]; intros k w Hw; [reflexivity|].
  cbn [simulation_loop]. rewrite bind_eq. cbn [utcnow].
  assert (Ht : (timedelta_seconds (clock env (w_reads w) - start) <? st) = true).
  { apply Z.ltb_lt. pose proof (timedelta_seconds_lt (clock env (w_reads w) - start)). lia. }
  rewrite Ht. rewrite bind_eq. cbn [get_state w_state]. rewrite Hw.
  rewrite bind_eq. unfold try_except.
  set (w1 := mkWorld _ _ _ _ _ _).
  destruct (simulation_step_benign env start st k w1 Hb Hc) as (Hs & Hcs).
  destruct (simulation_step env start st k w1) as [r w2]. cbn [fst snd] in Hs, Hcs. subst r.
  apply IH. rewrite Hcs. exact Hw.
Qed.

Lemma healthy_env_benign : benign Scenarios.healthy_env.
Proof. intros n c. destruct c; simpl; auto. Qed.

Lemma simulation_loop_day_long_runs_on_witness :
  benign Scenarios.healthy_env /\ (forall n, cancel_at Scenarios.healthy_env n = false) /\
  is_cancelled (w_state (registered_world "exp-1" Scenarios.valid_config)) = false /\
  86400 <= 86400 /\
  fst (simulation_loop Scenarios.healthy_env 20 0 86400 0
         (registered_world "exp-1" Scenarios.valid_config)) = OutOfFuel.
Proof.
  pose proof healthy_env_benign as H1.
  assert (H2 : forall n, cancel_at Scenarios.healthy_env n = false) by reflexivity.
  assert (H3 : is_cancelled (w_state (registered_world "exp-1" Scenarios.valid_config)) = false)
    by reflexivity.
  assert (H4 : 86400 <= 86400) by lia.
  split; [exact H1|]. split; [exact H2|]. split; [exact H3|]. split; [exact H4|].
  exact (simulation_loop_day_long_runs_on Scenarios.healthy_env 20 0 86400 0
           (registered_world "exp-1" Scenarios.valid_config) H1 H2 H3 H4).
Defined.

End LoopFacts.
